(** * HPS interpreter (hsp.py, v0.3.0): a shallow embedding and its properties

    The Python class [HPSInterpreter] is embedded as functions over an explicit
    [world]: the interpreter object, the store of the list objects it shares
    by reference, the position in the random source and what was printed.
    Python strings are sequences of code points, floats are IEEE-754 binary64
    values ([spec_float] at precision 53), integers are [Z].

    What belongs to CPython and not to hsp.py is a parameter (the class
    [Host]): the Unicode tables above Latin-1, [float] and [repr], [eval] and
    the random source.  [eval] is given the text of an arithmetic statement
    and is not confined by its empty builtins, so that it is a computation on
    the world like the interpreter's own, and nothing is assumed of it.
    Memory and the call stack are taken to be unbounded
    (no [MemoryError], no [RecursionError]) and [int] to read digit strings of
    any length; a computation that does not end is one that gives no answer
    whatever the fuel. *)

From Stdlib Require Import String Ascii.
From Stdlib Require Import ZArith NArith List Bool Lia DecimalString.
From Stdlib Require Import Floats.SpecFloat.
Import ListNotations.
Local Open Scope Z_scope.

(** ** Python strings *)

(** A Python [str] is a sequence of Unicode code points. *)
Definition char := N.
Definition pystr := list char.

(** String literals of this file are written in UTF-8 and decoded to code
    points, so that the literals of the source can be copied as they are. *)
Fixpoint utf8_decode (bs : list N) : pystr :=
  match bs with
  | [] => []
  | b :: r =>
      if (b <? 128)%N then b :: utf8_decode r
      else if (b <? 224)%N then
        match r with
        | b1 :: r' => ((b - 192) * 64 + (b1 - 128))%N :: utf8_decode r'
        | _ => []
        end
      else if (b <? 240)%N then
        match r with
        | b1 :: b2 :: r' =>
            ((b - 224) * 4096 + (b1 - 128) * 64 + (b2 - 128))%N :: utf8_decode r'
        | _ => []
        end
      else
        match r with
        | b1 :: b2 :: b3 :: r' =>
            ((b - 240) * 262144 + (b1 - 128) * 4096 + (b2 - 128) * 64 + (b3 - 128))%N
              :: utf8_decode r'
        | _ => []
        end
  end.

Definition u (s : string) : pystr :=
  utf8_decode (map N_of_ascii (list_ascii_of_string s)).
Arguments u s%_string.

Definition ch (s : string) : char := hd 0%N (u s).
Arguments ch s%_string.

Fixpoint str_eqb (a b : pystr) : bool :=
  match a, b with
  | [], [] => true
  | x :: a', y :: b' => (x =? y)%N && str_eqb a' b'
  | _, _ => false
  end.

(** [not s], for a string or a list *)
Definition is_empty {A} (s : list A) : bool :=
  match s with [] => true | _ => false end.

(** [s.startswith(p)] *)
Fixpoint startswith (p s : pystr) : bool :=
  match p, s with
  | [], _ => true
  | x :: p', y :: s' => (x =? y)%N && startswith p' s'
  | _ :: _, [] => false
  end.

(** [s.endswith(p)] *)
Definition endswith (p s : pystr) : bool := startswith (rev p) (rev s).

(** [p in s] for strings *)
Fixpoint contains (p s : pystr) : bool :=
  startswith p s || match s with [] => false | _ :: s' => contains p s' end.

(** [x in l] for a list of strings *)
Definition str_in (x : pystr) (l : list pystr) : bool := existsb (str_eqb x) l.

(** The longest prefix whose characters satisfy [p], and the rest. *)
Fixpoint span (p : char -> bool) (s : pystr) : pystr * pystr :=
  match s with
  | c :: s' => if p c then let (a, b) := span p s' in (c :: a, b) else ([], s)
  | [] => ([], [])
  end.

Fixpoint dropwhile (p : char -> bool) (s : pystr) : pystr :=
  match s with
  | c :: s' => if p c then dropwhile p s' else s
  | [] => []
  end.

(** [s.replace(old, new)] for a non-empty [old]: the occurrences are replaced
    from left to right, without overlap.  [skip] counts the characters of an
    occurrence that is being stepped over. *)
Fixpoint replace_from (old new : pystr) (skip : nat) (s : pystr) : pystr :=
  match s with
  | [] => []
  | c :: s' =>
      match skip with
      | S k => replace_from old new k s'
      | O =>
          if startswith old s
          then new ++ replace_from old new (pred (length old)) s'
          else c :: replace_from old new 0 s'
      end
  end.

Definition replace (old new s : pystr) : pystr := replace_from old new 0 s.

(** [s.split(sep)] for a one-character separator. *)
Fixpoint split (sep : char) (s : pystr) : list pystr :=
  match s with
  | [] => [[]]
  | c :: s' =>
      if (c =? sep)%N then [] :: split sep s'
      else match split sep s' with
           | w :: ws => (c :: w) :: ws
           | [] => [[c]]
           end
  end.

(** [sep.join(l)] *)
Fixpoint join (sep : pystr) (l : list pystr) : pystr :=
  match l with
  | [] => []
  | [x] => x
  | x :: l' => x ++ sep ++ join sep l'
  end.

(** [str(n)] for an integer. *)
Definition str_of_Z (z : Z) : pystr :=
  map N_of_ascii (list_ascii_of_string (NilZero.string_of_int (Z.to_int z))).


(** ** Floats and integers

    Python's [float] is IEEE-754 binary64 with round-to-nearest-even; its
    arithmetic is the one of [SpecFloat] at precision 53. *)
Definition float := spec_float.
Definition prec : Z := 53.
Definition emax : Z := 1024.

Definition fadd : float -> float -> float := SFadd prec emax.
Definition fmul : float -> float -> float := SFmul prec emax.
Definition fdiv : float -> float -> float := SFdiv prec emax.
Definition flt : float -> float -> bool := SFltb.

(** The float nearest to the integer [z] (exact below 2^53). *)
Definition float_of_Z (z : Z) : float := binary_normalize prec emax z 0 false.

(** The float nearest to [m / 10^k], for a decimal literal with the digits
    of [m] and [k] digits after the point. *)
Definition float_of_decimal (m : N) (k : nat) : float :=
  match m with
  | N0 => S754_zero false
  | Npos p =>
      let '(q, e, l) := SFdiv_core_binary prec emax (Zpos p) 0 (10 ^ Z.of_nat k) 0 in
      binary_round_aux prec emax false q e l
  end.

Definition f1_0 : float := Eval vm_compute in float_of_Z 1.
Definition f100 : float := Eval vm_compute in float_of_Z 100.
(** The literal [0.02]. *)
Definition f0_02 : float := Eval vm_compute in float_of_decimal 2 2.

(** Exceptions of the Python run time that the interpreter can meet; the
    string is [str(e)]. *)
Inductive exn :=
| ValueError (msg : pystr)
| AttributeError (msg : pystr)
| OverflowError (msg : pystr)
| IndexError (msg : pystr).

Definition str_exn (e : exn) : pystr :=
  match e with
  | ValueError m | AttributeError m | OverflowError m | IndexError m => m
  end.

(** Conversion of an [int] operand in mixed arithmetic: an integer that
    rounds beyond the largest float raises [OverflowError]. *)
Definition int_to_float (z : Z) : exn + float :=
  if Z.abs z <? 2 ^ 1024 - 2 ^ 970
  then inr (float_of_Z z)
  else inl (OverflowError (u "int too large to convert to float")).

(** [min(a, b)]: the first of the smallest arguments. *)
Definition py_min (a b : float) : float := if flt b a then b else a.

(** [random.random()] yields [k / 2^53] for a 53-bit integer [k]. *)
Definition random_float (n : N) : float :=
  binary_normalize prec emax (Z.of_N (n mod 2 ^ 53)) (-53) false.

(** ** The state model *)

(** A [dict] keeps its keys in insertion order; an assignment to a key that
    is present keeps its place. *)
Definition dict (V : Type) := list (pystr * V).

Fixpoint dict_get {V} (k : pystr) (d : dict V) : option V :=
  match d with
  | [] => None
  | (k', v) :: d' => if str_eqb k k' then Some v else dict_get k d'
  end.

Fixpoint dict_set {V} (k : pystr) (v : V) (d : dict V) : dict V :=
  match d with
  | [] => [(k, v)]
  | (k', v') :: d' => if str_eqb k k' then (k', v) :: d' else (k', v') :: dict_set k v d'
  end.

Record Pool := mkPool {
  pool_name : pystr;
  total_prob : float;
  items : list pystr
}.

Record Function := mkFunction {
  func_name : pystr;
  params : list pystr;
  body : list pystr
}.

(** A plain variable holds a float or, when the text is no number, a string. *)
Inductive value :=
| VFloat (x : float)
| VStr (s : pystr).

(** A reference to a list object of the store. *)
Definition ref := nat.

(** The attributes of [HPSInterpreter]; [output_lines] is a reference,
    because [execute] hands the list object itself to its caller. *)
Record HPSInterpreter := mkHPS {
  variables : dict value;
  pools : dict Pool;
  currency : dict float;
  inventory : list pystr;
  pity_counter : Z;
  total_spent : Z;
  functions : dict Function;
  output_lines : ref;
  in_function : bool;
  current_function_lines : list pystr;
  current_function_name : pystr;
  current_function_params : list pystr
}.

Definition set_variables (x : dict value) (s : HPSInterpreter) : HPSInterpreter :=
  mkHPS x (pools s) (currency s) (inventory s) (pity_counter s) (total_spent s) (functions s) (output_lines s) (in_function s) (current_function_lines s) (current_function_name s) (current_function_params s).
Definition set_pools (x : dict Pool) (s : HPSInterpreter) : HPSInterpreter :=
  mkHPS (variables s) x (currency s) (inventory s) (pity_counter s) (total_spent s) (functions s) (output_lines s) (in_function s) (current_function_lines s) (current_function_name s) (current_function_params s).
Definition set_currency (x : dict float) (s : HPSInterpreter) : HPSInterpreter :=
  mkHPS (variables s) (pools s) x (inventory s) (pity_counter s) (total_spent s) (functions s) (output_lines s) (in_function s) (current_function_lines s) (current_function_name s) (current_function_params s).
Definition set_inventory (x : list pystr) (s : HPSInterpreter) : HPSInterpreter :=
  mkHPS (variables s) (pools s) (currency s) x (pity_counter s) (total_spent s) (functions s) (output_lines s) (in_function s) (current_function_lines s) (current_function_name s) (current_function_params s).
Definition set_pity_counter (x : Z) (s : HPSInterpreter) : HPSInterpreter :=
  mkHPS (variables s) (pools s) (currency s) (inventory s) x (total_spent s) (functions s) (output_lines s) (in_function s) (current_function_lines s) (current_function_name s) (current_function_params s).
Definition set_total_spent (x : Z) (s : HPSInterpreter) : HPSInterpreter :=
  mkHPS (variables s) (pools s) (currency s) (inventory s) (pity_counter s) x (functions s) (output_lines s) (in_function s) (current_function_lines s) (current_function_name s) (current_function_params s).
Definition set_functions (x : dict Function) (s : HPSInterpreter) : HPSInterpreter :=
  mkHPS (variables s) (pools s) (currency s) (inventory s) (pity_counter s) (total_spent s) x (output_lines s) (in_function s) (current_function_lines s) (current_function_name s) (current_function_params s).
Definition set_output_lines (x : ref) (s : HPSInterpreter) : HPSInterpreter :=
  mkHPS (variables s) (pools s) (currency s) (inventory s) (pity_counter s) (total_spent s) (functions s) x (in_function s) (current_function_lines s) (current_function_name s) (current_function_params s).
Definition set_in_function (x : bool) (s : HPSInterpreter) : HPSInterpreter :=
  mkHPS (variables s) (pools s) (currency s) (inventory s) (pity_counter s) (total_spent s) (functions s) (output_lines s) x (current_function_lines s) (current_function_name s) (current_function_params s).
Definition set_current_function_lines (x : list pystr) (s : HPSInterpreter) : HPSInterpreter :=
  mkHPS (variables s) (pools s) (currency s) (inventory s) (pity_counter s) (total_spent s) (functions s) (output_lines s) (in_function s) x (current_function_name s) (current_function_params s).
Definition set_current_function_name (x : pystr) (s : HPSInterpreter) : HPSInterpreter :=
  mkHPS (variables s) (pools s) (currency s) (inventory s) (pity_counter s) (total_spent s) (functions s) (output_lines s) (in_function s) (current_function_lines s) x (current_function_params s).
Definition set_current_function_params (x : list pystr) (s : HPSInterpreter) : HPSInterpreter :=
  mkHPS (variables s) (pools s) (currency s) (inventory s) (pity_counter s) (total_spent s) (functions s) (output_lines s) (in_function s) (current_function_lines s) (current_function_name s) x.

Record world := mkWorld {
  self : HPSInterpreter;
  heap : list (list pystr);
  rng_pos : nat;
  stdout : list pystr
}.

(** ** Computations: a result, an exception, or no answer within the fuel *)

Inductive res (A : Type) :=
| Ok (a : A) (w : world)
| Raise (e : exn) (w : world)
| OutOfFuel.
Arguments Ok {A} a w.
Arguments Raise {A} e w.
Arguments OutOfFuel {A}.

Definition M (A : Type) := world -> res A.

Definition ret {A} (a : A) : M A := fun w => Ok a w.

Definition bind {A B} (m : M A) (k : A -> M B) : M B :=
  fun w =>
    match m w with
    | Ok a w' => k a w'
    | Raise e w' => Raise e w'
    | OutOfFuel => OutOfFuel
    end.

Definition raise {A} (e : exn) : M A := fun w => Raise e w.

(** [try: m except Exception as e: h e] *)
Definition try_except {A} (m : M A) (h : exn -> M A) : M A :=
  fun w =>
    match m w with
    | Ok a w' => Ok a w'
    | Raise e w' => h e w'
    | OutOfFuel => OutOfFuel
    end.

Definition lift {A} (x : exn + A) : M A :=
  match x with inl e => raise e | inr a => ret a end.

Definition gets {A} (f : HPSInterpreter -> A) : M A := fun w => Ok (f (self w)) w.

Definition modify (f : HPSInterpreter -> HPSInterpreter) : M unit :=
  fun w => Ok tt (mkWorld (f (self w)) (heap w) (rng_pos w) (stdout w)).

Notation "x <- m ;; k" := (bind m (fun x => k))
  (at level 61, m at next level, right associativity).
Notation "m ;; k" := (bind m (fun _ => k))
  (at level 61, right associativity).

(** A new, empty list object. *)
Definition new_list : M ref :=
  fun w => Ok (length (heap w)) (mkWorld (self w) (heap w ++ [[]]) (rng_pos w) (stdout w)).

Definition list_get (r : ref) (w : world) : list pystr := nth r (heap w) [].

Fixpoint heap_append (r : ref) (x : pystr) (h : list (list pystr)) : list (list pystr) :=
  match h, r with
  | l :: h', O => (l ++ [x]) :: h'
  | l :: h', S r' => l :: heap_append r' x h'
  | [], _ => []
  end.

(** [l.append(x)] on the list object [r]. *)
Definition list_append (r : ref) (x : pystr) : M unit :=
  fun w => Ok tt (mkWorld (self w) (heap_append r x (heap w)) (rng_pos w) (stdout w)).

(** [self.output_lines.append(x)] *)
Definition emit (x : pystr) : M unit :=
  r <- gets output_lines ;; list_append r x.

(** [print(x)] *)
Definition print (x : pystr) : M unit :=
  fun w => Ok tt (mkWorld (self w) (heap w) (rng_pos w) (stdout w ++ [x])).

(** [self.output_lines.append(x)] where [eval] may have run before: when
    the attribute is no list object of the store, which is how an attribute
    that was left with no list shows (as if it were [None]), the call raises
    [AttributeError].  [execute] binds the attribute to a new list when it
    starts and nothing but [eval] takes it away, so that the appends which
    can meet such an attribute are those of [_handle_math] and of the
    [except] clause of [execute]. *)
Definition emit_or_raise (x : pystr) : M unit :=
  fun w =>
    if (output_lines (self w) <? length (heap w))%nat then emit x w
    else Raise (AttributeError (u "'NoneType' object has no attribute 'append'")) w.

(** ** What the Python run time supplies

    The Unicode tables above Latin-1, the conversions between floats and
    text, [eval], and the random source belong to CPython, not to hsp.py:
    they are the fields of [Host]. *)
Class Host := {
  (** [str.isalnum()] of a code point above U+00FF *)
  uni_alnum : char -> bool;
  (** the value of a decimal digit (category Nd) above U+00FF *)
  uni_decimal : char -> option N;
  (** [str.isspace()] of a code point above U+00FF *)
  uni_space : char -> bool;
  (** [float(s)]; [None] when it raises [ValueError] *)
  py_float : pystr -> option float;
  (** [repr(x)] of a float, which is also [str(x)] *)
  repr_float : float -> pystr;
  (** [repr(s)] of a string *)
  repr_str : pystr -> pystr;
  (** [eval(expr, {"__builtins__": {}}, {})] and the formatting of its
      result with [:.2f]: the formatted result, or the exception that the
      evaluation or the formatting raises.  Through the attributes of a
      literal the expression reaches every loaded class, the frames of its
      callers and so the interpreter object and the builtins: the call may
      also change any attribute, print, use the random source, or not
      return ([OutOfFuel]).  An attribute [output_lines] that it left with
      no list is a reference to no list object of the store; the other
      attributes keep values of their types.  Nothing is assumed of this
      field: a theorem either is about statements that do not reach it, or
      says what it takes [eval] to do. *)
  py_eval_2f : pystr -> M pystr;
  (** the successive results of the random generator *)
  random_tape : nat -> N
}.


Section Interpreter.
Context {H : Host}.

(** ** Character classes of [re] and [str.strip] *)

Definition latin1_word (c : char) : bool :=
  ((48 <=? c) && (c <=? 57) || (65 <=? c) && (c <=? 90) || (c =? 95)
   || (97 <=? c) && (c <=? 122)
   || (c =? 170) || (c =? 178) || (c =? 179) || (c =? 181) || (c =? 185) || (c =? 186)
   || (188 <=? c) && (c <=? 190)
   || (192 <=? c) && (c <=? 214) || (216 <=? c) && (c <=? 246) || (248 <=? c))%N.

Definition latin1_space (c : char) : bool :=
  ((9 <=? c) && (c <=? 13) || (28 <=? c) && (c <=? 32) || (c =? 133) || (c =? 160))%N.

(** [\w] *)
Definition is_word (c : char) : bool :=
  if (c <? 256)%N then latin1_word c else uni_alnum c.

(** [\d] *)
Definition is_digit (c : char) : bool :=
  if (c <? 256)%N then ((48 <=? c) && (c <=? 57))%N
  else match uni_decimal c with Some _ => true | None => false end.

(** [\s], which is also what [strip()] removes *)
Definition is_space (c : char) : bool :=
  if (c <? 256)%N then latin1_space c else uni_space c.

(** [[\d.]] *)
Definition is_digit_or_dot (c : char) : bool := is_digit c || (c =? 46)%N.

(** [.] matches everything but a newline. *)
Definition not_newline (c : char) : bool := negb (c =? 10)%N.

(** [[^)]] *)
Definition not_rparen (c : char) : bool := negb (c =? 41)%N.

Definition strip (s : pystr) : pystr :=
  rev (dropwhile is_space (rev (dropwhile is_space s))).

(** The value of a digit character. *)
Definition digit_val (c : char) : Z :=
  if (c <? 256)%N then Z.of_N (c - 48)
  else match uni_decimal c with Some v => Z.of_N v | None => 0 end.

(** [int(s)] for a string of digits. *)
Definition int_of_digits (s : pystr) : Z :=
  fold_left (fun acc c => acc * 10 + digit_val c) s 0.

(** ** The regular expressions of hsp.py

    Each pattern is written as the function that [re] computes for it.  A
    greedy repetition is followed by a character outside its class in all
    patterns but [\s*(.+)] and [(.+)\)], so giving characters back never
    helps there and the longest run is the only candidate; the two others
    are written with their backtracking. *)

(** [re.search(mark + r'(\w+)', s)]: group 1 and the text after the match. *)
Fixpoint re_search_tok (mark : char) (s : pystr) : option (pystr * pystr) :=
  match s with
  | [] => None
  | c :: s' =>
      if (c =? mark)%N then
        match span is_word s' with
        | (_ :: _, _) as m => Some m
        | _ => re_search_tok mark s'
        end
      else re_search_tok mark s'
  end.

(** [re.findall(mark + r'(\w+)', s)]: the search is resumed after each match. *)
Fixpoint findall_tok_from (n : nat) (mark : char) (s : pystr) : list pystr :=
  match n with
  | O => []
  | S n' =>
      match re_search_tok mark s with
      | Some (name, rest) => name :: findall_tok_from n' mark rest
      | None => []
      end
  end.

Definition re_findall_tok (mark : char) (s : pystr) : list pystr :=
  findall_tok_from (length s) mark s.

(** The text before the first match of [mark + r'(\w+)'], group 1, and the
    text after the match. *)
Fixpoint re_split_tok (mark : char) (s : pystr) : option (pystr * pystr * pystr) :=
  match s with
  | [] => None
  | c :: s' =>
      let later :=
        match re_split_tok mark s' with
        | Some (pre, name, rest) => Some (c :: pre, name, rest)
        | None => None
        end in
      if (c =? mark)%N then
        match span is_word s' with
        | ((_ :: _) as name, rest) => Some ([], name, rest)
        | _ => later
        end
      else later
  end.

(** [re.sub(mark + r'(\w+)', f, s)], [f] receiving group 1. *)
Fixpoint re_sub_tok_from (n : nat) (mark : char) (f : pystr -> pystr) (s : pystr) : pystr :=
  match n with
  | O => s
  | S n' =>
      match re_split_tok mark s with
      | Some (pre, name, rest) => pre ++ f name ++ re_sub_tok_from n' mark f rest
      | None => s
      end
  end.

Definition re_sub_tok (mark : char) (f : pystr -> pystr) (s : pystr) : pystr :=
  re_sub_tok_from (length s) mark f s.

(** [re.search(prefix + r'(\d+)', s)]: group 1. *)
Fixpoint re_search_digits (prefix : pystr) (s : pystr) : option pystr :=
  match s with
  | [] => None
  | _ :: s' =>
      if startswith prefix s then
        match span is_digit (skipn (length prefix) s) with
        | ((_ :: _) as d, _) => Some d
        | _ => re_search_digits prefix s'
        end
      else re_search_digits prefix s'
  end.

(** [re.search(prefix + r'([\d.]+)/', s)]: group 1. *)
Fixpoint re_search_number_slash (prefix : pystr) (s : pystr) : option pystr :=
  match s with
  | [] => None
  | _ :: s' =>
      if startswith prefix s then
        match span is_digit_or_dot (skipn (length prefix) s) with
        | ((_ :: _) as d, c :: _) =>
            if (c =? 47)%N then Some d else re_search_number_slash prefix s'
        | _ => re_search_number_slash prefix s'
        end
      else re_search_number_slash prefix s'
  end.

(** [(.+)] at the start of [s]: the run up to the next newline. *)
Definition dot_plus (s : pystr) : option pystr :=
  match span not_newline s with
  | ((_ :: _) as g, _) => Some g
  | _ => None
  end.

(** [\s*(.+)] at the start of [s]: group of [(.+)].  The star takes a further
    space first and gives it back when the rest does not match. *)
Fixpoint spaces_dot_plus (s : pystr) : option pystr :=
  match s with
  | [] => None
  | c :: s' =>
      if is_space c then
        match spaces_dot_plus s' with
        | Some g => Some g
        | None => dot_plus s
        end
      else dot_plus s
  end.

(** [(.+)\)] at the start of [s]: group 1.  The plus takes a further
    character first and stops before the last [)] it can reach. *)
Fixpoint dot_plus_rparen (s : pystr) : option pystr :=
  match s with
  | [] => None
  | c :: s' =>
      if not_newline c then
        match dot_plus_rparen s' with
        | Some g => Some (c :: g)
        | None => match s' with
                  | d :: _ => if (d =? 41)%N then Some [c] else None
                  | [] => None
                  end
        end
      else None
  end.

(** [(\w+)\(([^)]{0,})\)] at the start of [s] (the source writes the
    repetition with a star): groups 1 and 2, and the text after the match. *)
Definition name_parens (s : pystr) : option (pystr * pystr * pystr) :=
  match span is_word s with
  | ((_ :: _) as name, c :: r) =>
      if (c =? 40)%N then
        match span not_rparen r with
        | (args, d :: r') => if (d =? 41)%N then Some (name, args, r') else None
        | _ => None
        end
      else None
  | _ => None
  end.

(** [re.match(r'#(\w+)\s*=\s*(.+)', s)]: groups 1 and 2. *)
Definition re_match_assign (s : pystr) : option (pystr * pystr) :=
  match s with
  | c :: s1 =>
      if (c =? 35)%N then
        match span is_word s1 with
        | ((_ :: _) as name, s2) =>
            match dropwhile is_space s2 with
            | e :: s3 =>
                if (e =? 61)%N then
                  match spaces_dot_plus s3 with
                  | Some g => Some (name, g)
                  | None => None
                  end
                else None
            | [] => None
            end
        | _ => None
        end
      else None
  | [] => None
  end.

(** [re.match(r'return\s*(.+)', s)]: group 1. *)
Definition re_match_return (s : pystr) : option pystr :=
  if startswith (u "return") s then spaces_dot_plus (skipn 6 s) else None.

(** [re.search(r'&A\((.+)\)', s)]: group 1. *)
Fixpoint re_search_math (s : pystr) : option pystr :=
  match s with
  | [] => None
  | _ :: s' =>
      if startswith (u "&A(") s then
        match dot_plus_rparen (skipn 3 s) with
        | Some g => Some g
        | None => re_search_math s'
        end
      else re_search_math s'
  end.

(** The function-definition header: the marker, then [(\w+)\(([^)]{0,})\)];
    groups 1 and 2. *)
Definition re_match_def (s : pystr) : option (pystr * pystr) :=
  if startswith (u "¢.") s then
    match name_parens (skipn 2 s) with
    | Some (name, ps, _) => Some (name, ps)
    | None => None
    end
  else None.

(** The call shape of the dispatcher: not the marker [(?!...)], then
    [\w+\([^)]{0,}\)] up to the end [$] (which also stands before a final
    newline). *)
Definition re_is_call (s : pystr) : bool :=
  negb (startswith (u "¢.") s) &&
  match name_parens s with
  | Some (_, _, rest) => is_empty rest || str_eqb rest [10%N]
  | None => false
  end.

(** [re.match(r'(\w+)\(([^)]{0,})\)', s)]: groups 1 and 2. *)
Definition re_match_call (s : pystr) : option (pystr * pystr) :=
  match name_parens s with
  | Some (name, args, _) => Some (name, args)
  | None => None
  end.

Definition next_random : M N :=
  fun w => Ok (random_tape (rng_pos w)) (mkWorld (self w) (heap w) (S (rng_pos w)) (stdout w)).

(** [random.random()] *)
Definition random_random : M float :=
  n <- next_random ;; ret (random_float n).

(** [random.choice(seq)]: any element of a non-empty sequence. *)
Definition random_choice (seq : list pystr) : M pystr :=
  match seq with
  | [] => raise (IndexError (u "Cannot choose from an empty sequence"))
  | x :: _ => n <- next_random ;; ret (nth (N.to_nat n mod length seq) seq x)
  end.

(** ** The interpreter *)

(** [__init__]: every attribute afresh, [output_lines] a new list. *)
Definition __init__ : M unit :=
  r <- new_list ;;
  modify (fun _ => mkHPS [] [] [] [] 0 0 [] r false [] [] []).

Definition reset : M unit := __init__.

Definition _start_function_def (line : pystr) : M unit :=
  match re_match_def line with
  | None => raise (ValueError (u "函数定义: ¢.函数名(参数)"))
  | Some (name, ps) =>
      modify (set_current_function_name name) ;;
      let params_str := strip ps in
      modify (set_current_function_params
                (if is_empty params_str then [] else map strip (split (ch ",") params_str))) ;;
      modify (set_current_function_lines []) ;;
      modify (set_in_function true)
  end.

Definition _end_function_def : M unit :=
  name <- gets current_function_name ;;
  ps <- gets current_function_params ;;
  ls <- gets current_function_lines ;;
  let func := mkFunction name ps ls in
  modify (fun s => set_functions (dict_set name func (functions s)) s) ;;
  emit (u "[函] ¢." ++ name ++ u " 定义完成") ;;
  modify (set_in_function false) ;;
  modify (set_current_function_name []) ;;
  modify (set_current_function_params []) ;;
  modify (set_current_function_lines []).

Definition _define_pool (line : pystr) : M unit :=
  match re_search_number_slash (u "(") line with
  | None => raise (ValueError (u "池子: (0.6/:$雷电)#UP"))
  | Some lit =>
      match py_float lit with
      | None => raise (ValueError (u "could not convert string to float: " ++ repr_str lit))
      | Some x =>
          let total_prob := fdiv x f100 in
          let items := re_findall_tok (ch "$") line in
          if is_empty items then raise (ValueError (u "池子需要物品"))
          else
            match re_search_tok (ch "#") line with
            | None => raise (ValueError (u "池子需要命名"))
            | Some (pool_name, _) =>
                modify (fun s =>
                  set_pools (dict_set pool_name (mkPool pool_name total_prob items) (pools s)) s) ;;
                let items_str := join (u ",") (map (fun i => ch "$" :: i) items) in
                emit (u "[池] #" ++ pool_name ++ u " | " ++ repr_float (fmul total_prob f100)
                        ++ u "% | " ++ items_str)
            end
      end
  end.

Definition float_or_raise (s : pystr) : M float :=
  match py_float s with
  | Some x => ret x
  | None => raise (ValueError (u "could not convert string to float: " ++ repr_str s))
  end.

Definition _assign_variable (line : pystr) : M unit :=
  match re_match_assign line with
  | None => raise (ValueError (u "赋值: #变量 = 值"))
  | Some (name, g) =>
      let value_str := strip g in
      (if startswith (u "¥") value_str then
         x <- float_or_raise (skipn 1 value_str) ;;
         modify (fun s => set_currency (dict_set name x (currency s)) s)
       else if endswith (u "/") value_str then
         match re_search_number_slash [] value_str with
         | Some lit =>
             x <- float_or_raise lit ;;
             modify (fun s => set_variables (dict_set name (VFloat (fdiv x f100)) (variables s)) s)
         | None => ret tt
         end
       else
         match py_float value_str with
         | Some x => modify (fun s => set_variables (dict_set name (VFloat x) (variables s)) s)
         | None => modify (fun s => set_variables (dict_set name (VStr value_str) (variables s)) s)
         end) ;;
      emit (u "[变] #" ++ name ++ u " = " ++ value_str)
  end.

(** The success probability of one attempt (lines 269-272), for the pool's
    [total_prob] and the counter after its increment. *)
Definition attempt_prob (base : float) (pity : Z) : exn + float :=
  if pity >? 70 then
    match int_to_float (pity - 70) with
    | inl e => inl e
    | inr d => inr (py_min f1_0 (fadd base (fmul d f0_02)))
    end
  else inr base.

(** How the [for] loop of [_execute_target] is left: by [return] or by
    [break] at a draw, or by running out of draws, which alone runs its
    [else] clause. *)
Inductive for_exit :=
| Returned (draw : Z)
| Broke (draw : Z)
| Exhausted.

(** The loop [for draw in range(1, max_pity + 1)], with [n] draws left. *)
Fixpoint draw_loop (n : nat) (draw max_pity : Z) (target_item : pystr) (pool : Pool)
  : M for_exit :=
  match n with
  | O => ret Exhausted
  | S n' =>
      modify (fun s => set_pity_counter (pity_counter s + 1) s) ;;
      pity <- gets pity_counter ;;
      current_prob <- lift (attempt_prob (total_prob pool) pity) ;;
      x <- random_random ;;
      if flt x current_prob then
        drawn <- random_choice (items pool) ;;
        modify (fun s => set_inventory (inventory s ++ [drawn]) s) ;;
        (if (draw <=? 3) || str_eqb drawn target_item || (draw >=? max_pity - 2) then
           let pity_tag :=
             if pity >? 70 then u "[" ++ str_of_Z pity ++ u "]" else [] in
           emit (u "     第" ++ str_of_Z draw ++ u "抽: $" ++ drawn ++ u " " ++ pity_tag)
         else ret tt) ;;
        if str_eqb drawn target_item then
          let cost := draw * 160 in
          modify (fun s => set_total_spent (total_spent s + cost) s) ;;
          emit (u "[✓] 出货! $" ++ target_item ++ u " | " ++ str_of_Z draw ++ u "抽 ¥"
                  ++ str_of_Z cost) ;;
          modify (set_pity_counter 0) ;;
          ret (Returned draw)
        else ret (Broke draw)
      else draw_loop n' (draw + 1) max_pity target_item pool
  end.

(** The [for ... else] statement (lines 267-294). *)
Definition draw_sequence (max_pity : Z) (target_item : pystr) (pool : Pool) : M for_exit :=
  e <- draw_loop (Z.to_nat max_pity) 1 max_pity target_item pool ;;
  match e with
  | Exhausted =>
      modify (fun s => set_inventory (inventory s ++ [target_item]) s) ;;
      let cost := max_pity * 160 in
      modify (fun s => set_total_spent (total_spent s + cost) s) ;;
      emit (u "[!] 保底 | $" ++ target_item ++ u " | " ++ str_of_Z max_pity ++ u "抽 ¥"
              ++ str_of_Z cost) ;;
      modify (set_pity_counter 0) ;;
      ret Exhausted
  | _ => ret e
  end.

(** The pity cap of a draw line: [int(pity_match.group(1)) if pity_match else 90]. *)
Definition parse_max_pity (line : pystr) : Z :=
  match re_search_digits (u "*") line with
  | Some d => int_of_digits d
  | None => 90
  end.

(** [_execute_target] returns [None] in Python; here it returns how its loop
    was left, which [_execute_line] drops. *)
Definition _execute_target (line : pystr) : M for_exit :=
  match re_search_tok (ch "$") line with
  | None => raise (ValueError (u "目标: <$雷电,#UP,*90>"))
  | Some (target_item, _) =>
      ps <- gets pools ;;
      match re_search_tok (ch "#") line with
      | None => raise (ValueError (u "池子未定义"))
      | Some (pool_name, _) =>
          match dict_get pool_name ps with
          | None => raise (ValueError (u "池子未定义"))
          | Some pool =>
              let draw_times :=
                match re_search_digits (u "×:") line with
                | Some d => int_of_digits d
                | None => 1
                end in
              let max_pity := parse_max_pity line in
              emit (u "[抽] $" ++ target_item ++ u " | #" ++ pool_name ++ u " | "
                      ++ str_of_Z draw_times ++ u "连 | 保底" ++ str_of_Z max_pity) ;;
              draw_sequence max_pity target_item pool
          end
      end
  end.

(** [str(val)] of a plain variable. *)
Definition str_value (v : value) : pystr :=
  match v with
  | VFloat x => repr_float x
  | VStr s => s
  end.

(** The inner function [replace_var] of [_handle_output], on group 1. *)
Definition replace_var (s : HPSInterpreter) (var_name : pystr) : pystr :=
  match dict_get var_name (variables s) with
  | Some val =>
      match val with
      | VFloat x =>
          if flt x f1_0 then repr_float (fmul x f100) ++ u "%" else str_value val
      | VStr _ => str_value val
      end
  | None =>
      match dict_get var_name (currency s) with
      | Some c => u "¥" ++ repr_float c
      | None => u "[未定义:#" ++ var_name ++ u "]"
      end
  end.

(** [repr] of a list of strings. *)
Definition repr_list (l : list pystr) : pystr :=
  u "[" ++ join (u ", ") (map repr_str l) ++ u "]".

Definition _handle_output (line : pystr) : M unit :=
  let content := skipn 2 line in
  s <- gets (fun s => s) ;;
  let content := re_sub_tok (ch "#") (replace_var s) content in
  let content := replace (u "{inventory}") (repr_list (inventory s)) content in
  let content := replace (u "{total_spent}") (u "¥" ++ str_of_Z (total_spent s)) content in
  let content := replace (u "{pity}") (str_of_Z (pity_counter s)) content in
  emit (u "[出] " ++ content).

(** The expression that [_handle_math] gives to [eval]: the text [g] the
    pattern captured, with the variables put in. *)
Definition math_expr (s : HPSInterpreter) (g : pystr) : pystr :=
  let expr :=
    fold_left (fun e kv => replace (ch "#" :: fst kv) (str_value (snd kv)) e)
              (variables s) g in
  let expr :=
    fold_left (fun e kv => replace (ch "#" :: fst kv) (repr_float (snd kv)) e)
              (currency s) expr in
  replace (u "÷") (u "/") (replace (u "×") (u "*") expr).

(** [_handle_math]: the bare [except] also meets what the append of the
    [try] block raises. *)
Definition _handle_math (line : pystr) : M unit :=
  match re_search_math line with
  | None => ret tt
  | Some g =>
      s <- gets (fun s => s) ;;
      let expr := math_expr s g in
      try_except (r <- py_eval_2f expr ;;
                  emit_or_raise (u "[算] " ++ g ++ u " = " ++ r))
                 (fun _ => emit_or_raise (u "[算] 错误: " ++ expr))
  end.

Definition _handle_return (line : pystr) : M unit :=
  match re_match_return line with
  | Some g => emit (u "[返] " ++ strip g)
  | None => ret tt
  end.

(** The class defines no [_handle_condition]: the attribute lookup raises. *)
Definition _handle_condition (line : pystr) : M unit :=
  raise (AttributeError (u "'HPSInterpreter' object has no attribute '_handle_condition'")).

(** [repr] of a dict, given the [repr] of its values. *)
Definition repr_dict {V} (repr_v : V -> pystr) (d : dict V) : pystr :=
  u "{" ++ join (u ", ") (map (fun kv => repr_str (fst kv) ++ u ": " ++ repr_v (snd kv)) d)
    ++ u "}".

Definition repr_value (v : value) : pystr :=
  match v with
  | VFloat x => repr_float x
  | VStr s => repr_str s
  end.

(** The entries of [vars_display] in [get_state]. *)
Definition display_value (v : value) : value :=
  match v with
  | VFloat x => if flt x f1_0 then VStr (repr_float (fmul x f100) ++ u "%") else v
  | VStr _ => v
  end.

Definition get_state (s : HPSInterpreter) : pystr :=
  let rule := concat (repeat (u "─") 40) in
  let lines :=
    [rule; u "📊 状态"]
    ++ (if is_empty (pools s) then [] else [u "  池: " ++ repr_list (map fst (pools s))])
    ++ (if is_empty (functions s) then []
        else [u "  函: " ++ repr_list (map fst (functions s))])
    ++ (if is_empty (variables s) then []
        else [u "  变: "
                ++ repr_dict repr_value (map (fun kv => (fst kv, display_value (snd kv)))
                                             (variables s))])
    ++ (if is_empty (currency s) then [] else [u "  钱: " ++ repr_dict repr_float (currency s)])
    ++ [u "  库: " ++ repr_list (inventory s);
        u "  保: " ++ str_of_Z (pity_counter s) ++ u " | 花: ¥" ++ str_of_Z (total_spent s);
        rule] in
  join [10%N] lines.

(** The parameter loop of [_call_function]: [#param] is replaced by the
    argument of the same index, when there is one. *)
Fixpoint subst_params (i : nat) (ps args : list pystr) (body_line : pystr) : pystr :=
  match ps with
  | [] => body_line
  | param :: ps' =>
      subst_params (S i) ps' args
        (match nth_error args i with
         | Some a => replace (ch "#" :: param) a body_line
         | None => body_line
         end)
  end.

(** The loop [for out in outputs: ... self.output_lines.append(...)] of
    [_call_function].  A list iterator holds an index and reads the list
    object at every step, so lines appended to that very object are met
    later in the same loop. *)
Fixpoint copy_outputs (fuel : nat) (outputs : ref) (i : nat) : M unit :=
  match fuel with
  | O => fun _ => OutOfFuel
  | S fuel' =>
      fun w =>
        match nth_error (list_get outputs w) i with
        | None => Ok tt w
        | Some out =>
            ((if negb (startswith (u "[函]") out) then emit (u "  " ++ out) else ret tt) ;;
             copy_outputs fuel' outputs (S i)) w
        end
  end.

(** The loop over [func.body] in [_call_function]; [exec] is [self.execute]
    with [show_prompt=False]. *)
Fixpoint call_body (exec : pystr -> M ref) (fuel : nat) (ps args body_lines : list pystr)
  : M unit :=
  match body_lines with
  | [] => ret tt
  | body_line :: rest =>
      let body_line := strip body_line in
      if is_empty body_line then call_body exec fuel ps args rest
      else
        let body_line := subst_params 0 ps args body_line in
        outputs <- exec body_line ;;
        copy_outputs fuel outputs 0 ;;
        call_body exec fuel ps args rest
  end.

Definition _call_function (exec : pystr -> M ref) (fuel : nat) (line : pystr) : M unit :=
  match re_match_call line with
  | None => ret tt
  | Some (func_name, g2) =>
      let args_str := strip g2 in
      let args := if is_empty args_str then [] else map strip (split (ch ",") args_str) in
      fs <- gets functions ;;
      match dict_get func_name fs with
      | None => emit (u "[!] 函数未定义: " ++ func_name)
      | Some func =>
          emit (u "[调] ¢." ++ func_name ++ u "(" ++ args_str ++ u ")") ;;
          call_body exec fuel (params func) args (body func)
      end
  end.

Definition _execute_line (exec : pystr -> M ref) (fuel : nat) (line : pystr) : M unit :=
  inf <- gets in_function ;;
  if inf && negb (startswith (u "¢.") line) then
    modify (fun s => set_current_function_lines (current_function_lines s ++ [line]) s)
  else if startswith (u "¢,") line then _handle_output line
  else if startswith (u "¢") line && negb (startswith (u "¢.") line) then
    let comment := strip (skipn 1 line) in
    if is_empty comment then ret tt else emit (u "[注] " ++ comment)
  else if startswith (u "¢.") line && negb (contains (u "¢.End") line) then
    if endswith (u ")") line then _start_function_def line else ret tt
  else if str_eqb line (u "¢.End") then _end_function_def
  else if re_is_call line && contains (u "(") line then _call_function exec fuel line
  else if startswith (u "return") line then _handle_return line
  else if startswith (u "(") line then _define_pool line
  else if startswith (u "#") line && contains (u "=") line && negb (startswith (u "#¢") line)
  then _assign_variable line
  else if startswith (u "<") line then _execute_target line ;; ret tt
  else if startswith (u "&A(") line then _handle_math line
  else if startswith (u "?") line then _handle_condition line
  else if str_eqb line (u "/state") then
    s <- gets (fun s => s) ;; emit (get_state s)
  else if str_eqb line (u "/reset") then reset ;; emit (u "[✓] 已重置")
  else if str_in line [u "exit"; u "quit"] then emit (u "[bye]")
  else emit (u "[?] 未知: " ++ firstn 40 line).

(** The body of [execute], [exec] standing for its recursive use. *)
Definition execute_with (exec : pystr -> M ref) (fuel : nat) (line : pystr)
  (show_prompt : bool) : M ref :=
  r <- new_list ;;
  modify (set_output_lines r) ;;
  let line := strip line in
  if is_empty line then new_list
  else
    inf <- gets in_function ;;
    (if show_prompt && negb inf then print (u "hps> " ++ line) else ret tt) ;;
    try_except (_execute_line exec fuel line)
               (fun e => emit_or_raise (u "[!] " ++ str_exn e)) ;;
    gets output_lines.

(** [execute]: [fuel] bounds the nesting of calls and the steps of each
    output-copying loop; no other part of the interpreter needs it. *)
Fixpoint execute (fuel : nat) (line : pystr) (show_prompt : bool) : M ref :=
  match fuel with
  | O => fun _ => OutOfFuel
  | S n => execute_with (fun l => execute n l false) n line show_prompt
  end.

Definition print_all (outputs : ref) : M unit :=
  fun w => Ok tt (mkWorld (self w) (heap w) (rng_pos w) (stdout w ++ list_get outputs w)).

(** The loop of [run_script] over the lines from index [i] on; [collecting]
    is true inside its inner loop, which gathers a function body up to the
    terminator. *)
Fixpoint run_lines (fuel : nat) (verbose collecting : bool) (lines : list pystr) : M unit :=
  match lines with
  | [] => ret tt
  | l :: rest =>
      let line := strip l in
      if collecting then
        if str_eqb line (u "¢.End") then
          _end_function_def ;; run_lines fuel verbose false rest
        else
          modify (fun s => set_current_function_lines (current_function_lines s ++ [line]) s) ;;
          run_lines fuel verbose true rest
      else if is_empty line then run_lines fuel verbose false rest
      else
        inf <- gets in_function ;;
        if startswith (u "¢.") line && negb inf then
          _start_function_def line ;; run_lines fuel verbose true rest
        else
          outputs <- execute fuel line false ;;
          (if verbose then print_all outputs else ret tt) ;;
          run_lines fuel verbose false rest
  end.

Definition run_script (fuel : nat) (code : pystr) (verbose : bool) : M unit :=
  run_lines fuel verbose false (split 10%N (strip code)).

(** ** Vocabulary of the properties *)

(** The attributes other than the output buffer are the same. *)
Definition same_attributes (s s' : HPSInterpreter) : Prop :=
  variables s' = variables s /\ pools s' = pools s /\ currency s' = currency s
  /\ inventory s' = inventory s /\ pity_counter s' = pity_counter s
  /\ total_spent s' = total_spent s /\ functions s' = functions s
  /\ in_function s' = in_function s
  /\ current_function_lines s' = current_function_lines s
  /\ current_function_name s' = current_function_name s
  /\ current_function_params s' = current_function_params s.

(** The world after [self.output_lines = []] at the start of [execute]. *)
Definition fresh_buffer (w : world) : world :=
  mkWorld (set_output_lines (length (heap w)) (self w)) (heap w ++ [[]]) (rng_pos w) (stdout w).

(** The world after the prompt of [execute] was printed, when it is. *)
Definition prompted (show_prompt : bool) (line : pystr) (w : world) : world :=
  if show_prompt && negb (in_function (self w))
  then mkWorld (self w) (heap w) (rng_pos w) (stdout w ++ [(u "hps> " ++ line : pystr)])
  else w.

(** The end of [execute]: the [except] clause and the [return]. *)
Definition finish (r : res unit) : res ref :=
  match r with
  | Ok _ w' => Ok (output_lines (self w')) w'
  | Raise e w' =>
      if (output_lines (self w') <? length (heap w'))%nat then
        Ok (output_lines (self w'))
           (mkWorld (self w')
                    (heap_append (output_lines (self w')) (u "[!] " ++ str_exn e) (heap w'))
                    (rng_pos w') (stdout w'))
      else Raise (AttributeError (u "'NoneType' object has no attribute 'append'")) w'
  | OutOfFuel => OutOfFuel
  end.

(** A list of output lines one of which [_call_function] would copy. *)
Definition visible (l : list pystr) : Prop :=
  exists i out, nth_error l i = Some out /\ startswith (u "[函]") out = false.

Definition loud (w : world) : Prop := visible (list_get (output_lines (self w)) w).

(** The list objects of [w] are in [w'], each with the lines it had and
    possibly more, and the output buffer is the same object. *)
Definition grows (w w' : world) : Prop :=
  output_lines (self w') = output_lines (self w)
  /\ (length (heap w) <= length (heap w'))%nat
  /\ forall r, (r < length (heap w))%nat ->
                exists more, nth r (heap w') [] = nth r (heap w) [] ++ more.

(** An attribute is left as it was. *)
Definition keeps {B} (f : HPSInterpreter -> B) (w w' : world) : Prop :=
  f (self w') = f (self w).

(** [m] returns or raises without any fuel, in a world related to the one
    it started in. *)
Definition preserves {A} (R : world -> world -> Prop) (m : M A) : Prop :=
  forall w, match m w with
            | Ok _ w' | Raise _ w' => R w w'
            | OutOfFuel => False
            end.

(** A text without the character [&], with which an arithmetic statement
    begins. *)
Definition plain_text (s : pystr) : bool := negb (existsb (N.eqb (ch "&")) s).

Definition plain_lines (l : list pystr) : bool := forallb plain_text l.

(** No arithmetic in the functions: no line of a stored body, and no line
    of the body at hand, holds that character. *)
Definition plain_state (s : HPSInterpreter) : bool :=
  forallb (fun kv => plain_lines (body (snd kv))) (functions s)
  && plain_lines (current_function_lines s).

(** The dispatcher gives the statement to [_call_function]. *)
Definition calls (l : pystr) (w : world) : bool :=
  negb (in_function (self w)) && re_is_call l.

(** The dispatcher gives the statement to [_handle_math]. *)
Definition evaluates (l : pystr) (w : world) : bool :=
  negb (in_function (self w)) && startswith (u "&A(") l.

(** Statements without [&] executed one after the other, none of them a
    reset. *)
Inductive exec_seq : world -> world -> Prop :=
| exec_seq_nil : forall w, exec_seq w w
| exec_seq_cons : forall fuel line show_prompt w r w1 w2,
    plain_text line = true ->
    str_eqb (strip line) (u "/reset") = false ->
    execute fuel line show_prompt w = Ok r w1 ->
    exec_seq w1 w2 ->
    exec_seq w w2.

(** What a draw loop of [n] draws from index [draw] leaves behind. *)
Definition draw_post (n : nat) (draw : Z) (w : world) (r : res for_exit) : Prop :=
  match r with
  | Ok e w' =>
      (rng_pos w' <= rng_pos w + n + 1)%nat /\
      match e with
      | Returned k =>
          draw <= k < draw + Z.of_nat n
          /\ pity_counter (self w') = 0
          /\ total_spent (self w') = total_spent (self w) + k * 160
      | Broke k =>
          draw <= k < draw + Z.of_nat n
          /\ pity_counter (self w') = pity_counter (self w) + (k - draw + 1)
          /\ total_spent (self w') = total_spent (self w)
      | Exhausted =>
          pity_counter (self w') = pity_counter (self w) + Z.of_nat n
          /\ total_spent (self w') = total_spent (self w)
      end
  | Raise _ w' =>
      (rng_pos w' <= rng_pos w + n + 1)%nat /\
      exists k, draw <= k < draw + Z.of_nat n
                /\ pity_counter (self w') = pity_counter (self w) + (k - draw + 1)
                /\ total_spent (self w') = total_spent (self w)
  | OutOfFuel => False
  end.

(** What the [for ... else] statement leaves behind. *)
Definition sequence_post (max_pity : Z) (w : world) (r : res for_exit) : Prop :=
  match r with
  | Ok e w' =>
      (rng_pos w' <= rng_pos w + Z.to_nat max_pity + 1)%nat /\
      match e with
      | Returned k =>
          1 <= k <= max_pity
          /\ pity_counter (self w') = 0
          /\ total_spent (self w') = total_spent (self w) + 160 * k
      | Broke k =>
          1 <= k <= max_pity
          /\ pity_counter (self w') = pity_counter (self w) + k
          /\ total_spent (self w') = total_spent (self w)
      | Exhausted =>
          pity_counter (self w') = 0
          /\ total_spent (self w') = total_spent (self w) + 160 * max_pity
      end
  | Raise _ w' =>
      (rng_pos w' <= rng_pos w + Z.to_nat max_pity + 1)%nat /\
      exists k, 1 <= k <= max_pity
                /\ pity_counter (self w') = pity_counter (self w) + k
                /\ total_spent (self w') = total_spent (self w)
  | OutOfFuel => False
  end.

(** A token: the mark, a non-empty run of word characters, and then the
    end of the text or a character that is not one. *)
Definition token_ends (post : pystr) : Prop :=
  match post with [] => True | c :: _ => is_word c = false end.

(** Lines given to [execute] one after the other, as the interactive
    shell does; [None] when one of them raises or gives no answer within the
    fuel. *)
Fixpoint execute_each (fuel : nat) (lines : list pystr) (w : world) : option world :=
  match lines with
  | [] => Some w
  | l :: ls =>
      match execute fuel l false w with
      | Ok _ w' => execute_each fuel ls w'
      | _ => None
      end
  end.

(** The percent literal as the specification words it: the first run of
    digits and points that a [/] follows. *)
Definition claimed_percent_literal (line : pystr) : option pystr :=
  re_search_number_slash [] line.

(** ** The interactive shell

    The methods that the class [HPSREPL] defines itself; which of them a
    typed line reaches is decided by [cmd.Cmd].  [self.interpreter] is the
    interpreter of the world.  A method that returns [True] ends the command
    loop. *)


Definition do_state : M unit :=
  s <- gets (fun s => s) ;; print (get_state s).

Definition do_reset : M unit :=
  reset ;; print (u "[✓] 已重置").

Definition do_exit : M bool := print (u "再见!") ;; ret true.

Definition emptyline : M unit := ret tt.


(** ** Vocabulary of the further properties *)

(** [l'] is [l] with more elements after it. *)
Definition extends {A} (l l' : list A) : Prop := exists more, l' = l ++ more.

(** Every key of [d] is a key of [d']. *)
Definition keys_kept {V} (d d' : dict V) : Prop :=
  forall k, dict_get k d <> None -> dict_get k d' <> None.

(** The output buffer is a list object of the store. *)
Definition valid_buffer (w : world) : Prop :=
  (output_lines (self w) < length (heap w))%nat.

(** Outside a definition the attributes of the definition at hand are the
    empty ones. *)
Definition scratch_clear (s : HPSInterpreter) : Prop :=
  in_function s = false ->
  current_function_name s = [] /\ current_function_params s = []
  /\ current_function_lines s = [].

(** What a statement that neither draws, defines a pool, assigns nor resets
    leaves as it was; functions may have been added. *)
Definition calm (w w' : world) : Prop :=
  variables (self w') = variables (self w) /\ pools (self w') = pools (self w)
  /\ currency (self w') = currency (self w) /\ inventory (self w') = inventory (self w)
  /\ pity_counter (self w') = pity_counter (self w)
  /\ total_spent (self w') = total_spent (self w)
  /\ rng_pos w' = rng_pos w
  /\ keys_kept (functions (self w)) (functions (self w')).

(** What a draw leaves as it was; the inventory may be longer. *)
Definition draw_effect (w w' : world) : Prop :=
  variables (self w') = variables (self w) /\ pools (self w') = pools (self w)
  /\ currency (self w') = currency (self w) /\ functions (self w') = functions (self w)
  /\ extends (inventory (self w)) (inventory (self w')).

(** What a pool definition leaves as it was; a pool may have been stored. *)
Definition pool_effect (w w' : world) : Prop :=
  variables (self w') = variables (self w) /\ currency (self w') = currency (self w)
  /\ inventory (self w') = inventory (self w)
  /\ pity_counter (self w') = pity_counter (self w)
  /\ total_spent (self w') = total_spent (self w)
  /\ functions (self w') = functions (self w)
  /\ rng_pos w' = rng_pos w
  /\ keys_kept (pools (self w)) (pools (self w')).

(** What an assignment leaves as it was; a variable of either namespace may
    have been stored. *)
Definition assign_effect (w w' : world) : Prop :=
  pools (self w') = pools (self w) /\ inventory (self w') = inventory (self w)
  /\ pity_counter (self w') = pity_counter (self w)
  /\ total_spent (self w') = total_spent (self w)
  /\ functions (self w') = functions (self w)
  /\ rng_pos w' = rng_pos w
  /\ keys_kept (variables (self w)) (variables (self w'))
  /\ keys_kept (currency (self w)) (currency (self w')).

(** What the statement [l] may have done, by its kind. *)
Definition statement_effect (l : pystr) (w w' : world) : Prop :=
  calm w w'
  \/ (startswith (u "<") l = true /\ draw_effect w w'
      /\ total_spent (self w) <= total_spent (self w'))
  \/ (startswith (u "(") l = true /\ pool_effect w w')
  \/ (startswith (u "#") l = true /\ assign_effect w w')
  \/ l = u "/reset".

(** The store only grew, the output buffer is the same object, no
    definition was begun or ended and nothing was printed. *)
Definition tidy (w w' : world) : Prop :=
  grows w w'
  /\ in_function (self w') = in_function (self w)
  /\ current_function_name (self w') = current_function_name (self w)
  /\ current_function_params (self w') = current_function_params (self w)
  /\ current_function_lines (self w') = current_function_lines (self w)
  /\ stdout w' = stdout w.

(** Nothing was printed, and the attributes of a definition are still the
    empty ones outside a definition if they were. *)
Definition steady (w w' : world) : Prop :=
  stdout w' = stdout w /\ (scratch_clear (self w) -> scratch_clear (self w')).

(** What one dispatched statement does. *)
Definition line_outcome (l : pystr) (w : world) (r : res unit) : Prop :=
  match r with
  | Ok _ w' => statement_effect l w w' /\ steady w w' /\ (calm w w' \/ loud w')
  | Raise _ w' => statement_effect l w w' /\ steady w w' /\ valid_buffer w'
  | OutOfFuel => calls l w = true
  end.

(** The functions and the body at hand are left as they were. *)
Definition defs_kept (w w' : world) : Prop :=
  functions (self w') = functions (self w)
  /\ current_function_lines (self w') = current_function_lines (self w).

(** What [_call_function] needs of the [execute] it calls, where no
    arithmetic is met: a body line that did more than a calm statement
    returned the output buffer with a line to copy. *)
Definition tame (exec : pystr -> M ref) : Prop :=
  forall l w,
    plain_text l = true -> plain_state (self w) = true ->
    match exec l w with
    | Ok r w' =>
        statement_effect (strip l) w w' /\ steady w w'
        /\ (if is_empty (strip l) then list_get r w' = []
            else r = output_lines (self w'))
        /\ (calm w w' \/ (r = output_lines (self w') /\ loud w'))
        /\ plain_state (self w') = true
    | Raise _ _ => False
    | OutOfFuel => True
    end.

(** No item left the inventory and no name left a namespace. *)
Definition evolves (w w' : world) : Prop :=
  extends (inventory (self w)) (inventory (self w'))
  /\ keys_kept (pools (self w)) (pools (self w'))
  /\ keys_kept (functions (self w)) (functions (self w'))
  /\ keys_kept (variables (self w)) (variables (self w'))
  /\ keys_kept (currency (self w)) (currency (self w')).

(** The parameters that a definition header declares. *)
Definition header_params (ps : pystr) : list pystr :=
  if is_empty (strip ps) then [] else map strip (split (ch ",") (strip ps)).

(** The arguments of a call. *)
Definition call_args (g2 : pystr) : list pystr :=
  if is_empty (strip g2) then [] else map strip (split (ch ",") (strip g2)).





End Interpreter.

(** [HPSInterpreter()]: the state after [__init__]. *)
Definition new_interpreter : world :=
  mkWorld (mkHPS [] [] [] [] 0 0 [] O false [] [] []) [[]] O [].

(** ** A host for running examples

    [sample_host tape] stands in for CPython on the inputs of the examples
    of this file.  Above Latin-1 it knows the CJK ideographs U+4E00-U+9FFF,
    the full-width digits and the Unicode spaces, and takes every other
    character for a printable symbol; [float] reads signed decimal literals
    without exponent; [repr] of a float is the shortest text that reads back
    as the same float; [eval] raises on every text.  The theorems of this
    file hold for every host. *)

Definition sample_alnum (c : char) : bool :=
  ((19968 <=? c) && (c <=? 40959) || (65296 <=? c) && (c <=? 65305))%N.

Definition sample_decimal (c : char) : option N :=
  if ((65296 <=? c) && (c <=? 65305))%N then Some (c - 65296)%N else None.

Definition sample_space (c : char) : bool :=
  ((c =? 5760) || (8192 <=? c) && (c <=? 8202) || (c =? 8232) || (c =? 8233)
   || (c =? 8239) || (c =? 8287) || (c =? 12288))%N.

(** The digits of a literal: the number they spell, how many of them stand
    after the point, whether a point and whether a digit was met. *)
Fixpoint scan_decimal (s : pystr) (m : N) (k : nat) (dot seen : bool)
  : option (N * nat * bool) :=
  match s with
  | [] => Some (m, k, seen)
  | c :: s' =>
      if ((48 <=? c) && (c <=? 57))%N
      then scan_decimal s' (m * 10 + (c - 48))%N (if dot then S k else k) dot true
      else if ((65296 <=? c) && (c <=? 65305))%N
      then scan_decimal s' (m * 10 + (c - 65296))%N (if dot then S k else k) dot true
      else if (c =? 46)%N then (if dot then None else scan_decimal s' m k true seen)
      else None
  end.

Definition sample_float (s : pystr) : option float :=
  let s := dropwhile (fun c => latin1_space c || sample_space c)
             (rev (dropwhile (fun c => latin1_space c || sample_space c) (rev s))) in
  let '(neg, digits) :=
    match s with
    | c :: s' => if (c =? 45)%N then (true, s') else if (c =? 43)%N then (false, s') else (false, s)
    | [] => (false, s)
    end in
  match scan_decimal digits 0 0 false false with
  | Some (m, k, true) =>
      Some (if neg then SFopp (float_of_decimal m k) else float_of_decimal m k)
  | _ => None
  end.

(** [num / den < 10 ^ n] *)
Definition below_pow10 (num den n : Z) : bool :=
  if 0 <=? n then num <? den * 10 ^ n else num * 10 ^ (- n) <? den.

(** The least [n] from [n0] on with [num / den < 10 ^ n], within [k] steps. *)
Fixpoint decimal_point_from (k : nat) (num den n0 : Z) : Z :=
  match k with
  | O => n0
  | S k' => if below_pow10 num den n0 then n0 else decimal_point_from k' num den (n0 + 1)
  end.

(** The position of the decimal point of [num / den]: the [n] with
    [10 ^ (n-1) <= num / den < 10 ^ n]. *)
Definition decimal_point (num den : Z) : Z :=
  decimal_point_from 8 num den ((Z.log2 num - Z.log2 den) * 30103 / 100000 - 2).

(** The float nearest to [r * 10 ^ p]. *)
Definition float_of_scaled (r p : Z) : float :=
  if 0 <=? p then float_of_Z (r * 10 ^ p) else float_of_decimal (Z.to_N r) (Z.to_nat (- p)).

Definition same_float (x y : float) : bool :=
  match x, y with
  | S754_finite sx mx ex, S754_finite sy my ey => Bool.eqb sx sy && (mx =? my)%positive && (ex =? ey)
  | _, _ => false
  end.

(** The shortest digits that read back as [x = num / den], with at most
    [k] more digits than [digits]: the digits as a number and the position
    of the decimal point. *)
Fixpoint shortest_digits (k : nat) (digits : Z) (x : float) (num den n : Z) : Z * Z :=
  match k with
  | O => (0, n)
  | S k' =>
      let p := n - digits in
      let '(snum, sden) := if 0 <=? p then (num, den * 10 ^ p) else (num * 10 ^ (- p), den) in
      let lo := snum / sden in
      let rem := snum mod sden in
      let hi := lo + 1 in
      let ok_lo := same_float (float_of_scaled lo p) x in
      let ok_hi := same_float (float_of_scaled hi p) x in
      let pick_hi := (2 * rem >? sden) || ((2 * rem =? sden) && Z.odd lo) in
      if ok_lo && ok_hi then (if pick_hi then (hi, p) else (lo, p))
      else if ok_lo then (lo, p)
      else if ok_hi then (hi, p)
      else shortest_digits k' (digits + 1) x num den n
  end.

Fixpoint strip_zeros (fuel : nat) (r p : Z) : Z * Z :=
  match fuel with
  | O => (r, p)
  | S f => if (r mod 10 =? 0) && negb (r =? 0) then strip_zeros f (r / 10) (p + 1) else (r, p)
  end.

Definition zeros (n : Z) : pystr := repeat 48%N (Z.to_nat n).

(** [repr] of a positive finite float. *)
Definition repr_positive (x : float) (m : positive) (e : Z) : pystr :=
  let '(num, den) := if 0 <=? e then (Zpos m * 2 ^ e, 1) else (Zpos m, 2 ^ (- e)) in
  let n := decimal_point num den in
  let '(r0, p0) := shortest_digits 17 1 x num den n in
  let '(r, p) := strip_zeros 20 r0 p0 in
  let ds := str_of_Z r in
  let k := Z.of_nat (length ds) in
  let decpt := k + p in
  if (decpt <=? -4) || (16 <? decpt) then
    let ex := decpt - 1 in
    let mant := match ds with
                | d :: ((_ :: _) as rest) => d :: 46%N :: rest
                | _ => ds
                end in
    let exs := str_of_Z (Z.abs ex) in
    mant ++ u "e" ++ (if ex <? 0 then u "-" else u "+")
         ++ (if Z.abs ex <? 10 then 48%N :: exs else exs)
  else if decpt <=? 0 then u "0." ++ zeros (- decpt) ++ ds
  else if k <=? decpt then ds ++ zeros (decpt - k) ++ u ".0"
  else firstn (Z.to_nat decpt) ds ++ 46%N :: skipn (Z.to_nat decpt) ds.

Definition sample_repr_float (x : float) : pystr :=
  match x with
  | S754_zero sg => if sg then u "-0.0" else u "0.0"
  | S754_infinity sg => if sg then u "-inf" else u "inf"
  | S754_nan => u "nan"
  | S754_finite sg m e =>
      (if sg then u "-" else []) ++ repr_positive (S754_finite false m e) m e
  end.

Definition hex_digit (n : N) : char := if (n <? 10)%N then (48 + n)%N else (87 + n)%N.

Definition sample_repr_char (quote : char) (c : char) : pystr :=
  if (c =? 92)%N then [92; 92]%N
  else if (c =? quote)%N then [92%N; c]
  else if (c =? 10)%N then u "\n"
  else if (c =? 13)%N then u "\r"
  else if (c =? 9)%N then u "\t"
  else if ((c <? 32) || (127 <=? c) && (c <=? 160) || (c =? 173))%N
  then [92; 120; hex_digit (c / 16); hex_digit (c mod 16)]%N
  else if sample_space c
  then [92; 117; hex_digit (c / 4096); hex_digit (c / 256 mod 16); hex_digit (c / 16 mod 16);
        hex_digit (c mod 16)]%N
  else [c].

Definition sample_repr_str (s : pystr) : pystr :=
  let quote : char :=
    if existsb (N.eqb 39) s && negb (existsb (N.eqb 34) s) then 34%N else 39%N in
  quote :: flat_map (sample_repr_char quote) s ++ [quote].

Definition sample_host (tape : nat -> N) : Host :=
  {| uni_alnum := sample_alnum;
     uni_decimal := sample_decimal;
     uni_space := sample_space;
     py_float := sample_float;
     repr_float := sample_repr_float;
     repr_str := sample_repr_str;
     py_eval_2f := fun _ => raise (ValueError (u "eval"));
     random_tape := tape |}.

(** The lines a computation returned, read in its final store. *)
Definition returned_lines (r : res ref) : option (list pystr) :=
  match r with
  | Ok o w => Some (list_get o w)
  | _ => None
  end.

Definition final_world {A} (r : res A) : option world :=
  match r with
  | Ok _ w => Some w
  | Raise _ w => Some w
  | OutOfFuel => None
  end.

(** The random source that always yields 0: every attempt drops, and the
    first item is chosen. *)
Definition demo_host : Host := sample_host (fun _ => 0%N).

(** The random source that always yields the largest sample: no attempt
    drops below a probability of 1. *)
Definition dry_host : Host := sample_host (fun _ => (2 ^ 53 - 1)%N).





(** The world after a script, from a new interpreter. *)
Definition world_after_script (h : Host) (code : string) : world :=
  match @run_script h 1 (u code) false new_interpreter with
  | Ok _ w | Raise _ w => w
  | OutOfFuel => new_interpreter
  end.

(** A pool whose only item is [B], which drops at every attempt. *)
Definition pool_B_world : world :=
  Eval vm_compute in world_after_script demo_host "(100/:$B)#UP".

(** A pool of [A] and [B] at 0.6 percent. *)
Definition pool_AB_world : world :=
  Eval vm_compute in world_after_script demo_host "(0.6/:$A,$B)#UP".

(** A function [f] whose body is one comment line. *)
Definition fun_hi_world : world :=
  Eval vm_compute in world_after_script demo_host "¢.f()
¢ hi
¢.End".

(** A function [f] whose body is one empty comment. *)
Definition fun_quiet_world : world :=
  Eval vm_compute in world_after_script demo_host "¢.f()
¢
¢.End".

(** The name [a] in both namespaces. *)
Definition shadow_world : world :=
  Eval vm_compute in world_after_script demo_host "#a = 5
#a = ¥7".

(** A function definition that was begun and not ended. *)
Definition collecting_world : world :=
  Eval vm_compute in world_after_script demo_host "¢.f()".


(** A function [f] of one parameter whose body prints it. *)
Definition fun_out_world : world :=
  Eval vm_compute in world_after_script demo_host "¢.f(a)
¢,#a
¢.End".

(** A function [f] without a body. *)
Definition fun_empty_world : world :=
  Eval vm_compute in world_after_script demo_host "¢.f()
¢.End".


(** A computation that gives no answer, whatever the fuel. *)
Definition never_returns {A} (m : nat -> res A) : Prop :=
  forall fuel, m fuel = OutOfFuel.

(** Evaluates the string literals of the goal. *)
Ltac eval_u :=
  repeat match goal with
         | |- context [u ?s] =>
             let v := eval vm_compute in (u s) in change (u s) with v
         | |- context [ch ?s] =>
             let v := eval vm_compute in (ch s) in change (ch s) with v
         end.

(** Relations that computations are followed along. *)
Class Invariant (R : world -> world -> Prop) : Prop := {
  inv_refl : forall w, R w w;
  inv_trans : forall a b c, R a b -> R b c -> R a c
}.

(** * Properties *)

Section Properties.
Context {H : Host}.

(** ** Strings *)

Lemma str_eqb_refl : forall a, str_eqb a a = true.
Proof.
  induction a as [|c a IH]; simpl; [reflexivity|].
  now rewrite N.eqb_refl.
Qed.

Lemma str_eqb_eq : forall a b, str_eqb a b = true -> a = b.
Proof.
  induction a as [|c a IH]; destruct b as [|d b]; simpl; try discriminate; auto.
  intro E. apply andb_prop in E as [E1 E2].
  apply N.eqb_eq in E1. subst d. f_equal. auto.
Qed.

Lemma startswith_cons_inv :
  forall c p s, startswith (c :: p) s = true ->
                exists s', s = c :: s' /\ startswith p s' = true.
Proof.
  intros c p [|d s]; simpl; [discriminate|].
  intro E. apply andb_prop in E as [E1 E2]. apply N.eqb_eq in E1. subst d. eauto.
Qed.

Lemma def_marker_prefix :
  forall l, startswith (u "¢.") l = true ->
            startswith (u "¢,") l = false /\ startswith (u "¢") l = true.
Proof.
  intros l. eval_u. intro E.
  apply startswith_cons_inv in E as (l1 & -> & E).
  apply startswith_cons_inv in E as (l2 & -> & _).
  split; reflexivity.
Qed.

(** ** The store of list objects *)

Lemma heap_append_length : forall h r x, length (heap_append r x h) = length h.
Proof.
  induction h as [|l h IH]; intros [|r] x; simpl; auto.
Qed.

Lemma heap_append_same :
  forall h r x, (r < length h)%nat -> nth r (heap_append r x h) [] = nth r h [] ++ [x].
Proof.
  induction h as [|l h IH]; intros [|r] x L; simpl in *; try lia; auto.
  apply IH. lia.
Qed.

Lemma heap_append_nth :
  forall h r r' x, exists more, nth r' (heap_append r x h) [] = nth r' h [] ++ more.
Proof.
  induction h as [|l h IH]; intros r r' x.
  - exists []. destruct r, r'; reflexivity.
  - destruct r as [|r], r' as [|r']; simpl.
    + now exists [x].
    + exists []. now rewrite app_nil_r.
    + exists []. now rewrite app_nil_r.
    + apply IH.
Qed.

(** ** Computations that keep a relation *)

Section Preserves.
Context {R : world -> world -> Prop} `{!Invariant R}.

Lemma preserves_ret : forall A (a : A), preserves R (ret a).
Proof. intros A a w. apply inv_refl. Qed.

Lemma preserves_raise : forall A e, preserves R (@raise A e).
Proof. intros A e w. apply inv_refl. Qed.

Lemma preserves_gets : forall A (f : HPSInterpreter -> A), preserves R (gets f).
Proof. intros A f w. apply inv_refl. Qed.

Lemma preserves_bind :
  forall A B (m : M A) (k : A -> M B),
    preserves R m -> (forall a, preserves R (k a)) -> preserves R (bind m k).
Proof.
  intros A B m k Hm Hk w. unfold bind. specialize (Hm w).
  destruct (m w) as [a w1|e w1|]; auto.
  specialize (Hk a w1). destruct (k a w1); auto; eapply inv_trans; eauto.
Qed.

Lemma preserves_try :
  forall A (m : M A) h,
    preserves R m -> (forall e, preserves R (h e)) -> preserves R (try_except m h).
Proof.
  intros A m h Hm Hh w. unfold try_except. specialize (Hm w).
  destruct (m w) as [a w1|e w1|]; auto.
  specialize (Hh e w1). destruct (h e w1); auto; eapply inv_trans; eauto.
Qed.

Lemma preserves_modify :
  forall g, (forall w, R w (mkWorld (g (self w)) (heap w) (rng_pos w) (stdout w))) ->
            preserves R (modify g).
Proof. intros g Hg w. apply Hg. Qed.

Lemma preserves_list_append :
  forall r x,
    (forall w, R w (mkWorld (self w) (heap_append r x (heap w)) (rng_pos w) (stdout w))) ->
    preserves R (list_append r x).
Proof. intros r x Hg w. apply Hg. Qed.

Lemma preserves_print :
  forall x, (forall w, R w (mkWorld (self w) (heap w) (rng_pos w) (stdout w ++ [x]))) ->
            preserves R (print x).
Proof. intros x Hg w. apply Hg. Qed.

Lemma preserves_new_list :
  (forall w, R w (mkWorld (self w) (heap w ++ [[]]) (rng_pos w) (stdout w))) ->
  preserves R new_list.
Proof. intros Hg w. apply Hg. Qed.

Lemma preserves_next_random :
  (forall w, R w (mkWorld (self w) (heap w) (S (rng_pos w)) (stdout w))) ->
  preserves R next_random.
Proof. intros Hg w. apply Hg. Qed.

End Preserves.

(** Follows a computation step by step; [prim] proves the relation for a
    primitive step. *)
Ltac pres prim :=
  repeat first
    [ apply preserves_ret | apply preserves_raise | apply preserves_gets
    | apply preserves_bind; [ | intro ]
    | apply preserves_try; [ | intro ]
    | apply preserves_modify; intro; prim
    | apply preserves_list_append; intro; prim
    | apply preserves_print; intro; prim
    | apply preserves_new_list; intro; prim
    | apply preserves_next_random; intro; prim
    | match goal with
      | |- preserves _ (match ?x with _ => _ end) => destruct x
      | |- preserves _ (if ?x then _ else _) => destruct x
      end
    | progress unfold emit, lift, random_random, random_choice, float_or_raise ].

#[local] Instance keeps_invariant {B} (f : HPSInterpreter -> B) : Invariant (keeps f).
Proof.
  split; unfold keeps; [reflexivity | intros a b c E1 E2; now rewrite E2].
Qed.

#[local] Instance grows_invariant : Invariant grows.
Proof.
  split.
  - intro w. repeat split; auto. intros r _. exists []. now rewrite app_nil_r.
  - intros a b c (E1 & L1 & G1) (E2 & L2 & G2). repeat split; try congruence; try lia.
    intros r L. destruct (G1 r L) as (m1 & M1).
    destruct (G2 r ltac:(lia)) as (m2 & M2).
    exists (m1 ++ m2). now rewrite M2, M1, app_assoc.
Qed.

Ltac keeps_prim := reflexivity.

Ltac grows_prim :=
  repeat split; cbn [self heap];
  [ rewrite ?heap_append_length, ?length_app; lia
  | intros ? ?; first [ apply heap_append_nth
                      | eexists []; rewrite app_nil_r; rewrite ?app_nth1 by assumption; reflexivity ] ].

(** Runs the primitive steps of a computation on the world at hand. *)
Ltac run_m :=
  unfold emit, random_random, random_choice, float_or_raise, lift;
  unfold bind, ret, raise, gets, modify, list_append, new_list, print, next_random, try_except;
  cbn [self heap rng_pos stdout
       variables pools currency inventory pity_counter total_spent functions output_lines
       in_function current_function_lines current_function_name current_function_params
       set_variables set_pools set_currency set_inventory set_pity_counter set_total_spent
       set_functions set_output_lines set_in_function set_current_function_lines
       set_current_function_name set_current_function_params].

(** ** The draw loop *)

Lemma draw_loop_spec :
  forall n draw max_pity target pool w,
    draw_post n draw w (draw_loop n draw max_pity target pool w).
Proof.
  induction n as [|n IH]; intros draw max_pity target pool w.
  - cbn. split; [lia|split; [lia|reflexivity]].
  - cbn [draw_loop]. unfold bind at 1. cbn [modify].
    unfold bind at 1. cbn [gets self pity_counter set_pity_counter].
    unfold bind at 1. unfold lift.
    destruct (attempt_prob (total_prob pool) (pity_counter (self w) + 1)) as [e|p].
    + unfold draw_post, raise. cbn [self rng_pos pity_counter total_spent set_pity_counter].
      split; [lia|]. exists draw. repeat split; lia.
    + cbn [ret]. unfold bind at 1. unfold random_random, next_random, bind at 1.
      cbn [ret self heap rng_pos stdout].
      destruct (flt _ p).
      * unfold random_choice. destruct (items pool) as [|it its].
        { unfold draw_post, raise, bind.
          cbn [self rng_pos pity_counter total_spent set_pity_counter].
          split; [lia|]. exists draw. repeat split; lia. }
        unfold draw_post. run_m.
        repeat (match goal with
                | |- context [if ?c then _ else _] => destruct c
                end; run_m);
          (split; [lia|repeat split; lia]).
      * specialize (IH (draw + 1) max_pity target pool
                       (mkWorld (set_pity_counter (pity_counter (self w) + 1) (self w))
                                (heap w) (S (rng_pos w)) (stdout w))).
        unfold draw_post in *.
        destruct (draw_loop n (draw + 1) max_pity target pool _) as [e w'|e w'|]; [| |exact IH].
        { cbn [self rng_pos pity_counter total_spent set_pity_counter] in IH.
          destruct IH as [Hr He]. split; [lia|].
          destruct e; intuition lia. }
        { cbn [self rng_pos pity_counter total_spent set_pity_counter] in IH.
          destruct IH as [Hr (k & Hk)]. split; [lia|]. exists k. intuition lia. }
Qed.

Lemma draw_loop_grows :
  forall n draw max_pity target pool,
    preserves grows (draw_loop n draw max_pity target pool).
Proof.
  induction n as [|n IH]; intros; cbn [draw_loop]; pres grows_prim.
  apply IH.
Qed.

Lemma draw_sequence_spec :
  forall max_pity target pool w,
    sequence_post max_pity w (draw_sequence max_pity target pool w).
Proof.
  intros max_pity target pool w. unfold draw_sequence, bind at 1.
  pose proof (draw_loop_spec (Z.to_nat max_pity) 1 max_pity target pool w) as L.
  unfold draw_post in L.
  destruct (draw_loop _ 1 max_pity target pool w) as [e w'|e w'|]; [| |exact L].
  - destruct L as [Hr He]. destruct e as [k|k|]; unfold sequence_post; run_m.
    + split; [lia|]. intuition lia.
    + split; [lia|]. intuition lia.
    + split; [lia|]. intuition lia.
  - destruct L as [Hr (k & Hk)]. unfold sequence_post. split; [lia|].
    exists k. intuition lia.
Qed.

Lemma draw_sequence_grows :
  forall max_pity target pool, preserves grows (draw_sequence max_pity target pool).
Proof.
  intros. unfold draw_sequence. apply preserves_bind; [apply draw_loop_grows|].
  intros [k|k|]; pres grows_prim.
Qed.

Lemma digit_val_nonneg : forall c, 0 <= digit_val c.
Proof.
  intro c. unfold digit_val. destruct (c <? 256)%N; [lia|].
  destruct (uni_decimal c); lia.
Qed.

Lemma int_of_digits_nonneg : forall s, 0 <= int_of_digits s.
Proof.
  intro s. unfold int_of_digits.
  assert (G : forall s acc, 0 <= acc ->
                0 <= fold_left (fun a c => a * 10 + digit_val c) s acc).
  { induction s0 as [|c s0 IH]; intros acc Ha; simpl; [assumption|].
    apply IH. pose proof (digit_val_nonneg c). lia. }
  apply G. lia.
Qed.

Lemma parse_max_pity_nonneg : forall line, 0 <= parse_max_pity line.
Proof.
  intro line. unfold parse_max_pity.
  destruct (re_search_digits _ line); [apply int_of_digits_nonneg | lia].
Qed.

(** What [_execute_target] leaves behind, whatever the line. *)
Lemma execute_target_spec :
  forall line w,
    match _execute_target line w with
    | Ok e w' => sequence_post (parse_max_pity line) w (Ok e w')
    | Raise e w' =>
        (rng_pos w' <= rng_pos w + Z.to_nat (parse_max_pity line) + 1)%nat
        /\ total_spent (self w') = total_spent (self w)
    | OutOfFuel => False
    end.
Proof.
  intros line w. unfold _execute_target.
  destruct (re_search_tok (ch "$") line) as [[target rest]|]; [|run_m; split; [lia|reflexivity]].
  unfold bind at 1. cbn [gets].
  destruct (re_search_tok (ch "#") line) as [[pname rest']|]; [|run_m; split; [lia|reflexivity]].
  destruct (dict_get pname (pools (self w))) as [pool|]; [|run_m; split; [lia|reflexivity]].
  unfold bind at 1. unfold emit, bind at 1. cbn [gets list_append].
  match goal with
  | |- context [draw_sequence ?m ?t ?p ?w1] =>
      pose proof (draw_sequence_spec m t p w1) as L; destruct (draw_sequence m t p w1)
  end; cbn [sequence_post self rng_pos] in *.
  - exact L.
  - destruct L as [Hr (k & _ & _ & Hk)]. split; [exact Hr|exact Hk].
  - exact L.
Qed.

(** C1 (as amended): after a draw on a defined pool, [pity_counter] is 0
    when the target was hit or the cap exhausted; a drop of another item at
    draw [k], or an attempt that raises at draw [k], leaves it [k] above its
    value before the draw. *)
Theorem C1_pity_counter_after_draw :
  forall line w target rest pname rest' pool,
    re_search_tok (ch "$") line = Some (target, rest) ->
    re_search_tok (ch "#") line = Some (pname, rest') ->
    dict_get pname (pools (self w)) = Some pool ->
    match _execute_target line w with
    | Ok (Returned k) w' =>
        1 <= k <= parse_max_pity line /\ pity_counter (self w') = 0
    | Ok Exhausted w' => pity_counter (self w') = 0
    | Ok (Broke k) w' =>
        1 <= k <= parse_max_pity line
        /\ pity_counter (self w') = pity_counter (self w) + k
    | Raise _ w' =>
        exists k, 1 <= k <= parse_max_pity line
                  /\ pity_counter (self w') = pity_counter (self w) + k
    | OutOfFuel => False
    end.
Proof.
  intros line w target rest pname rest' pool Ht Hp Hd.
  unfold _execute_target. rewrite Ht. unfold bind at 1. cbn [gets].
  rewrite Hp, Hd. unfold bind at 1. unfold emit, bind at 1. cbn [gets list_append].
  match goal with
  | |- context [draw_sequence ?m ?t ?p ?w1] =>
      pose proof (draw_sequence_spec m t p w1) as L; destruct (draw_sequence m t p w1) as [e w'|e w'|]
  end; cbn [sequence_post self rng_pos pity_counter] in *.
  - destruct L as [_ L]. destruct e; intuition.
  - destruct L as [_ (k & Hk)]. exists k. intuition.
  - exact L.
Qed.

(** ** Function calls: the output-copying loop *)

Lemma nth_error_list_get_valid :
  forall r w i out, nth_error (list_get r w) i = Some out -> (r < length (heap w))%nat.
Proof.
  intros r w i out E. unfold list_get in E.
  destruct (Nat.lt_ge_cases r (length (heap w))) as [L|G]; [assumption|].
  rewrite nth_overflow in E by assumption. destruct i; discriminate.
Qed.

Lemma loud_grows : forall w w', loud w -> grows w w' -> loud w'.
Proof.
  intros w w' (i & out & E & V) (Eo & _ & G). unfold loud, visible.
  pose proof (nth_error_list_get_valid _ _ _ _ E) as L.
  destruct (G _ L) as (more & M). exists i, out. split; [|exact V].
  unfold list_get in *. rewrite Eo, M.
  rewrite nth_error_app1; [exact E|]. apply nth_error_Some. rewrite E. discriminate.
Qed.

(** The loop of [_call_function] over the list it appends to never ends
    once a line to copy lies ahead. *)
Lemma copy_outputs_diverges :
  forall fuel r i w,
    r = output_lines (self w) ->
    (exists j out, (i <= j)%nat /\ nth_error (list_get r w) j = Some out
                   /\ startswith (u "[函]") out = false) ->
    copy_outputs fuel r i w = OutOfFuel.
Proof.
  induction fuel as [|fuel IH]; intros r i w Er (j & out & Hij & Hj & Hv); [reflexivity|].
  cbn [copy_outputs].
  destruct (nth_error (list_get r w) i) as [o|] eqn:E.
  - pose proof (nth_error_list_get_valid _ _ _ _ E) as L.
    destruct (startswith (u "[函]") o) eqn:Es; cbn [negb]; run_m.
    + apply IH; [assumption|]. exists j, out. repeat split; try assumption.
      destruct (Nat.eq_dec i j) as [->|]; [congruence|lia].
    + subst r. apply IH; [reflexivity|].
      exists (length (list_get (output_lines (self w)) w)), (u "  " ++ o).
      assert (Li : (i < length (list_get (output_lines (self w)) w))%nat).
      { apply nth_error_Some. rewrite E. discriminate. }
      split; [lia|split; [|reflexivity]].
      unfold list_get in *. cbn [heap]. rewrite heap_append_same by assumption.
      rewrite nth_error_app2 by lia. now rewrite Nat.sub_diag.
  - exfalso. apply nth_error_None in E.
    assert (nth_error (list_get r w) j = None) by (apply nth_error_None; lia).
    congruence.
Qed.

(** ** One statement *)

Lemma execute_target_loud :
  forall line w,
    (output_lines (self w) < length (heap w))%nat ->
    match _execute_target line w with
    | Ok _ w' => loud w'
    | _ => True
    end.
Proof.
  intros line w L. unfold _execute_target.
  destruct (re_search_tok (ch "$") line) as [[target rest]|]; [|exact I].
  unfold bind at 1. cbn [gets].
  destruct (re_search_tok (ch "#") line) as [[pname rest']|]; [|exact I].
  destruct (dict_get pname (pools (self w))) as [pool|]; [|exact I].
  unfold bind at 1. unfold emit, bind at 1. cbn [gets list_append].
  match goal with
  | |- context [draw_sequence ?m ?t ?p ?w1] =>
      pose proof (draw_sequence_grows m t p w1) as G;
      assert (Lw : loud w1); [|destruct (draw_sequence m t p w1); auto]
  end.
  - unfold loud, visible, list_get. cbn [self heap].
    rewrite heap_append_same by assumption.
    eexists (length (nth (output_lines (self w)) (heap w) [])), _.
    split; [rewrite nth_error_app2 by lia; rewrite Nat.sub_diag; reflexivity|].
    reflexivity.
  - eapply loud_grows; eauto.
Qed.

(** ** [execute] *)

Lemma execute_nonempty :
  forall n line show_prompt w,
    is_empty (strip line) = false ->
    execute (S n) line show_prompt w =
    finish (_execute_line (fun l => execute n l false) n (strip line)
              (prompted show_prompt (strip line) (fresh_buffer w))).
Proof.
  intros n line show_prompt w E.
  cbn [execute]. unfold execute_with, bind, new_list, modify, gets, try_except.
  cbn [self heap rng_pos stdout]. rewrite E.
  unfold prompted, fresh_buffer, finish, emit_or_raise, emit, list_append, bind, gets.
  cbn [self in_function set_output_lines].
  destruct (show_prompt && negb (in_function (self w))); unfold print, ret;
    cbn [self heap rng_pos stdout];
    match goal with
    | |- context [_execute_line ?a ?b ?c ?d] =>
        destruct (_execute_line a b c d) as [? w1|? w1|]
    end; try reflexivity;
    destruct (output_lines (self w1) <? length (heap w1))%nat; reflexivity.
Qed.

(** The [except] clause of [execute] when the buffer is a list. *)
Lemma finish_raise :
  forall e w',
    (output_lines (self w') < length (heap w'))%nat ->
    finish (Raise e w')
    = Ok (output_lines (self w'))
         (mkWorld (self w')
                  (heap_append (output_lines (self w')) (u "[!] " ++ str_exn e) (heap w'))
                  (rng_pos w') (stdout w')).
Proof.
  intros e w' L. cbn [finish]. apply Nat.ltb_lt in L. now rewrite L.
Qed.

Lemma execute_empty :
  forall n line show_prompt w,
    is_empty (strip line) = true ->
    execute (S n) line show_prompt w =
    Ok (S (length (heap w)))
       (mkWorld (set_output_lines (length (heap w)) (self w)) ((heap w ++ [[]]) ++ [[]])
                (rng_pos w) (stdout w)).
Proof.
  intros n line show_prompt w E.
  cbn [execute]. unfold execute_with, bind, new_list, modify, gets.
  cbn [self heap rng_pos stdout]. rewrite E. cbn [self heap rng_pos stdout].
  rewrite length_app. cbn [length]. now rewrite Nat.add_1_r.
Qed.

Lemma self_prompted : forall b l w, self (prompted b l w) = self w.
Proof. intros. unfold prompted. now destruct (b && _). Qed.

Lemma heap_prompted : forall b l w, heap (prompted b l w) = heap w.
Proof. intros. unfold prompted. now destruct (b && _). Qed.

Lemma rng_prompted : forall b l w, rng_pos (prompted b l w) = rng_pos w.
Proof. intros. unfold prompted. now destruct (b && _). Qed.

Lemma fresh_buffer_valid :
  forall b l w,
    (output_lines (self (prompted b l (fresh_buffer w)))
     < length (heap (prompted b l (fresh_buffer w))))%nat.
Proof.
  intros. rewrite self_prompted, heap_prompted. unfold fresh_buffer.
  cbn [self heap output_lines set_output_lines]. rewrite length_app. cbn. lia.
Qed.

Lemma visible_snoc : forall l x, visible l -> visible (l ++ [x]).
Proof.
  intros l x (i & out & E & V). exists i, out. split; [|exact V].
  rewrite nth_error_app1; [exact E|]. apply nth_error_Some. rewrite E. discriminate.
Qed.

(** ** The soft-pity probability *)

Lemma fmul_comm : forall x y, fmul x y = fmul y x.
Proof.
  intros [sx|sx| |sx mx ex] [sy|sy| |sy my ey]; unfold fmul; cbn [SFmul];
    rewrite ?(xorb_comm sx sy); try reflexivity.
  now rewrite (Pos.mul_comm mx my), (Z.add_comm ex ey).
Qed.

(** C5: the probability an attempt is decided with is the pool's below and
    at a counter of 70, and min(1.0, base + 0.02*d) at 70+d; the loop
    compares the random sample with it, going on to the next draw when the
    sample is not below it and ending with a drop when it is. *)
Theorem C5_effective_probability :
  forall base pity,
    (pity <= 70 -> attempt_prob base pity = inr base)
    /\ (forall d, 0 < d -> pity = 70 + d ->
          attempt_prob base pity =
          match int_to_float d with
          | inl e => inl e
          | inr x => inr (py_min f1_0 (fadd base (fmul f0_02 x)))
          end)
    /\ (forall n draw max_pity target pool w p,
          total_prob pool = base -> pity_counter (self w) + 1 = pity ->
          attempt_prob base pity = inr p ->
          let w1 := mkWorld (set_pity_counter pity (self w)) (heap w) (S (rng_pos w))
                            (stdout w) in
          if flt (random_float (random_tape (rng_pos w))) p
          then match draw_loop (S n) draw max_pity target pool w with
               | Ok (Returned k) _ | Ok (Broke k) _ => k = draw
               | Ok Exhausted _ => False
               | Raise _ _ => items pool = []
               | OutOfFuel => False
               end
          else draw_loop (S n) draw max_pity target pool w
               = draw_loop n (draw + 1) max_pity target pool w1).
Proof.
  intros base pity. split; [|split].
  - intro Hle. unfold attempt_prob.
    destruct (pity >? 70) eqn:E; [|reflexivity]. apply Z.gtb_lt in E. lia.
  - intros d Hd ->. unfold attempt_prob.
    replace (70 + d >? 70) with true by (symmetry; apply Z.gtb_lt; lia).
    replace (70 + d - 70) with d by lia.
    destruct (int_to_float d) as [e|x]; [reflexivity|]. now rewrite fmul_comm.
  - intros n draw max_pity target pool w p Hb Hp Ha w1.
    destruct (flt (random_float (random_tape (rng_pos w))) p) eqn:Ef;
      cbn [draw_loop]; run_m; rewrite Hb, Hp, Ha; run_m; rewrite Ef; [|reflexivity].
    destruct (items pool) as [|it its]; [reflexivity|].
    repeat (match goal with
            | |- context [if ?c then _ else _] => destruct c
            end; run_m); reflexivity.
Qed.

(** ** Dispatch on the first character *)

Lemma dispatch_pool :
  forall exec fuel l w,
    in_function (self w) = false ->
    startswith (u "(") l = true ->
    _execute_line exec fuel l w = _define_pool l w.
Proof.
  intros exec fuel l w Hin Hs. revert Hs. eval_u. intro Hs.
  apply startswith_cons_inv in Hs as (l' & -> & _).
  unfold _execute_line, bind, gets. rewrite Hin. reflexivity.
Qed.

Lemma dispatch_assign :
  forall exec fuel l w,
    in_function (self w) = false ->
    startswith (u "#") l = true ->
    contains (u "=") l = true ->
    startswith (u "#¢") l = false ->
    _execute_line exec fuel l w = _assign_variable l w.
Proof.
  intros exec fuel l w Hin Hs Hc Hn.
  assert (Hs' := Hs). revert Hs'. eval_u. intro Hs'.
  apply startswith_cons_inv in Hs' as (l' & -> & _).
  unfold _execute_line, bind, gets. rewrite Hin, Hs, Hc, Hn. reflexivity.
Qed.

Lemma dispatch_output :
  forall exec fuel l w,
    in_function (self w) = false ->
    startswith (u "¢,") l = true ->
    _execute_line exec fuel l w = _handle_output l w.
Proof.
  intros exec fuel l w Hin Hs.
  unfold _execute_line, bind, gets. rewrite Hin, Hs. reflexivity.
Qed.

Lemma nonempty_of_prefix :
  forall c p l, startswith (c :: p) l = true -> is_empty l = false.
Proof. intros c p [|d l]; [discriminate|reflexivity]. Qed.

(** ** Assignments *)

Lemma no_number_slash :
  forall s, Forall (fun c => is_digit_or_dot c = false) s ->
            re_search_number_slash [] s = None.
Proof.
  induction 1 as [|c s Hc Hs IH]; [reflexivity|].
  cbn [re_search_number_slash startswith length skipn span]. now rewrite Hc.
Qed.

Lemma list_get_emit :
  forall w x,
    (output_lines (self w) < length (heap w))%nat ->
    list_get (output_lines (self w))
      (mkWorld (self w) (heap_append (output_lines (self w)) x (heap w)) (rng_pos w) (stdout w))
    = list_get (output_lines (self w)) w ++ [x].
Proof. intros w x L. unfold list_get. cbn [heap]. now apply heap_append_same. Qed.

Lemma list_get_fresh :
  forall b l w, list_get (output_lines (self (prompted b l (fresh_buffer w))))
                         (prompted b l (fresh_buffer w)) = [].
Proof.
  intros. unfold list_get. rewrite self_prompted, heap_prompted. unfold fresh_buffer.
  cbn [self heap output_lines set_output_lines]. rewrite app_nth2 by lia.
  now rewrite Nat.sub_diag.
Qed.

(** C9 (as amended): outside a function definition, an assignment whose
    right-hand side ends with [/], does not begin with the currency marker and
    holds neither a digit nor a point stores nothing and returns the one
    confirmation line. *)
Theorem C9_percent_without_number_stores_nothing :
  forall fuel line show_prompt w name g,
    in_function (self w) = false ->
    startswith (u "#") (strip line) = true ->
    contains (u "=") (strip line) = true ->
    startswith (u "#¢") (strip line) = false ->
    re_match_assign (strip line) = Some (name, g) ->
    endswith (u "/") (strip g) = true ->
    startswith (u "¥") (strip g) = false ->
    Forall (fun c => is_digit_or_dot c = false) (strip g) ->
    exists r w',
      execute (S fuel) line show_prompt w = Ok r w'
      /\ list_get r w' = [u "[变] #" ++ name ++ u " = " ++ strip g]
      /\ same_attributes (self w) (self w')
      /\ rng_pos w' = rng_pos w.
Proof.
  intros fuel line show_prompt w name g Hin Hs Hc Hn Hm He Hy Hd.
  rewrite execute_nonempty by (revert Hs; eval_u; apply nonempty_of_prefix).
  rewrite dispatch_assign; try assumption; [|now rewrite self_prompted].
  unfold _assign_variable. rewrite Hm, Hy, He, (no_number_slash _ Hd).
  run_m. cbn [finish]. eexists _, _. split; [reflexivity|].
  cbn [self rng_pos]. rewrite list_get_emit by apply fresh_buffer_valid.
  rewrite list_get_fresh, self_prompted, rng_prompted.
  split; [reflexivity|]. split; [|reflexivity].
  unfold same_attributes. cbn. tauto.
Qed.


(** ** Tokens *)

Lemma span_app :
  forall p a b,
    Forall (fun c => p c = true) a ->
    match b with [] => True | c :: _ => p c = false end ->
    span p (a ++ b) = (a, b).
Proof.
  intros p a b Ha Hb. induction Ha as [|c a Hc Ha IH]; cbn [app span].
  - destruct b as [|c b]; cbn [span]; [reflexivity|]. now rewrite Hb.
  - now rewrite Hc, IH.
Qed.

Lemma span_length : forall p s a b, span p s = (a, b) -> (length b <= length s)%nat.
Proof.
  intros p. induction s as [|c s IH]; intros a b E; cbn [span] in E.
  - injection E as <- <-. reflexivity.
  - destruct (p c).
    + destruct (span p s) as [a' b'] eqn:Es. injection E as <- <-.
      specialize (IH _ _ eq_refl). cbn. lia.
    + injection E as <- <-. reflexivity.
Qed.

Lemma re_search_tok_length :
  forall mark s name rest,
    re_search_tok mark s = Some (name, rest) -> (length rest < length s)%nat.
Proof.
  intro mark. induction s as [|c s IH]; intros name rest E; [discriminate|].
  cbn [re_search_tok] in E.
  destruct (c =? mark)%N; [|specialize (IH _ _ E); cbn; lia].
  destruct (span is_word s) as [[|d a] b] eqn:Es.
  - specialize (IH _ _ E). cbn. lia.
  - injection E as <- <-. apply span_length in Es. cbn. lia.
Qed.

Lemma re_split_tok_length :
  forall mark s pre name rest,
    re_split_tok mark s = Some (pre, name, rest) -> (length rest < length s)%nat.
Proof.
  intro mark. induction s as [|c s IH]; intros pre name rest E; [discriminate|].
  cbn [re_split_tok] in E.
  assert (L : forall x,
             match re_split_tok mark s with
             | Some (pre, name, rest) => Some (c :: pre, name, rest)
             | None => None
             end = Some x -> (length (snd x) < length (c :: s))%nat).
  { intros [[p n] r] E'. destruct (re_split_tok mark s) as [[[p' n'] r']|]; [|discriminate].
    injection E' as <- <- <-. specialize (IH _ _ _ eq_refl). cbn. lia. }
  destruct (c =? mark)%N; [|exact (L _ E)].
  destruct (span is_word s) as [[|d a] b] eqn:Es; [exact (L _ E)|].
  injection E as <- <- <-. apply span_length in Es. cbn. lia.
Qed.

Lemma findall_fuel :
  forall mark n m s,
    (length s <= n)%nat -> (length s <= m)%nat ->
    findall_tok_from n mark s = findall_tok_from m mark s.
Proof.
  intro mark. induction n as [|n IH]; intros m s Hn Hm.
  - destruct s; [|cbn in Hn; lia]. destruct m; reflexivity.
  - destruct m as [|m].
    + destruct s; [reflexivity|cbn in Hm; lia].
    + cbn [findall_tok_from].
      destruct (re_search_tok mark s) as [[name rest]|] eqn:E; [|reflexivity].
      apply re_search_tok_length in E. f_equal. apply IH; lia.
Qed.

Lemma sub_fuel :
  forall mark f n m s,
    (length s <= n)%nat -> (length s <= m)%nat ->
    re_sub_tok_from n mark f s = re_sub_tok_from m mark f s.
Proof.
  intros mark f. induction n as [|n IH]; intros m s Hn Hm.
  - destruct s; [|cbn in Hn; lia]. destruct m; reflexivity.
  - destruct m as [|m].
    + destruct s; [reflexivity|cbn in Hm; lia].
    + cbn [re_sub_tok_from].
      destruct (re_split_tok mark s) as [[[pre name] rest]|] eqn:E; [|reflexivity].
      apply re_split_tok_length in E. do 2 f_equal. apply IH; lia.
Qed.

Lemma re_search_tok_first :
  forall mark pre name post,
    Forall (fun c => c <> mark) pre ->
    name <> [] -> Forall (fun c => is_word c = true) name -> token_ends post ->
    re_search_tok mark (pre ++ mark :: name ++ post) = Some (name, post).
Proof.
  intros mark pre name post Hpre Hne Hw Hp.
  induction Hpre as [|c pre Hc Hpre IH]; cbn [app re_search_tok].
  - rewrite N.eqb_refl, span_app by assumption. destruct name; [congruence|reflexivity].
  - apply N.eqb_neq in Hc. now rewrite Hc.
Qed.

Lemma re_split_tok_first :
  forall mark pre name post,
    Forall (fun c => c <> mark) pre ->
    name <> [] -> Forall (fun c => is_word c = true) name -> token_ends post ->
    re_split_tok mark (pre ++ mark :: name ++ post) = Some (pre, name, post).
Proof.
  intros mark pre name post Hpre Hne Hw Hp.
  induction Hpre as [|c pre Hc Hpre IH]; cbn [app re_split_tok].
  - rewrite N.eqb_refl, span_app by assumption. destruct name; [congruence|reflexivity].
  - apply N.eqb_neq in Hc. now rewrite Hc, IH.
Qed.

Lemma findall_first :
  forall mark pre name post,
    Forall (fun c => c <> mark) pre ->
    name <> [] -> Forall (fun c => is_word c = true) name -> token_ends post ->
    re_findall_tok mark (pre ++ mark :: name ++ post) = name :: re_findall_tok mark post.
Proof.
  intros mark pre name post Hpre Hne Hw Hp. unfold re_findall_tok.
  rewrite length_app. cbn [length]. rewrite Nat.add_succ_r. cbn [findall_tok_from].
  rewrite re_search_tok_first by assumption. f_equal.
  apply findall_fuel; rewrite ?length_app; lia.
Qed.

Lemma sub_first :
  forall mark f pre name post,
    Forall (fun c => c <> mark) pre ->
    name <> [] -> Forall (fun c => is_word c = true) name -> token_ends post ->
    re_sub_tok mark f (pre ++ mark :: name ++ post) = pre ++ f name ++ re_sub_tok mark f post.
Proof.
  intros mark f pre name post Hpre Hne Hw Hp. unfold re_sub_tok.
  rewrite length_app. cbn [length]. rewrite Nat.add_succ_r. cbn [re_sub_tok_from].
  rewrite re_split_tok_first by assumption. do 2 f_equal.
  apply sub_fuel; rewrite ?length_app; lia.
Qed.

Lemma number_slash_first :
  forall pre lit post,
    Forall (fun c => c <> 40%N) pre ->
    lit <> [] -> Forall (fun c => is_digit_or_dot c = true) lit ->
    re_search_number_slash (u "(") (pre ++ 40%N :: lit ++ 47%N :: post) = Some lit.
Proof.
  intros pre lit post Hpre Hne Hl. eval_u.
  induction Hpre as [|c pre Hc Hpre IH]; cbn [app re_search_number_slash startswith].
  - cbn [N.eqb Pos.eqb andb length skipn].
    rewrite span_app; [|assumption|reflexivity].
    destruct lit; [congruence|reflexivity].
  - apply N.eqb_neq in Hc. rewrite N.eqb_sym in Hc. rewrite Hc. cbn [andb]. exact IH.
Qed.

Lemma dict_get_set :
  forall V (d : dict V) k v, exists k', dict_get k (dict_set k v d) = Some v /\ str_eqb k k' = true.
Proof.
  intros V d k v. exists k. split; [|apply str_eqb_refl].
  induction d as [|[k' v'] d IH]; cbn [dict_set dict_get].
  - now rewrite str_eqb_refl.
  - destruct (str_eqb k k') eqn:E; cbn [dict_get]; rewrite E; [reflexivity|exact IH].
Qed.

(** ** Pool definitions *)

Lemma define_pool_fails :
  forall l w,
    (re_search_number_slash (u "(") l = None
     \/ (exists lit, re_search_number_slash (u "(") l = Some lit /\ py_float lit = None)
     \/ re_findall_tok (ch "$") l = []
     \/ re_search_tok (ch "#") l = None) ->
    exists e, _define_pool l w = Raise e w.
Proof.
  intros l w Hf. unfold _define_pool.
  destruct (re_search_number_slash (u "(") l) as [lit|] eqn:E1; [|eexists; reflexivity].
  destruct (py_float lit) as [x|] eqn:E2; [|eexists; reflexivity].
  destruct (re_findall_tok (ch "$") l) as [|it its] eqn:E3; [eexists; reflexivity|].
  cbn [is_empty].
  destruct (re_search_tok (ch "#") l) as [[name rest]|] eqn:E4; [|eexists; reflexivity].
  exfalso. destruct Hf as [Hf|[(lit' & Hf & Hf')|[Hf|Hf]]]; congruence.
Qed.

(** C7 (as amended): outside a function definition, a line that begins with
    [(] stores a pool whose probability is a hundredth of the first run of
    digits and points that stands between a [(] and a [/], read by [float],
    whose items are the [$] tokens from left to right, duplicates kept, and
    whose name is the first [#] token; when no such run exists or it is no
    number, when there is no item or no name, the line gives one diagnostic
    and the pools stay as they are. *)
Theorem C7_pool_definition :
  forall fuel line show_prompt w,
    in_function (self w) = false ->
    startswith (u "(") (strip line) = true ->
    (forall lit x name rest,
        re_search_number_slash (u "(") (strip line) = Some lit ->
        py_float lit = Some x ->
        re_findall_tok (ch "$") (strip line) <> [] ->
        re_search_tok (ch "#") (strip line) = Some (name, rest) ->
        exists r w',
          execute (S fuel) line show_prompt w = Ok r w'
          /\ pools (self w')
             = dict_set name (mkPool name (fdiv x f100) (re_findall_tok (ch "$") (strip line)))
                        (pools (self w))
          /\ dict_get name (pools (self w'))
             = Some (mkPool name (fdiv x f100) (re_findall_tok (ch "$") (strip line)))
          /\ list_get r w'
             = [u "[池] #" ++ name ++ u " | " ++ repr_float (fmul (fdiv x f100) f100)
                  ++ u "% | "
                  ++ join (u ",") (map (fun i => ch "$" :: i)
                                       (re_findall_tok (ch "$") (strip line)))])
    /\ ((re_search_number_slash (u "(") (strip line) = None
         \/ (exists lit, re_search_number_slash (u "(") (strip line) = Some lit
                         /\ py_float lit = None)
         \/ re_findall_tok (ch "$") (strip line) = []
         \/ re_search_tok (ch "#") (strip line) = None) ->
        exists r w' msg,
          execute (S fuel) line show_prompt w = Ok r w'
          /\ list_get r w' = [u "[!] " ++ msg]
          /\ pools (self w') = pools (self w))
    /\ (forall pre lit post,
          Forall (fun c => c <> 40%N) pre ->
          lit <> [] -> Forall (fun c => is_digit_or_dot c = true) lit ->
          re_search_number_slash (u "(") (pre ++ 40%N :: lit ++ 47%N :: post) = Some lit)
    /\ (forall pre name post,
          Forall (fun c => c <> ch "$") pre ->
          name <> [] -> Forall (fun c => is_word c = true) name -> token_ends post ->
          re_findall_tok (ch "$") (pre ++ ch "$" :: name ++ post)
          = name :: re_findall_tok (ch "$") post).
Proof.
  intros fuel line show_prompt w Hin Hs.
  assert (Hne : is_empty (strip line) = false)
    by (revert Hs; eval_u; apply nonempty_of_prefix).
  split; [|split; [|split]].
  - intros lit x name rest E1 E2 E3 E4.
    rewrite execute_nonempty by assumption.
    rewrite dispatch_pool; try assumption; [|now rewrite self_prompted].
    unfold _define_pool. rewrite E1, E2.
    destruct (re_findall_tok (ch "$") (strip line)) as [|it its] eqn:E5; [congruence|].
    cbn [is_empty]. rewrite E4. run_m. cbn [finish]. eexists _, _. split; [reflexivity|].
    split; [|split].
    + cbn [self pools set_pools]. now rewrite self_prompted.
    + cbn [self pools set_pools]. rewrite self_prompted.
      cbn [fresh_buffer self pools set_output_lines].
      destruct (dict_get_set _ (pools (self w)) name
                  (mkPool name (fdiv x f100) (it :: its))) as (k' & G & _). exact G.
    + pose proof (list_get_fresh show_prompt (strip line) w) as F.
      unfold list_get in *. cbn [self heap output_lines set_pools].
      rewrite heap_append_same by apply fresh_buffer_valid. now rewrite F.
  - intro Hf. rewrite execute_nonempty by assumption.
    rewrite dispatch_pool; try assumption; [|now rewrite self_prompted].
    destruct (define_pool_fails (strip line)
                (prompted show_prompt (strip line) (fresh_buffer w)) Hf) as (e & E).
    rewrite E, finish_raise by apply fresh_buffer_valid.
    eexists _, _, (str_exn e). split; [reflexivity|].
    rewrite list_get_emit by apply fresh_buffer_valid.
    rewrite list_get_fresh. cbn [self]. rewrite self_prompted. split; reflexivity.
  - apply number_slash_first.
  - intros. now apply findall_first.
Qed.

(** ** Output rendering *)

(** C8: in an output statement a [#name] token is replaced by the plain
    variable of that name when there is one (a float below 1 as a percentage,
    anything else as it is), otherwise by the currency variable with its
    prefix, otherwise by the undefined-name placeholder; the statement
    returns its one output line and changes no attribute. *)
Theorem C8_output_rendering :
  (forall s name v,
      dict_get name (variables s) = Some v ->
      replace_var s name =
      match v with
      | VFloat x => if flt x f1_0 then repr_float (fmul x f100) ++ u "%" else repr_float x
      | VStr t => t
      end)
  /\ (forall s name c,
        dict_get name (variables s) = None ->
        dict_get name (currency s) = Some c ->
        replace_var s name = u "¥" ++ repr_float c)
  /\ (forall s name,
        dict_get name (variables s) = None ->
        dict_get name (currency s) = None ->
        replace_var s name = u "[未定义:#" ++ name ++ u "]")
  /\ (forall f pre name post,
        Forall (fun c => c <> ch "#") pre ->
        name <> [] -> Forall (fun c => is_word c = true) name -> token_ends post ->
        re_sub_tok (ch "#") f (pre ++ ch "#" :: name ++ post)
        = pre ++ f name ++ re_sub_tok (ch "#") f post)
  /\ (forall fuel line show_prompt w,
        in_function (self w) = false ->
        startswith (u "¢,") (strip line) = true ->
        exists r w',
          execute (S fuel) line show_prompt w = Ok r w'
          /\ list_get r w' =
             [u "[出] "
              ++ replace (u "{pity}") (str_of_Z (pity_counter (self w)))
                   (replace (u "{total_spent}") (u "¥" ++ str_of_Z (total_spent (self w)))
                      (replace (u "{inventory}") (repr_list (inventory (self w)))
                         (re_sub_tok (ch "#") (replace_var (self w))
                                     (skipn 2 (strip line)))))]
          /\ same_attributes (self w) (self w')).
Proof.
  split; [|split; [|split; [|split]]].
  - intros s name v E. unfold replace_var. rewrite E. now destruct v.
  - intros s name c E1 E2. unfold replace_var. now rewrite E1, E2.
  - intros s name E1 E2. unfold replace_var. now rewrite E1, E2.
  - intros. now apply sub_first.
  - intros fuel line show_prompt w Hin Hs.
    rewrite execute_nonempty by (revert Hs; eval_u; apply nonempty_of_prefix).
    rewrite dispatch_output; try assumption; [|now rewrite self_prompted].
    unfold _handle_output. run_m. cbn [finish]. eexists _, _. split; [reflexivity|].
    cbn [self]. rewrite list_get_emit by apply fresh_buffer_valid.
    rewrite list_get_fresh, self_prompted. split; [reflexivity|].
    unfold same_attributes. cbn. tauto.
Qed.

(** C10: outside a function definition, a line that begins with the
    definition marker, does not hold the terminator and does not end with a
    closing parenthesis returns no line and changes no attribute. *)
Theorem C10_malformed_header_is_ignored :
  forall fuel line show_prompt w,
    in_function (self w) = false ->
    startswith (u "¢.") (strip line) = true ->
    contains (u "¢.End") (strip line) = false ->
    endswith (u ")") (strip line) = false ->
    exists r w',
      execute (S fuel) line show_prompt w = Ok r w'
      /\ list_get r w' = []
      /\ same_attributes (self w) (self w')
      /\ rng_pos w' = rng_pos w.
Proof.
  intros fuel line show_prompt w Hin Hs Hc He.
  rewrite execute_nonempty by (revert Hs; eval_u; apply nonempty_of_prefix).
  unfold _execute_line, bind, gets.
  rewrite self_prompted. cbn [fresh_buffer self in_function set_output_lines].
  rewrite Hin. cbn [andb].
  destruct (def_marker_prefix _ Hs) as [E1 E2].
  rewrite E1, E2, Hs, Hc, He. cbn [negb andb finish ret].
  eexists _, _. split; [reflexivity|].
  rewrite list_get_fresh, self_prompted, rng_prompted.
  split; [reflexivity|]. split; [|reflexivity].
  unfold same_attributes. cbn. tauto.
Qed.

(** * Further properties *)

(** ** Lists and dicts *)

Lemma extends_refl : forall A (l : list A), extends l l.
Proof. intros. exists []. now rewrite app_nil_r. Qed.

Lemma extends_trans :
  forall A (a b c : list A), extends a b -> extends b c -> extends a c.
Proof. intros A a b c [m1 ->] [m2 ->]. exists (m1 ++ m2). now rewrite app_assoc. Qed.

Lemma extends_snoc : forall A (l : list A) x, extends l (l ++ [x]).
Proof. intros. now exists [x]. Qed.

Lemma keys_kept_refl : forall V (d : dict V), keys_kept d d.
Proof. intros V d k E. exact E. Qed.

Lemma keys_kept_trans :
  forall V (a b c : dict V), keys_kept a b -> keys_kept b c -> keys_kept a c.
Proof. intros V a b c Hab Hbc k E. auto. Qed.

Lemma keys_kept_set : forall V (d : dict V) k v, keys_kept d (dict_set k v d).
Proof.
  intros V d k v q. induction d as [|[k1 v1] d IH]; cbn [dict_get dict_set].
  - congruence.
  - destruct (str_eqb k k1); cbn [dict_get]; destruct (str_eqb q k1); auto; discriminate.
Qed.

Lemma str_eqb_neq : forall a b, a <> b -> str_eqb a b = false.
Proof.
  intros a b N. destruct (str_eqb a b) eqn:E; [|reflexivity].
  apply str_eqb_eq in E. contradiction.
Qed.

(** An assignment to a key leaves the values of the other keys. *)
Lemma dict_get_set_other :
  forall V (d : dict V) k q v, q <> k -> dict_get q (dict_set k v d) = dict_get q d.
Proof.
  intros V d k q v N. induction d as [|[k1 v1] d IH]; cbn [dict_get dict_set].
  - now rewrite (str_eqb_neq _ _ N).
  - destruct (str_eqb k k1) eqn:E; cbn [dict_get].
    + apply str_eqb_eq in E. subst k1. now rewrite (str_eqb_neq _ _ N).
    + destruct (str_eqb q k1); [reflexivity|exact IH].
Qed.

(** ** The relations that statements are followed along *)

Ltac split_all := repeat match goal with |- _ /\ _ => split end.

Ltac chain :=
  first [ congruence
        | eapply keys_kept_trans; eassumption
        | eapply extends_trans; eassumption
        | eapply inv_trans; eassumption ].

#[local] Instance calm_invariant : Invariant calm.
Proof.
  split.
  - intro w. unfold calm. split_all; auto using keys_kept_refl.
  - intros a b c Hab Hbc. unfold calm in *.
    decompose [and] Hab. decompose [and] Hbc. split_all; chain.
Qed.

#[local] Instance draw_effect_invariant : Invariant draw_effect.
Proof.
  split.
  - intro w. unfold draw_effect. split_all; auto using extends_refl.
  - intros a b c Hab Hbc. unfold draw_effect in *.
    decompose [and] Hab. decompose [and] Hbc. split_all; chain.
Qed.

#[local] Instance pool_effect_invariant : Invariant pool_effect.
Proof.
  split.
  - intro w. unfold pool_effect. split_all; auto using keys_kept_refl.
  - intros a b c Hab Hbc. unfold pool_effect in *.
    decompose [and] Hab. decompose [and] Hbc. split_all; chain.
Qed.

#[local] Instance assign_effect_invariant : Invariant assign_effect.
Proof.
  split.
  - intro w. unfold assign_effect. split_all; auto using keys_kept_refl.
  - intros a b c Hab Hbc. unfold assign_effect in *.
    decompose [and] Hab. decompose [and] Hbc. split_all; chain.
Qed.

#[local] Instance tidy_invariant : Invariant tidy.
Proof.
  split.
  - intro w. unfold tidy. split_all; auto. apply inv_refl.
  - intros a b c Hab Hbc. unfold tidy in *.
    decompose [and] Hab. decompose [and] Hbc. split_all; chain.
Qed.

#[local] Instance steady_invariant : Invariant steady.
Proof.
  split.
  - intro w. split; auto.
  - intros a b c [E1 S1] [E2 S2]. split; [congruence|auto].
Qed.

Ltac cbn_state :=
  cbn [self heap rng_pos stdout
       variables pools currency inventory pity_counter total_spent functions output_lines
       in_function current_function_lines current_function_name current_function_params
       set_variables set_pools set_currency set_inventory set_pity_counter set_total_spent
       set_functions set_output_lines set_in_function set_current_function_lines
       set_current_function_name set_current_function_params].

Ltac cbn_all :=
  cbn [self heap rng_pos stdout
       variables pools currency inventory pity_counter total_spent functions output_lines
       in_function current_function_lines current_function_name current_function_params
       set_variables set_pools set_currency set_inventory set_pity_counter set_total_spent
       set_functions set_output_lines set_in_function set_current_function_lines
       set_current_function_name set_current_function_params] in *.

Ltac effect_prim :=
  unfold calm, draw_effect, pool_effect, assign_effect; cbn_state; split_all;
  auto using keys_kept_refl, keys_kept_set, extends_refl, extends_snoc.

Ltac tidy_prim :=
  unfold tidy; split; [grows_prim | cbn_state; split_all; reflexivity].

Lemma tidy_steady : forall w w', tidy w w' -> steady w w'.
Proof.
  intros w w' (_ & E1 & E2 & E3 & E4 & E5). split; [exact E5|].
  unfold scratch_clear. now rewrite E1, E2, E3, E4.
Qed.

Lemma grows_valid : forall w w', valid_buffer w -> grows w w' -> valid_buffer w'.
Proof. intros w w' V (E & L & _). unfold valid_buffer in *. rewrite E. lia. Qed.

Lemma tidy_valid : forall w w', valid_buffer w -> tidy w w' -> valid_buffer w'.
Proof. intros w w' V (G & _). eapply grows_valid; eauto. Qed.

Lemma loud_append :
  forall s h p o r x,
    r = output_lines s -> (r < length h)%nat -> startswith (u "[函]") x = false ->
    loud (mkWorld s (heap_append r x h) p o).
Proof.
  intros s h p o r x -> L V. unfold loud, visible, list_get. cbn [self heap].
  rewrite heap_append_same by assumption.
  exists (length (nth (output_lines s) h [])), x.
  split; [|exact V]. rewrite nth_error_app2 by lia. now rewrite Nat.sub_diag.
Qed.

(** ** What the handlers leave as it was *)

Lemma draw_loop_effect :
  forall n draw max_pity target pool,
    preserves draw_effect (draw_loop n draw max_pity target pool).
Proof.
  induction n as [|n IH]; intros; cbn [draw_loop]; pres effect_prim.
  apply IH.
Qed.

Lemma draw_loop_tidy :
  forall n draw max_pity target pool,
    preserves tidy (draw_loop n draw max_pity target pool).
Proof.
  induction n as [|n IH]; intros; cbn [draw_loop]; pres tidy_prim.
  apply IH.
Qed.

Lemma execute_target_effect : forall l, preserves draw_effect (_execute_target l).
Proof.
  intro l. unfold _execute_target, draw_sequence. pres effect_prim.
  apply draw_loop_effect.
Qed.

Lemma execute_target_tidy : forall l, preserves tidy (_execute_target l).
Proof.
  intro l. unfold _execute_target, draw_sequence. pres tidy_prim.
  apply draw_loop_tidy.
Qed.

Lemma define_pool_effect : forall l, preserves pool_effect (_define_pool l).
Proof. intro l. unfold _define_pool. pres effect_prim. Qed.

Lemma define_pool_tidy : forall l, preserves tidy (_define_pool l).
Proof. intro l. unfold _define_pool. pres tidy_prim. Qed.

Lemma assign_effect_kept : forall l, preserves assign_effect (_assign_variable l).
Proof. intro l. unfold _assign_variable. pres effect_prim. Qed.

Lemma assign_tidy : forall l, preserves tidy (_assign_variable l).
Proof. intro l. unfold _assign_variable. pres tidy_prim. Qed.

Lemma define_pool_loud :
  forall l w, valid_buffer w ->
              match _define_pool l w with Ok _ w' => loud w' | _ => True end.
Proof.
  intros l w V. unfold _define_pool.
  destruct (re_search_number_slash _ l); [|exact I].
  destruct (py_float _); [|exact I].
  destruct (is_empty _); [exact I|].
  destruct (re_search_tok _ l) as [[name rest]|]; [|exact I].
  run_m. apply loud_append; [reflexivity|exact V|reflexivity].
Qed.

Lemma assign_loud :
  forall l w, valid_buffer w ->
              match _assign_variable l w with Ok _ w' => loud w' | _ => True end.
Proof.
  intros l w V. unfold _assign_variable.
  destruct (re_match_assign l) as [[name g]|]; [|exact I].
  destruct (startswith _ (strip g)).
  - run_m. destruct (py_float _); [|exact I].
    apply loud_append; [reflexivity|exact V|reflexivity].
  - destruct (endswith _ (strip g)).
    + destruct (re_search_number_slash _ _).
      * run_m. destruct (py_float _); [|exact I].
        apply loud_append; [reflexivity|exact V|reflexivity].
      * run_m. apply loud_append; [reflexivity|exact V|reflexivity].
    + destruct (py_float _); run_m; (apply loud_append; [reflexivity|exact V|reflexivity]).
Qed.

(** ** Texts without the arithmetic marker *)

Lemma plain_text_spec : forall s, plain_text s = true <-> ~ In (ch "&") s.
Proof.
  intro s. unfold plain_text. rewrite negb_true_iff. split.
  - intros E I. assert (X : existsb (N.eqb (ch "&")) s = true).
    { apply existsb_exists. exists (ch "&"). split; [exact I|apply N.eqb_refl]. }
    congruence.
  - intro Hn. destruct (existsb (N.eqb (ch "&")) s) eqn:E; [|reflexivity].
    apply existsb_exists in E as (c & I & E). apply N.eqb_eq in E. subst c. contradiction.
Qed.

Lemma plain_sub :
  forall s s', (forall c, In c s' -> In c s) -> plain_text s = true -> plain_text s' = true.
Proof.
  intros s s' Hsub P. apply plain_text_spec. apply plain_text_spec in P. auto.
Qed.

Lemma dropwhile_in : forall p s c, In c (dropwhile p s) -> In c s.
Proof.
  intros p s c. induction s as [|d s IH]; cbn [dropwhile]; [auto|].
  destruct (p d); [|auto]. intro I. right. auto.
Qed.

Lemma strip_in : forall s c, In c (strip s) -> In c s.
Proof.
  intros s c I. unfold strip in I. apply in_rev in I.
  apply dropwhile_in in I. apply in_rev in I. now apply dropwhile_in in I.
Qed.

Lemma plain_strip : forall s, plain_text s = true -> plain_text (strip s) = true.
Proof. intros s. apply plain_sub. apply strip_in. Qed.

Lemma split_in : forall sep s x c, In x (split sep s) -> In c x -> In c s.
Proof.
  intros sep. induction s as [|d s IH]; intros x c Ix Ic; cbn [split] in Ix.
  - destruct Ix as [<-|[]]. contradiction.
  - destruct (d =? sep)%N.
    + destruct Ix as [<-|Ix]; [contradiction|]. right. eauto.
    + destruct (split sep s) as [|w ws] eqn:E.
      * destruct Ix as [<-|[]]. destruct Ic as [<-|[]]. now left.
      * destruct Ix as [<-|Ix].
        -- destruct Ic as [<-|Ic]; [now left|]. right. apply (IH w); [now left|exact Ic].
        -- right. apply (IH x); [now right|exact Ic].
Qed.

Lemma plain_split :
  forall sep s, plain_text s = true -> plain_lines (split sep s) = true.
Proof.
  intros sep s P. unfold plain_lines. apply forallb_forall. intros x Ix.
  revert P. apply plain_sub. intros c Ic. eapply split_in; eauto.
Qed.

Lemma plain_map_strip :
  forall l, plain_lines l = true -> plain_lines (map strip l) = true.
Proof.
  unfold plain_lines. induction l as [|x l IH]; cbn [map forallb]; [reflexivity|].
  intro E. apply andb_prop in E as [E1 E2]. now rewrite plain_strip, IH.
Qed.

Lemma plain_lines_app :
  forall a b, plain_lines (a ++ b) = plain_lines a && plain_lines b.
Proof. intros. unfold plain_lines. apply forallb_app. Qed.

Lemma replace_from_in :
  forall old new s k c, In c (replace_from old new k s) -> In c s \/ In c new.
Proof.
  intros old new. induction s as [|d s IH]; intros k c I; cbn [replace_from] in I.
  - contradiction.
  - destruct k as [|k].
    + destruct (startswith old (d :: s)).
      * apply in_app_or in I as [I|I]; [now right|].
        destruct (IH _ _ I); [left; now right|now right].
      * destruct I as [<-|I]; [left; now left|].
        destruct (IH _ _ I); [left; now right|now right].
    + destruct (IH _ _ I); [left; now right|now right].
Qed.

Lemma plain_replace :
  forall old new s,
    plain_text new = true -> plain_text s = true -> plain_text (replace old new s) = true.
Proof.
  intros old new s Pn Ps. apply plain_text_spec. intro I.
  apply plain_text_spec in Pn. apply plain_text_spec in Ps.
  unfold replace in I. apply replace_from_in in I. tauto.
Qed.

Lemma plain_subst_params :
  forall ps i args l,
    plain_lines args = true -> plain_text l = true ->
    plain_text (subst_params i ps args l) = true.
Proof.
  induction ps as [|p ps IH]; intros i args l Pa Pl; cbn [subst_params]; [exact Pl|].
  apply IH; [exact Pa|].
  destruct (nth_error args i) as [a|] eqn:E; [|exact Pl].
  apply plain_replace; [|exact Pl].
  apply nth_error_In in E. unfold plain_lines in Pa.
  rewrite forallb_forall in Pa. auto.
Qed.

Lemma span_in :
  forall p s a b c, span p s = (a, b) -> In c a \/ In c b -> In c s.
Proof.
  intro p. induction s as [|d s IH]; intros a b c E I; cbn [span] in E.
  - injection E as <- <-. tauto.
  - destruct (p d).
    + destruct (span p s) as [a' b'] eqn:Es. injection E as <- <-.
      destruct I as [[<-|I]|I]; [now left| |]; right; eapply IH; eauto.
    + injection E as <- <-. destruct I as [[]|I]. exact I.
Qed.

Lemma name_parens_in :
  forall s name args rest c,
    name_parens s = Some (name, args, rest) -> In c args -> In c s.
Proof.
  intros s name args rest c E I. unfold name_parens in E.
  destruct (span is_word s) as [[|x a] [|d r]] eqn:Es; try discriminate.
  destruct (d =? 40)%N; [|discriminate].
  destruct (span not_rparen r) as [args' [|e r']] eqn:Er; [discriminate|].
  destruct (e =? 41)%N; [|discriminate]. injection E as <- <- <-.
  eapply span_in; [exact Es|]. right. right. eapply span_in; [exact Er|]. now left.
Qed.

(** The arguments of a call without [&] are without it. *)
Lemma plain_call_args :
  forall l name g2,
    plain_text l = true -> re_match_call l = Some (name, g2) ->
    plain_lines (if is_empty (strip g2) then [] else map strip (split (ch ",") (strip g2)))
    = true.
Proof.
  intros l name g2 P E. unfold re_match_call in E.
  destruct (name_parens l) as [[[n a] r]|] eqn:En; [|discriminate]. injection E as <- <-.
  destruct (is_empty (strip a)); [reflexivity|].
  apply plain_map_strip, plain_split, plain_strip.
  revert P. apply plain_sub. intros c I. eapply name_parens_in; eauto.
Qed.

Lemma plain_not_math : forall l, plain_text l = true -> startswith (u "&A(") l = false.
Proof.
  intros [|c l] P; [reflexivity|].
  destruct (startswith (u "&A(") (c :: l)) eqn:E; [|reflexivity].
  revert E. eval_u. intro E. apply startswith_cons_inv in E as (l' & E & _).
  injection E as -> ->. apply plain_text_spec in P. exfalso. apply P. now left.
Qed.

Lemma math_not_def :
  forall l, startswith (u "&A(") l = true -> startswith (u "¢.") l = false.
Proof.
  intros l. eval_u. intro E. apply startswith_cons_inv in E as (l' & -> & _). reflexivity.
Qed.

Lemma call_not_def : forall l, re_is_call l = true -> startswith (u "¢.") l = false.
Proof.
  intros l E. unfold re_is_call in E. apply andb_prop in E as [E _].
  now apply negb_true_iff in E.
Qed.

Lemma plain_dict_get :
  forall (d : dict Function) k f,
    forallb (fun kv => plain_lines (body (snd kv))) d = true ->
    dict_get k d = Some f -> plain_lines (body f) = true.
Proof.
  induction d as [|[k' f'] d IH]; intros k f P E; cbn [dict_get] in E; [discriminate|].
  cbn [forallb snd] in P. apply andb_prop in P as [P1 P2].
  destruct (str_eqb k k'); [now injection E as <-|eauto].
Qed.

Lemma plain_dict_set :
  forall (d : dict Function) k f,
    forallb (fun kv => plain_lines (body (snd kv))) d = true ->
    plain_lines (body f) = true ->
    forallb (fun kv => plain_lines (body (snd kv))) (dict_set k f d) = true.
Proof.
  induction d as [|[k' f'] d IH]; intros k f P Pf; cbn [dict_set forallb snd].
  - now rewrite Pf.
  - cbn [forallb snd] in P. apply andb_prop in P as [P1 P2].
    destruct (str_eqb k k'); cbn [forallb snd]; [now rewrite Pf, P2|].
    now rewrite P1, IH.
Qed.

(** ** Statements that meet no arithmetic keep the functions without it *)

#[local] Instance defs_kept_invariant : Invariant defs_kept.
Proof.
  split.
  - intro w. split; reflexivity.
  - intros a b c [E1 E2] [E3 E4]. split; congruence.
Qed.

Ltac defs_prim := unfold defs_kept; cbn_state; split; reflexivity.

Lemma defs_kept_plain :
  forall w w', defs_kept w w' -> plain_state (self w) = true -> plain_state (self w') = true.
Proof. intros w w' [E1 E2]. unfold plain_state. now rewrite E1, E2. Qed.

Lemma plain_of_defs_kept :
  forall A (m : M A) w,
    preserves defs_kept m -> plain_state (self w) = true ->
    match m w with
    | Ok _ w' | Raise _ w' => plain_state (self w') = true
    | OutOfFuel => True
    end.
Proof.
  intros A m w P S. specialize (P w).
  destruct (m w); [| |exact I]; eapply defs_kept_plain; eauto.
Qed.

Lemma draw_loop_defs :
  forall n draw max_pity target pool,
    preserves defs_kept (draw_loop n draw max_pity target pool).
Proof.
  induction n as [|n IH]; intros; cbn [draw_loop]; pres defs_prim.
  apply IH.
Qed.

Lemma execute_target_defs : forall l, preserves defs_kept (_execute_target l).
Proof.
  intro l. unfold _execute_target, draw_sequence. pres defs_prim.
  apply draw_loop_defs.
Qed.

(** ** Function calls *)

Lemma copy_outputs_self :
  forall fuel r i w,
    match copy_outputs fuel r i w with
    | Ok _ w' => self w' = self w /\ rng_pos w' = rng_pos w /\ stdout w' = stdout w
    | Raise _ _ => False
    | OutOfFuel => True
    end.
Proof.
  induction fuel as [|fuel IH]; intros r i w; [exact I|].
  cbn [copy_outputs]. destruct (nth_error (list_get r w) i) as [o|]; [|repeat split].
  destruct (negb _); run_m;
    match goal with
    | |- context [copy_outputs fuel r (S i) ?w1] =>
        pose proof (IH r (S i) w1) as C; destruct (copy_outputs fuel r (S i) w1)
    end; exact C.
Qed.

Lemma same_self_calm :
  forall w w', self w' = self w -> rng_pos w' = rng_pos w -> calm w w'.
Proof.
  intros w w' E R. unfold calm. rewrite E, R. split_all; auto using keys_kept_refl.
Qed.

Lemma same_self_steady :
  forall w w', self w' = self w -> stdout w' = stdout w -> steady w w'.
Proof. intros w w' E R. unfold steady. rewrite E, R. auto. Qed.

(** A call returns only when none of its body lines gave a line to copy,
    and then every body line was a calm statement. *)
Lemma call_body_calm :
  forall exec fuel ps args,
    tame exec -> plain_lines args = true ->
    forall body_lines w,
      plain_lines body_lines = true -> plain_state (self w) = true ->
      match call_body exec fuel ps args body_lines w with
      | Ok _ w' => calm w w' /\ steady w w' /\ plain_state (self w') = true
      | Raise _ _ => False
      | OutOfFuel => True
      end.
Proof.
  intros exec fuel ps args Hexec Pa.
  induction body_lines as [|bl rest IH]; intros w Pb Ps; cbn [call_body].
  - split; [apply inv_refl|]. split; [apply inv_refl|exact Ps].
  - cbn [plain_lines forallb] in Pb. apply andb_prop in Pb as [Pbl Pb].
    destruct (is_empty (strip bl)); [now apply IH|].
    unfold bind at 1.
    pose proof (Hexec (subst_params 0 ps args (strip bl)) w
                  (plain_subst_params _ _ _ _ Pa (plain_strip _ Pbl)) Ps) as Q.
    destruct (exec _ w) as [r w1|e w1|]; [|contradiction|exact I].
    destruct Q as (_ & S1 & _ & Q & P1).
    unfold bind at 1.
    destruct Q as [Q|(Er & (i & out & Ei & Ev))].
    + pose proof (copy_outputs_self fuel r 0 w1) as C.
      destruct (copy_outputs fuel r 0 w1) as [? w2|? w2|]; [|contradiction|exact I].
      destruct C as (C1 & C2 & C3).
      assert (P2 : plain_state (self w2) = true) by now rewrite C1.
      specialize (IH w2 Pb P2).
      destruct (call_body _ _ _ _ rest w2) as [? w3|? w3|]; [|contradiction|exact I].
      destruct IH as (IH1 & IH2 & IH3). split; [|split; [|exact IH3]].
      * eapply inv_trans; [exact Q|]. eapply inv_trans; [|exact IH1].
        now apply same_self_calm.
      * eapply inv_trans; [exact S1|]. eapply inv_trans; [|exact IH2].
        now apply same_self_steady.
    + rewrite copy_outputs_diverges; [exact I|exact Er|].
      exists i, out. repeat split; [lia| |exact Ev]. rewrite Er. exact Ei.
Qed.

Lemma call_function_calm :
  forall exec fuel line w,
    tame exec -> plain_text line = true -> plain_state (self w) = true ->
    match _call_function exec fuel line w with
    | Ok _ w' => calm w w' /\ steady w w' /\ plain_state (self w') = true
    | Raise _ _ => False
    | OutOfFuel => True
    end.
Proof.
  intros exec fuel line w Hexec Pl Ps. unfold _call_function.
  destruct (re_match_call line) as [[name g2]|] eqn:Em;
    [|split; [apply inv_refl|split; [apply inv_refl|exact Ps]]].
  pose proof (plain_call_args _ _ _ Pl Em) as Pa.
  unfold bind at 1. cbn [gets].
  destruct (dict_get name (functions (self w))) as [func|] eqn:Ef.
  2:{ run_m. split; [effect_prim|]. split; [now apply same_self_steady|exact Ps]. }
  assert (Pb : plain_lines (body func) = true).
  { unfold plain_state in Ps. apply andb_prop in Ps as [Ps _].
    eapply plain_dict_get; eauto. }
  unfold bind at 1. unfold emit, bind at 1. cbn [gets list_append].
  match goal with
  | |- context [call_body ?e ?f ?p ?a ?b ?w1] =>
      pose proof (call_body_calm e f p a Hexec Pa b w1 Pb Ps) as C;
      destruct (call_body e f p a b w1)
  end; [|exact C|exact C].
  destruct C as (C1 & C2 & C3). split; [|split; [|exact C3]].
  - eapply inv_trans; [|exact C1]. effect_prim.
  - eapply inv_trans; [|exact C2]. now apply same_self_steady.
Qed.

(** ** One statement, by its kind *)

Lemma outcome_calm :
  forall l (m : M unit) w,
    valid_buffer w -> preserves calm m -> preserves tidy m -> line_outcome l w (m w).
Proof.
  intros l m w V C T. specialize (C w). specialize (T w). unfold line_outcome.
  destruct (m w) as [a w'|e w'|]; [| |contradiction].
  - split; [left; exact C|]. split; [now apply tidy_steady|left; exact C].
  - split; [left; exact C|]. split; [now apply tidy_steady|eapply tidy_valid; eauto].
Qed.

Lemma outcome_loud :
  forall (E : world -> world -> Prop) l (m : M unit) w,
    valid_buffer w -> preserves E m -> preserves tidy m ->
    (forall w', E w w' -> statement_effect l w w') ->
    match m w with Ok _ w' => loud w' | _ => True end ->
    line_outcome l w (m w).
Proof.
  intros E l m w V C T K L. specialize (C w). specialize (T w). unfold line_outcome.
  destruct (m w) as [a w'|e w'|]; [| |contradiction].
  - split; [now apply K|]. split; [now apply tidy_steady|right; exact L].
  - split; [now apply K|]. split; [now apply tidy_steady|eapply tidy_valid; eauto].
Qed.

Lemma execute_target_spent :
  forall l w,
    match _execute_target l w with
    | Ok _ w' | Raise _ w' => total_spent (self w) <= total_spent (self w')
    | OutOfFuel => False
    end.
Proof.
  intros l w. pose proof (execute_target_spec l w) as S.
  pose proof (parse_max_pity_nonneg l) as Np.
  destruct (_execute_target l w) as [e w'|e w'|]; [| |exact S].
  - cbn [sequence_post] in S. destruct S as [_ S]. destruct e; intuition lia.
  - destruct S as [_ S]. lia.
Qed.


(** What one statement does, whatever the run time's [eval]: a call is
    taken with an [execute] that is tame and functions without arithmetic,
    and an arithmetic statement is not taken at all. *)
Lemma execute_line_outcome :
  forall exec fuel l w,
    valid_buffer w ->
    (calls l w = true ->
     tame exec /\ plain_text l = true /\ plain_state (self w) = true) ->
    evaluates l w = false ->
    line_outcome l w (_execute_line exec fuel l w).
Proof.
  intros exec fuel l w V Hcall Hmath. unfold _execute_line. unfold bind at 1. cbn [gets].
  unfold calls in Hcall. unfold evaluates in Hmath.
  destruct (in_function (self w) && _) eqn:Ein.
  { apply andb_prop in Ein as [Ein _]. cbn [line_outcome modify].
    split; [left; effect_prim|]. split; [|left; effect_prim].
    split; [reflexivity|]. intros _ Hf. cbn in Hf. congruence. }
  destruct (startswith (u "¢,") l).
  { apply outcome_calm; [assumption| |]; unfold _handle_output;
      [pres effect_prim|pres tidy_prim]. }
  destruct (startswith (u "¢") l && _).
  { apply outcome_calm; [assumption| |]; [pres effect_prim|pres tidy_prim]. }
  destruct (startswith (u "¢.") l && _) eqn:Edef.
  { destruct (endswith _ l).
    - unfold _start_function_def. destruct (re_match_def l) as [[name ps]|].
      + run_m. cbn [line_outcome]. split; [left; effect_prim|].
        split; [|left; effect_prim]. split; [reflexivity|].
        intros _ Hf. cbn in Hf. discriminate.
      + cbn [line_outcome raise]. split; [left; apply inv_refl|].
        split; [apply inv_refl|assumption].
    - apply outcome_calm; [assumption| |]; [pres effect_prim|pres tidy_prim]. }
  destruct (str_eqb l (u "¢.End")).
  { unfold _end_function_def. run_m. cbn [line_outcome].
    split; [left; effect_prim|]. split; [|left; effect_prim].
    split; [reflexivity|]. intros _ _. cbn. auto. }
  destruct (re_is_call l && contains (u "(") l) eqn:Ecall.
  { apply andb_prop in Ecall as [Ecall _].
    assert (Hin : in_function (self w) = false).
    { destruct (in_function (self w)); [|reflexivity].
      cbn [andb] in Ein. apply negb_false_iff in Ein.
      pose proof (call_not_def _ Ecall). congruence. }
    rewrite Hin, Ecall in Hcall. destruct (Hcall eq_refl) as (Hexec & Pl & Ps).
    pose proof (call_function_calm exec fuel l w Hexec Pl Ps) as C.
    unfold line_outcome. destruct (_call_function exec fuel l w) as [a w'|e w'|].
    - destruct C as (C1 & C2 & _). split; [left; exact C1|]. split; [exact C2|left; exact C1].
    - contradiction.
    - unfold calls. now rewrite Hin, Ecall. }
  destruct (startswith (u "return") l).
  { apply outcome_calm; [assumption| |]; unfold _handle_return;
      [pres effect_prim|pres tidy_prim]. }
  destruct (startswith (u "(") l) eqn:Epool.
  { apply (outcome_loud pool_effect); [assumption|apply define_pool_effect|apply define_pool_tidy| |].
    - intros w' P. right. right. left. split; [exact Epool|exact P].
    - now apply define_pool_loud. }
  destruct (startswith (u "#") l && _ && _) eqn:Eassign.
  { apply (outcome_loud assign_effect);
      [assumption|apply assign_effect_kept|apply assign_tidy| |].
    - intros w' P. right. right. right. left. split; [|exact P].
      now apply andb_prop in Eassign as [Eassign _]; apply andb_prop in Eassign as [Eassign _].
    - now apply assign_loud. }
  destruct (startswith (u "<") l) eqn:Edraw.
  { apply (outcome_loud (fun w0 w' => draw_effect w0 w'
                                      /\ total_spent (self w0) <= total_spent (self w')));
      [assumption| | | |].
    - intro w0. pose proof (execute_target_effect l w0) as E.
      pose proof (execute_target_spent l w0) as S. unfold bind.
      destruct (_execute_target l w0); cbn [ret]; auto.
    - apply preserves_bind; [apply execute_target_tidy|intro; apply preserves_ret].
    - intros w' [P1 P2]. right. left. split; [exact Edraw|]. split; assumption.
    - unfold bind. pose proof (execute_target_loud l w V) as Ld.
      destruct (_execute_target l w); auto. }
  destruct (startswith (u "&A(") l) eqn:Emath.
  { exfalso. rewrite andb_true_r in Hmath. apply negb_false_iff in Hmath.
    rewrite Hmath in Ein. cbn [andb] in Ein. apply negb_false_iff in Ein.
    pose proof (math_not_def _ Emath). congruence. }
  destruct (startswith (u "?") l).
  { apply outcome_calm; [assumption| |]; unfold _handle_condition;
      [pres effect_prim|pres tidy_prim]. }
  destruct (str_eqb l (u "/state")).
  { apply outcome_calm; [assumption| |]; [pres effect_prim|pres tidy_prim]. }
  destruct (str_eqb l (u "/reset")) eqn:Ereset.
  { apply str_eqb_eq in Ereset. unfold reset, __init__. run_m. cbn [line_outcome].
    split; [do 4 right; exact Ereset|]. split.
    - split; [reflexivity|]. intros _ _. cbn. auto.
    - right. apply loud_append; [reflexivity| |reflexivity].
      rewrite length_app. cbn. lia. }
  destruct (str_in l _);
    (apply outcome_calm; [assumption| |]; [pres effect_prim|pres tidy_prim]).
Qed.

(** A statement without [&] leaves the functions without arithmetic. *)
Lemma execute_line_plain :
  forall exec fuel l w,
    tame exec -> plain_text l = true -> plain_state (self w) = true ->
    match _execute_line exec fuel l w with
    | Ok _ w' | Raise _ w' => plain_state (self w') = true
    | OutOfFuel => True
    end.
Proof.
  intros exec fuel l w Hexec Pl Ps. unfold _execute_line. unfold bind at 1. cbn [gets].
  pose proof Ps as Ps'. unfold plain_state in Ps'. apply andb_prop in Ps' as [Pf Pc].
  destruct (in_function (self w) && _).
  { cbn [modify]. unfold plain_state. cbn_state.
    rewrite Pf, plain_lines_app, Pc. cbn [plain_lines forallb]. now rewrite Pl. }
  destruct (startswith (u "¢,") l).
  { apply plain_of_defs_kept; [|exact Ps]. unfold _handle_output. pres defs_prim. }
  destruct (startswith (u "¢") l && _).
  { apply plain_of_defs_kept; [|exact Ps]. pres defs_prim. }
  destruct (startswith (u "¢.") l && _).
  { destruct (endswith _ l); [|exact Ps].
    unfold _start_function_def. destruct (re_match_def l) as [[name ps]|]; [|exact Ps].
    run_m. unfold plain_state. cbn_state. now rewrite Pf. }
  destruct (str_eqb l (u "¢.End")).
  { unfold _end_function_def. run_m. unfold plain_state. cbn_state.
    rewrite plain_dict_set; [reflexivity|exact Pf|exact Pc]. }
  destruct (re_is_call l && contains (u "(") l).
  { pose proof (call_function_calm exec fuel l w Hexec Pl Ps) as C.
    destruct (_call_function exec fuel l w); [apply C|contradiction|exact I]. }
  destruct (startswith (u "return") l).
  { apply plain_of_defs_kept; [|exact Ps]. unfold _handle_return. pres defs_prim. }
  destruct (startswith (u "(") l).
  { apply plain_of_defs_kept; [|exact Ps]. unfold _define_pool. pres defs_prim. }
  destruct (startswith (u "#") l && _ && _).
  { apply plain_of_defs_kept; [|exact Ps]. unfold _assign_variable. pres defs_prim. }
  destruct (startswith (u "<") l).
  { apply plain_of_defs_kept; [|exact Ps].
    apply preserves_bind; [apply execute_target_defs|intro; apply preserves_ret]. }
  rewrite (plain_not_math _ Pl).
  destruct (startswith (u "?") l).
  { apply plain_of_defs_kept; [|exact Ps]. unfold _handle_condition. pres defs_prim. }
  destruct (str_eqb l (u "/state")).
  { apply plain_of_defs_kept; [|exact Ps]. pres defs_prim. }
  destruct (str_eqb l (u "/reset")).
  { unfold reset, __init__. run_m. reflexivity. }
  destruct (str_in l _); (apply plain_of_defs_kept; [|exact Ps]; pres defs_prim).
Qed.

(** ** [execute], whatever the statement *)

Lemma stdout_prompted_fresh :
  forall sp l w, stdout (prompted sp l (fresh_buffer w)) = stdout (prompted sp l w).
Proof.
  intros. unfold prompted, fresh_buffer. cbn_state. now destruct (sp && _).
Qed.

Lemma effect_from_start :
  forall sp l0 l w w',
    statement_effect l (prompted sp l0 (fresh_buffer w)) w' -> statement_effect l w w'.
Proof.
  intros sp l0 l w w'. unfold statement_effect, calm, draw_effect, pool_effect, assign_effect.
  rewrite !self_prompted, !rng_prompted. unfold fresh_buffer. cbn_state. tauto.
Qed.

Lemma calm_from_start :
  forall sp l0 w w', calm (prompted sp l0 (fresh_buffer w)) w' -> calm w w'.
Proof.
  intros sp l0 w w'. unfold calm.
  rewrite !self_prompted, !rng_prompted. unfold fresh_buffer. cbn_state. tauto.
Qed.

Lemma scratch_from_start :
  forall sp l0 w, scratch_clear (self w) ->
                  scratch_clear (self (prompted sp l0 (fresh_buffer w))).
Proof. intros sp l0 w. rewrite self_prompted. unfold fresh_buffer. cbn_state. auto. Qed.

Lemma plain_from_start :
  forall sp l0 w, plain_state (self (prompted sp l0 (fresh_buffer w))) = plain_state (self w).
Proof. intros sp l0 w. rewrite self_prompted. reflexivity. Qed.


Lemma evaluates_from_start :
  forall sp l0 l w, evaluates l (prompted sp l0 (fresh_buffer w)) = evaluates l w.
Proof. intros. unfold evaluates. rewrite self_prompted. reflexivity. Qed.

(** What [execute] does with a line without [&] where the functions hold
    no arithmetic: it does not raise; it prints nothing but its prompt; a
    blank line returns a new empty list, any other line the output buffer
    itself; the functions are left without arithmetic. *)
Lemma execute_outcome :
  forall fuel line sp w,
    plain_text line = true -> plain_state (self w) = true ->
    match execute fuel line sp w with
    | Ok r w' =>
        statement_effect (strip line) w w'
        /\ stdout w' = (if is_empty (strip line) then stdout w
                        else stdout (prompted sp (strip line) w))
        /\ (scratch_clear (self w) -> scratch_clear (self w'))
        /\ (if is_empty (strip line) then list_get r w' = [] /\ r <> output_lines (self w')
            else r = output_lines (self w'))
        /\ (calm w w' \/ (r = output_lines (self w') /\ loud w'))
        /\ plain_state (self w') = true
    | Raise _ _ => False
    | OutOfFuel => True
    end.
Proof.
  induction fuel as [|n IH]; intros line sp w Pl Ps; [exact I|].
  destruct (is_empty (strip line)) eqn:E.
  - rewrite execute_empty by assumption.
    assert (C : calm w (mkWorld (set_output_lines (length (heap w)) (self w))
                                ((heap w ++ [[]]) ++ [[]]) (rng_pos w) (stdout w)))
      by effect_prim.
    split; [left; exact C|]. split; [reflexivity|]. split; [auto|].
    split; [|split; [left; exact C|exact Ps]]. cbn_state. split; [|lia].
    unfold list_get. cbn [heap]. rewrite app_nth2 by (rewrite length_app; cbn; lia).
    rewrite length_app. cbn [length]. now replace (S (length (heap w)) - (length (heap w) + 1))%nat with 0%nat by lia.
  - rewrite execute_nonempty by assumption.
    assert (T : tame (fun l => execute n l false)).
    { intros l0 w0 Pl0 Ps0. specialize (IH l0 false w0 Pl0 Ps0).
      destruct (execute n l0 false w0) as [r w'|e w'|]; [|exact IH|exact I].
      destruct IH as (I1 & I2 & I3 & I4 & I5 & I6). split; [exact I1|].
      split; [|split; [|split; [exact I5|exact I6]]].
      - split; [|exact I3]. rewrite I2. now destruct (is_empty (strip l0)).
      - destruct (is_empty (strip l0)); [apply I4|exact I4]. }
    pose proof (plain_strip _ Pl) as Pl'.
    pose proof (execute_line_outcome (fun l => execute n l false) n (strip line)
                  (prompted sp (strip line) (fresh_buffer w))
                  (fresh_buffer_valid _ _ _)) as F.
    pose proof (execute_line_plain (fun l => execute n l false) n (strip line)
                  (prompted sp (strip line) (fresh_buffer w)) T Pl') as G.
    rewrite plain_from_start in G. specialize (G Ps).
    rewrite plain_from_start, evaluates_from_start in F.
    assert (F' := F (fun _ => conj T (conj Pl' Ps))
                    ltac:(unfold evaluates; rewrite (plain_not_math _ Pl'); apply andb_false_r)).
    clear F. rename F' into F.
    unfold line_outcome in F.
    destruct (_execute_line _ n (strip line) _) as [[] w'|e w'|]; [| |exact I].
    + cbn [finish]. destruct F as (F1 & [F2 F3] & F4).
      split; [eapply effect_from_start; exact F1|].
      split; [now rewrite F2, stdout_prompted_fresh|].
      split; [intro Sc; apply F3; now apply scratch_from_start|].
      split; [reflexivity|]. split; [|exact G].
      destruct F4 as [F4|F4]; [left; eapply calm_from_start; exact F4|right; auto].
    + destruct F as (F1 & [F2 F3] & F4). rewrite finish_raise by exact F4. cbn_state.
      split; [eapply effect_from_start; exact F1|].
      split; [now rewrite F2, stdout_prompted_fresh|].
      split; [intro Sc; apply F3; now apply scratch_from_start|].
      split; [reflexivity|]. split; [|exact G].
      right. split; [reflexivity|]. apply loud_append; [reflexivity|exact F4|reflexivity].
Qed.

Lemma execute_tame : forall fuel, tame (fun l => execute fuel l false).
Proof.
  intros fuel l w Pl Ps. pose proof (execute_outcome fuel l false w Pl Ps) as O.
  destruct (execute fuel l false w) as [r w'|e w'|]; [|exact O|exact I].
  destruct O as (I1 & I2 & I3 & I4 & I5 & I6). split; [exact I1|].
  split; [|split; [|split; [exact I5|exact I6]]].
  - split; [|exact I3]. rewrite I2. now destruct (is_empty (strip l)).
  - destruct (is_empty (strip l)); [apply I4|exact I4].
Qed.



(** X1: where no arithmetic is met, [execute] never raises.  For a line
    without [&], the functions holding none either, it returns and leaves
    the functions so.  For a blank line it returns a new empty list, which
    is not the output buffer, and leaves every other attribute, the random
    source and the printed text as they were; for any other line the list
    it returns is the output buffer itself. *)
Theorem X1_execute_never_raises :
  forall fuel line show_prompt w,
    plain_text line = true -> plain_state (self w) = true ->
    match execute fuel line show_prompt w with
    | Ok r w' =>
        plain_state (self w') = true
        /\ (if is_empty (strip line)
            then list_get r w' = [] /\ r <> output_lines (self w')
                 /\ same_attributes (self w) (self w')
                 /\ rng_pos w' = rng_pos w /\ stdout w' = stdout w
            else r = output_lines (self w'))
    | Raise _ _ => False
    | OutOfFuel => True
    end.
Proof.
  intros fuel line sp w Pl Ps. pose proof (execute_outcome fuel line sp w Pl Ps) as O.
  destruct fuel as [|n]; [exact I|].
  destruct (is_empty (strip line)) eqn:E.
  - rewrite execute_empty in * by assumption.
    destruct O as (_ & _ & _ & (O1 & O2) & _ & O3).
    split; [exact O3|]. split; [exact O1|]. split; [exact O2|].
    split; [|split; reflexivity]. unfold same_attributes. cbn. tauto.
  - destruct (execute (S n) line sp w) as [r w'|e w'|]; [|exact O|exact I].
    split; apply O.
Qed.

(** ** Definitions typed line by line *)

Lemma prompted_in_function :
  forall sp l w, in_function (self w) = true -> prompted sp l w = w.
Proof. intros sp l w E. unfold prompted. rewrite E. now rewrite andb_false_r. Qed.

(** While a definition is open, a line that does not begin with the marker
    is kept for the body. *)
Lemma collect_line :
  forall n line sp w,
    in_function (self w) = true ->
    is_empty (strip line) = false ->
    startswith (u "¢.") (strip line) = false ->
    execute (S n) line sp w
    = Ok (length (heap w))
         (mkWorld (set_output_lines (length (heap w))
                     (set_current_function_lines
                        (current_function_lines (self w) ++ [strip line]) (self w)))
                  (heap w ++ [[]]) (rng_pos w) (stdout w)).
Proof.
  intros n line sp w Hin Hne Hs.
  rewrite execute_nonempty by assumption.
  rewrite prompted_in_function by exact Hin.
  unfold _execute_line, bind, gets. cbn [fresh_buffer self in_function set_output_lines].
  rewrite Hin, Hs. reflexivity.
Qed.

(** X2: while a definition is open, a non-blank line that does not begin
    with the definition marker is not executed, whatever it is: it is
    appended, stripped, to the body at hand; nothing is returned, nothing
    is printed (not even the prompt), and nothing else changes. *)
Theorem X2_definition_mode_collects :
  forall fuel line show_prompt w,
    in_function (self w) = true ->
    is_empty (strip line) = false ->
    startswith (u "¢.") (strip line) = false ->
    exists r w',
      execute (S fuel) line show_prompt w = Ok r w'
      /\ list_get r w' = []
      /\ self w' = set_output_lines r
                     (set_current_function_lines
                        (current_function_lines (self w) ++ [strip line]) (self w))
      /\ rng_pos w' = rng_pos w /\ stdout w' = stdout w.
Proof.
  intros fuel line sp w Hin Hne Hs. eexists _, _.
  split; [now apply collect_line|].
  split; [|repeat split]. unfold list_get. cbn [heap].
  rewrite app_nth2 by lia. now rewrite Nat.sub_diag.
Qed.

Lemma match_def_prefix :
  forall l name ps, re_match_def l = Some (name, ps) -> startswith (u "¢.") l = true.
Proof.
  intros l name ps E. unfold re_match_def in E.
  destruct (startswith (u "¢.") l); [reflexivity|discriminate].
Qed.

(** A well-formed header begins a definition, also while one is open. *)
Lemma dispatch_header :
  forall exec fuel l w,
    startswith (u "¢.") l = true ->
    contains (u "¢.End") l = false ->
    endswith (u ")") l = true ->
    _execute_line exec fuel l w = _start_function_def l w.
Proof.
  intros exec fuel l w Hs Hc He. unfold _execute_line, bind, gets.
  destruct (def_marker_prefix _ Hs) as [E1 E2].
  rewrite Hs, E1, E2, Hc, He. cbn [negb andb]. now rewrite andb_false_r.
Qed.

Lemma dispatch_end :
  forall exec fuel w, _execute_line exec fuel (u "¢.End") w = _end_function_def w.
Proof.
  intros exec fuel w. unfold _execute_line, bind, gets.
  destruct (in_function (self w)); reflexivity.
Qed.

Lemma strip_End : strip (u "¢.End") = u "¢.End".
Proof. reflexivity. Qed.

Lemma collect_lines :
  forall fuel body rest w,
    in_function (self w) = true ->
    Forall (fun l => is_empty (strip l) = false /\ startswith (u "¢.") (strip l) = false) body ->
    exists w1,
      execute_each (S fuel) (body ++ rest) w = execute_each (S fuel) rest w1
      /\ in_function (self w1) = true
      /\ current_function_lines (self w1) = current_function_lines (self w) ++ map strip body
      /\ current_function_name (self w1) = current_function_name (self w)
      /\ current_function_params (self w1) = current_function_params (self w)
      /\ functions (self w1) = functions (self w)
      /\ calm w w1.
Proof.
  intros fuel body rest. induction body as [|l body IH]; intros w Hin Hb.
  - exists w. cbn [app map]. rewrite app_nil_r. split_all; auto. apply inv_refl.
  - inversion Hb as [|? ? [Hne Hs] Hb']; subst.
    cbn [app execute_each]. rewrite collect_line by assumption.
    match goal with
    | |- context [execute_each _ (body ++ rest) ?w0] =>
        destruct (IH w0 Hin Hb') as (w1 & E & I1 & I2 & I3 & I4 & I5 & I6)
    end.
    exists w1. split; [exact E|]. split; [exact I1|].
    cbn_all. split; [|split_all; auto].
    rewrite I2. cbn [map]. now rewrite <- app_assoc.
Qed.

(** X3: a definition typed line by line is stored as it was typed.  A
    well-formed header that ends with the closing parenthesis and does not
    hold the terminator (also while another definition is open), then body
    lines that are not blank and do not begin with the definition marker,
    then the terminator: the function table holds the function under its
    name, with the header's parameters and the stripped body lines in
    order; the terminator returns the confirmation line, and no statement
    of the body was executed. *)
Theorem X3_definition_round_trip :
  forall fuel header body w name ps,
    re_match_def (strip header) = Some (name, ps) ->
    endswith (u ")") (strip header) = true ->
    contains (u "¢.End") (strip header) = false ->
    Forall (fun l => is_empty (strip l) = false /\ startswith (u "¢.") (strip l) = false)
           body ->
    exists w',
      execute_each (S fuel) (header :: body ++ [u "¢.End"]) w = Some w'
      /\ functions (self w')
         = dict_set name (mkFunction name (header_params ps) (map strip body))
                    (functions (self w))
      /\ dict_get name (functions (self w'))
         = Some (mkFunction name (header_params ps) (map strip body))
      /\ in_function (self w') = false
      /\ list_get (output_lines (self w')) w' = [u "[函] ¢." ++ name ++ u " 定义完成"]
      /\ calm w w'.
Proof.
  intros fuel header body w name ps Hm He Hc Hb.
  pose proof (match_def_prefix _ _ _ Hm) as Hs.
  cbn [execute_each].
  rewrite execute_nonempty by (revert Hs; eval_u; apply nonempty_of_prefix).
  rewrite dispatch_header by assumption.
  unfold _start_function_def. rewrite Hm. run_m. cbn [finish].
  match goal with
  | |- context [execute_each _ (body ++ _) ?w0] =>
      destruct (collect_lines fuel body [u "¢.End"] w0 eq_refl Hb)
        as (w1 & E & I1 & I2 & I3 & I4 & I5 & I6)
  end.
  rewrite E. cbn [execute_each].
  rewrite execute_nonempty by reflexivity. rewrite strip_End, dispatch_end.
  rewrite prompted_in_function by exact I1.
  unfold _end_function_def. run_m. cbn [finish execute_each].
  eexists. split; [reflexivity|]. cbn_all.
  rewrite self_prompted in *. cbn_all. unfold fresh_buffer in *. cbn_all.
  rewrite I2, I3, I4, I5. cbn [app].
  split; [reflexivity|]. split.
  { destruct (dict_get_set _ (functions (self w)) name
                (mkFunction name (header_params ps) (map strip body))) as (k' & G & _).
    exact G. }
  split; [reflexivity|]. split.
  - unfold list_get. cbn [heap]. rewrite heap_append_same by (rewrite length_app; cbn; lia).
    rewrite app_nth2 by lia. now rewrite Nat.sub_diag.
  - unfold calm in *. rewrite !rng_prompted in I6. cbn_all.
    decompose [and] I6. split_all; auto. apply keys_kept_set.
Qed.

(** ** [strip] *)

Lemma dropwhile_head :
  forall p s, match dropwhile p s with [] => True | c :: _ => p c = false end.
Proof.
  intros p. induction s as [|c s IH]; cbn [dropwhile]; [exact I|].
  destruct (p c) eqn:E; [exact IH|exact E].
Qed.

Lemma dropwhile_fixed :
  forall p s, match s with [] => True | c :: _ => p c = false end -> dropwhile p s = s.
Proof. intros p [|c s] E; cbn [dropwhile]; [reflexivity|now rewrite E]. Qed.

Lemma dropwhile_snoc :
  forall p s c, p c = false -> dropwhile p (s ++ [c]) = dropwhile p s ++ [c].
Proof.
  intros p s c E. induction s as [|d s IH]; cbn [app dropwhile].
  - now rewrite E.
  - destruct (p d); [exact IH|reflexivity].
Qed.

(** Stripping twice is stripping once. *)
Lemma strip_strip : forall s, strip (strip s) = strip s.
Proof.
  intro s. unfold strip.
  pose proof (dropwhile_head is_space s) as Hh.
  destruct (dropwhile is_space s) as [|c t]; [reflexivity|].
  cbn [rev]. rewrite (dropwhile_snoc _ _ _ Hh), rev_app_distr. cbn [rev app].
  cbn [dropwhile]. rewrite Hh. cbn [rev].
  rewrite rev_involutive.
  rewrite (dropwhile_snoc _ _ _ Hh).
  pose proof (dropwhile_head is_space (rev t)) as Hr.
  destruct (dropwhile is_space (rev t)) as [|d t'] eqn:Et.
  - reflexivity.
  - cbn [app]. cbn [dropwhile]. rewrite Hr, rev_app_distr. reflexivity.
Qed.

Lemma execute_strip :
  forall fuel l sp w, execute fuel (strip l) sp w = execute fuel l sp w.
Proof.
  intros [|n] l sp w; [reflexivity|].
  cbn [execute]. unfold execute_with. now rewrite strip_strip.
Qed.

(** ** Scripts *)

Lemma set_lines_same :
  forall s, set_current_function_lines (current_function_lines s) s = s.
Proof. now destruct s. Qed.

(** The inner loop of [run_script] keeps every line up to the terminator. *)
Lemma run_collecting :
  forall fuel verbose body rest w,
    Forall (fun l => str_eqb (strip l) (u "¢.End") = false) body ->
    run_lines fuel verbose true (body ++ rest) w
    = run_lines fuel verbose true rest
        (mkWorld (set_current_function_lines
                    (current_function_lines (self w) ++ map strip body) (self w))
                 (heap w) (rng_pos w) (stdout w)).
Proof.
  intros fuel verbose body rest. induction body as [|l body IH]; intros w Hb.
  - cbn [app map]. rewrite app_nil_r, set_lines_same. now destruct w.
  - inversion Hb as [|? ? Hl Hb']; subst.
    cbn [app run_lines]. rewrite Hl. unfold bind at 1. cbn [modify].
    rewrite IH by assumption. cbn_state. cbn [map]. now rewrite <- app_assoc.
Qed.

(** X4: in a script that begins with a well-formed header, the lines up to
    the first one that strips to the terminator define a function: its body
    is every line in between, stripped, blank lines and lines that begin with
    the marker included; none of them is executed, nothing is printed for
    the definition, and the script goes on with the lines after the
    terminator. *)
Theorem X4_script_definition :
  forall fuel code verbose w header body stop rest name ps,
    in_function (self w) = false ->
    split 10%N (strip code) = header :: body ++ stop :: rest ->
    re_match_def (strip header) = Some (name, ps) ->
    Forall (fun l => str_eqb (strip l) (u "¢.End") = false) body ->
    str_eqb (strip stop) (u "¢.End") = true ->
    exists w1,
      run_script fuel code verbose w = run_lines fuel verbose false rest w1
      /\ functions (self w1)
         = dict_set name (mkFunction name (header_params ps) (map strip body))
                    (functions (self w))
      /\ in_function (self w1) = false
      /\ stdout w1 = stdout w
      /\ calm w w1.
Proof.
  intros fuel code verbose w header body stop rest name ps Hin Hsp Hm Hb Hst.
  pose proof (match_def_prefix _ _ _ Hm) as Hs.
  unfold run_script. rewrite Hsp. cbn [run_lines].
  replace (is_empty (strip header)) with false
    by (symmetry; revert Hs; eval_u; apply nonempty_of_prefix).
  unfold bind at 1. cbn [gets]. rewrite Hin, Hs. cbn [negb andb].
  unfold bind at 1. unfold _start_function_def. rewrite Hm. run_m.
  rewrite run_collecting by assumption. cbn [run_lines]. rewrite Hst.
  unfold bind at 1. unfold _end_function_def. run_m.
  eexists. split; [reflexivity|]. cbn_state. cbn [app].
  split; [reflexivity|]. split; [reflexivity|]. split; [reflexivity|].
  effect_prim.
Qed.

(** X5: a definition that is not terminated takes the rest of the script:
    when a script begins with a well-formed header and no line after it
    strips to the terminator, the script ends normally without having
    executed or printed anything, no function is stored, and the interpreter
    is left inside the definition with all those lines as the body at
    hand. *)
Theorem X5_unterminated_definition :
  forall fuel code verbose w header body name ps,
    in_function (self w) = false ->
    split 10%N (strip code) = header :: body ->
    re_match_def (strip header) = Some (name, ps) ->
    Forall (fun l => str_eqb (strip l) (u "¢.End") = false) body ->
    exists w',
      run_script fuel code verbose w = Ok tt w'
      /\ in_function (self w') = true
      /\ current_function_name (self w') = name
      /\ current_function_lines (self w') = map strip body
      /\ functions (self w') = functions (self w)
      /\ calm w w'
      /\ heap w' = heap w /\ stdout w' = stdout w.
Proof.
  intros fuel code verbose w header body name ps Hin Hsp Hm Hb.
  pose proof (match_def_prefix _ _ _ Hm) as Hs.
  unfold run_script. rewrite Hsp. cbn [run_lines].
  replace (is_empty (strip header)) with false
    by (symmetry; revert Hs; eval_u; apply nonempty_of_prefix).
  unfold bind at 1. cbn [gets]. rewrite Hin, Hs. cbn [negb andb].
  unfold bind at 1. unfold _start_function_def. rewrite Hm. run_m.
  match goal with
  | |- context [run_lines _ _ true body ?w0] =>
      pose proof (run_collecting fuel verbose body [] w0 Hb) as RC
  end.
  rewrite app_nil_r in RC. rewrite RC.
  cbn [run_lines ret]. eexists. split; [reflexivity|]. cbn_state. cbn [app].
  split_all; try reflexivity. effect_prim.
Qed.

(** The steps of [run_script] that are not an [execute] keep the functions
    without arithmetic. *)
Lemma plain_after_end :
  forall s o,
    plain_state s = true ->
    plain_state
      (set_current_function_lines []
         (set_current_function_params []
            (set_current_function_name []
               (set_in_function false
                  (set_output_lines o
                     (set_functions
                        (dict_set (current_function_name s)
                           (mkFunction (current_function_name s) (current_function_params s)
                              (current_function_lines s)) (functions s)) s))))))
    = true.
Proof.
  intros s o Ps. unfold plain_state in *. apply andb_prop in Ps as [Pf Pc]. cbn_state.
  rewrite plain_dict_set; [reflexivity|exact Pf|exact Pc].
Qed.

Lemma plain_after_collect :
  forall s l,
    plain_state s = true -> plain_text l = true ->
    plain_state (set_current_function_lines (current_function_lines s ++ [l]) s) = true.
Proof.
  intros s l Ps Pl. unfold plain_state in *. apply andb_prop in Ps as [Pf Pc]. cbn_state.
  rewrite Pf, plain_lines_app, Pc. cbn [plain_lines forallb]. now rewrite Pl.
Qed.

Lemma plain_after_start :
  forall s name ps,
    plain_state s = true ->
    plain_state
      (set_in_function true
         (set_current_function_lines []
            (set_current_function_params ps (set_current_function_name name s))))
    = true.
Proof.
  intros s name ps Ps. unfold plain_state in *. apply andb_prop in Ps as [Pf Pc].
  cbn_state. now rewrite Pf.
Qed.

Lemma plain_lines_cons :
  forall l rest,
    plain_lines (l :: rest) = true ->
    plain_text (strip l) = true /\ plain_lines rest = true.
Proof.
  intros l rest P. cbn [plain_lines forallb] in P. apply andb_prop in P as [P1 P2].
  split; [now apply plain_strip|exact P2].
Qed.



Lemma run_lines_plain :
  forall fuel lines w,
    plain_lines lines = true -> plain_state (self w) = true ->
    Forall (fun l => startswith (u "¢.") (strip l) = false) lines ->
    match run_lines fuel false false lines w with
    | Ok _ w' =>
        execute_each fuel (filter (fun l => negb (is_empty (strip l))) lines) w = Some w'
    | Raise _ _ => False
    | OutOfFuel =>
        execute_each fuel (filter (fun l => negb (is_empty (strip l))) lines) w = None
    end.
Proof.
  intros fuel. induction lines as [|l rest IH]; intros w Pl Ps Hl; [reflexivity|].
  apply plain_lines_cons in Pl as [Pl Pr].
  inversion Hl as [|? ? Hs Hl']; subst. cbn [run_lines filter].
  destruct (is_empty (strip l)) eqn:E; cbn [negb]; [now apply IH|].
  unfold bind at 1. cbn [gets]. rewrite Hs. cbn [andb]. unfold bind at 1.
  cbn [execute_each]. rewrite <- (execute_strip fuel l false w).
  pose proof (execute_outcome fuel (strip l) false w Pl Ps) as O.
  destruct (execute fuel (strip l) false w) as [r w1|e w1|]; [|contradiction|reflexivity].
  unfold bind at 1, ret. apply IH; [exact Pr|apply O|exact Hl'].
Qed.

(** X7: where no arithmetic is met, a script none of whose lines begins
    with the definition marker is its non-blank lines given to [execute] one
    after the other: run without printing, it ends in the same state, it
    gives no answer exactly when one of these executions gives none, and it
    never raises. *)
Theorem X7_script_without_definitions :
  forall fuel code w,
    plain_text code = true -> plain_state (self w) = true ->
    Forall (fun l => startswith (u "¢.") (strip l) = false) (split 10%N (strip code)) ->
    match run_script fuel code false w with
    | Ok _ w' =>
        execute_each fuel (filter (fun l => negb (is_empty (strip l)))
                                  (split 10%N (strip code))) w = Some w'
    | Raise _ _ => False
    | OutOfFuel =>
        execute_each fuel (filter (fun l => negb (is_empty (strip l)))
                                  (split 10%N (strip code))) w = None
    end.
Proof.
  intros fuel code w Pc Ps Hl. apply run_lines_plain; [|exact Ps|exact Hl].
  now apply plain_split, plain_strip.
Qed.

Lemma run_lines_steady :
  forall fuel verbose lines collecting w,
    plain_lines lines = true -> plain_state (self w) = true ->
    (collecting = true -> in_function (self w) = true) ->
    match run_lines fuel verbose collecting lines w with
    | Ok _ w' | Raise _ w' =>
        (verbose = false -> stdout w' = stdout w)
        /\ (scratch_clear (self w) -> scratch_clear (self w'))
    | OutOfFuel => True
    end.
Proof.
  intros fuel verbose. induction lines as [|l rest IH]; intros collecting w Pl Ps Hc.
  - cbn. auto.
  - apply plain_lines_cons in Pl as [Pl Pr].
    assert (K : forall c w1,
               plain_state (self w1) = true ->
               (c = true -> in_function (self w1) = true) ->
               (verbose = false -> stdout w1 = stdout w) ->
               (scratch_clear (self w) -> scratch_clear (self w1)) ->
               match run_lines fuel verbose c rest w1 with
               | Ok _ w' | Raise _ w' =>
                   (verbose = false -> stdout w' = stdout w)
                   /\ (scratch_clear (self w) -> scratch_clear (self w'))
               | OutOfFuel => True
               end).
    { intros c w1 P1 H1 H2 H3. specialize (IH c w1 Pr P1 H1).
      destruct (run_lines fuel verbose c rest w1) as [a w'|e w'|]; [| |exact I];
        (destruct IH as [I1 I2]; split; [intro V; rewrite (I1 V); now apply H2|auto]). }
    cbn [run_lines]. destruct collecting.
    + specialize (Hc eq_refl). destruct (str_eqb (strip l) (u "¢.End")).
      * unfold bind at 1. unfold _end_function_def. run_m.
        apply K; [cbn_state; now apply plain_after_end|discriminate|reflexivity|].
        intros _ _. cbn. auto.
      * unfold bind at 1. cbn [modify].
        apply K; [cbn_state; now apply plain_after_collect|intros _; exact Hc|reflexivity|].
        intros _ Hf. cbn in Hf. congruence.
    + destruct (is_empty (strip l)); [apply K; auto; discriminate|].
      unfold bind at 1. cbn [gets].
      destruct (startswith (u "¢.") (strip l) && negb (in_function (self w))).
      * unfold bind at 1. unfold _start_function_def.
        destruct (re_match_def (strip l)) as [[name ps]|].
        -- run_m.
           apply K; [cbn_state; now apply plain_after_start|reflexivity|reflexivity|].
           intros _ Hf. cbn in Hf. discriminate.
        -- cbn [raise]. auto.
      * unfold bind at 1.
        pose proof (execute_outcome fuel (strip l) false w Pl Ps) as O.
        destruct (execute fuel (strip l) false w) as [r w1|e w1|]; [|contradiction|exact I].
        destruct O as (_ & O2 & O3 & _ & _ & O6).
        assert (Es : stdout w1 = stdout w).
        { rewrite O2. now destruct (is_empty (strip (strip l))). }
        destruct verbose; unfold bind at 1, print_all, ret.
        -- apply K; [exact O6|discriminate|discriminate|exact O3].
        -- apply K; [exact O6|discriminate|intros _; exact Es|exact O3].
Qed.

(** X8: where no arithmetic is met, nothing is printed behind the caller's
    back.  [execute] prints the echo of the line after the prompt, and only
    when it is asked to, the line is not blank and no definition is open;
    [run_script] without [verbose] prints nothing, function calls
    included. *)
Theorem X8_what_is_printed :
  (forall fuel line show_prompt w,
      plain_text line = true -> plain_state (self w) = true ->
      match execute fuel line show_prompt w with
      | Ok _ w' =>
          stdout w'
          = stdout w
            ++ (if show_prompt && negb (in_function (self w)) && negb (is_empty (strip line))
                then [u "hps> " ++ strip line] else [])
      | Raise _ _ => False
      | OutOfFuel => True
      end)
  /\ (forall fuel code w,
        plain_text code = true -> plain_state (self w) = true ->
        match run_script fuel code false w with
        | Ok _ w' | Raise _ w' => stdout w' = stdout w
        | OutOfFuel => True
        end).
Proof.
  split.
  - intros fuel line sp w Pl Ps. pose proof (execute_outcome fuel line sp w Pl Ps) as O.
    destruct (execute fuel line sp w) as [r w'|e w'|]; [|exact O|exact I].
    destruct O as (_ & O2 & _). rewrite O2. unfold prompted.
    destruct (is_empty (strip line)); [now rewrite andb_false_r, app_nil_r|].
    rewrite andb_true_r.
    destruct (sp && negb (in_function (self w))); [reflexivity|now rewrite app_nil_r].
  - intros fuel code w Pc Ps. unfold run_script.
    pose proof (run_lines_steady fuel false (split 10%N (strip code)) false w
                  (plain_split _ _ (plain_strip _ Pc)) Ps ltac:(discriminate)) as S.
    destruct (run_lines fuel false false _ w) as [a w'|e w'|]; [| |exact I];
      now apply S.
Qed.

(** X9: the attributes of the definition at hand are empty whenever no
    definition is open.  This holds of a new interpreter and, where no
    arithmetic is met, is kept by every [execute] and every [run_script],
    however they end. *)
Theorem X9_no_definition_left_behind :
  scratch_clear (self new_interpreter)
  /\ (forall fuel line show_prompt w,
        plain_text line = true -> plain_state (self w) = true ->
        scratch_clear (self w) ->
        match execute fuel line show_prompt w with
        | Ok _ w' => scratch_clear (self w')
        | Raise _ _ => False
        | OutOfFuel => True
        end)
  /\ (forall fuel code verbose w,
        plain_text code = true -> plain_state (self w) = true ->
        scratch_clear (self w) ->
        match run_script fuel code verbose w with
        | Ok _ w' | Raise _ w' => scratch_clear (self w')
        | OutOfFuel => True
        end).
Proof.
  split; [|split].
  - intros _. cbn. auto.
  - intros fuel line sp w Pl Ps Sc. pose proof (execute_outcome fuel line sp w Pl Ps) as O.
    destruct (execute fuel line sp w) as [r w'|e w'|]; [|exact O|exact I].
    now apply O.
  - intros fuel code verbose w Pc Ps Sc. unfold run_script.
    pose proof (run_lines_steady fuel verbose (split 10%N (strip code)) false w
                  (plain_split _ _ (plain_strip _ Pc)) Ps ltac:(discriminate)) as S.
    destruct (run_lines fuel verbose false _ w) as [a w'|e w'|]; [| |exact I];
      now apply S.
Qed.

(** ** What each kind of statement may change *)

(** X10: where no arithmetic is met, every attribute has its own
    statements.  Whatever line without [&] [execute] is given, function
    calls included, if it returns and the line is not the reset command,
    then: the inventory, the pity counter and the position in the random
    source are as before unless the line begins with [<]; the pools are as
    before unless it begins with an opening parenthesis; the plain and the
    currency variables are as before unless it begins with [#].  A call is
    no exception, because a call whose body line did any of this got a line
    to copy, and its copy loop does not end. *)
Theorem X10_statement_footprint :
  forall fuel line show_prompt w,
    plain_text line = true -> plain_state (self w) = true ->
    strip line <> u "/reset" ->
    match execute fuel line show_prompt w with
    | Ok _ w' =>
        (startswith (u "<") (strip line) = false ->
         inventory (self w') = inventory (self w)
         /\ pity_counter (self w') = pity_counter (self w)
         /\ rng_pos w' = rng_pos w)
        /\ (startswith (u "(") (strip line) = false -> pools (self w') = pools (self w))
        /\ (startswith (u "#") (strip line) = false ->
            variables (self w') = variables (self w)
            /\ currency (self w') = currency (self w))
    | Raise _ _ => False
    | OutOfFuel => True
    end.
Proof.
  intros fuel line sp w Pl Ps Hr. pose proof (execute_outcome fuel line sp w Pl Ps) as O.
  destruct (execute fuel line sp w) as [r w'|e w'|]; [|exact O|exact I].
  destruct O as (O & _).
  destruct O as [C|[(E & D & _)|[[E P]|[[E A]|R]]]]; [| | | |contradiction].
  - unfold calm in C. decompose [and] C. auto.
  - unfold draw_effect in D. decompose [and] D.
    split; [intro N; congruence|]. auto.
  - unfold pool_effect in P. decompose [and] P.
    split; [auto|]. split; [intro N; congruence|auto].
  - unfold assign_effect in A. decompose [and] A.
    split; [auto|]. split; [auto|intro N; congruence].
Qed.

Lemma effect_evolves :
  forall l w w', l <> u "/reset" -> statement_effect l w w' -> evolves w w'.
Proof.
  intros l w w' Hr [C|[(E & D & _)|[[E P]|[[E A]|R]]]]; [| | | |contradiction]; unfold evolves.
  - unfold calm in C. destruct C as (C1 & C2 & C3 & C4 & _ & _ & _ & C8).
    rewrite C1, C2, C3, C4. split_all; auto using keys_kept_refl, extends_refl.
  - unfold draw_effect in D. destruct D as (D1 & D2 & D3 & D4 & D5).
    rewrite D1, D2, D3, D4. split_all; auto using keys_kept_refl.
  - unfold pool_effect in P. destruct P as (P1 & P2 & P3 & _ & _ & P6 & _ & P8).
    rewrite P1, P2, P3, P6. split_all; auto using keys_kept_refl, extends_refl.
  - unfold assign_effect in A. destruct A as (A1 & A2 & _ & _ & A5 & _ & A7 & A8).
    rewrite A1, A2, A5. split_all; auto using keys_kept_refl, extends_refl.
Qed.

#[local] Instance evolves_invariant : Invariant evolves.
Proof.
  split.
  - intro w. unfold evolves. split_all; auto using keys_kept_refl, extends_refl.
  - intros a b c Hab Hbc. unfold evolves in *.
    decompose [and] Hab. decompose [and] Hbc. split_all; chain.
Qed.

(** X11: where no arithmetic is met, nothing is lost but by a reset.  Along
    statements without [&] that returned, none of them the reset command,
    function calls included, the inventory only gets longer at its end, and
    a name that is a pool, a function, a plain variable or a currency
    variable stays one. *)
Theorem X11_nothing_is_lost :
  forall w w', exec_seq w w' -> plain_state (self w) = true -> evolves w w'.
Proof.
  induction 1 as [w|fuel line sp w r w1 w2 Pl Hr He Hs IH]; intro Ps; [apply inv_refl|].
  pose proof (execute_outcome fuel line sp w Pl Ps) as O. rewrite He in O.
  eapply inv_trans; [|apply IH, O].
  destruct O as (O & _). eapply effect_evolves; [|exact O].
  intro E. rewrite E, str_eqb_refl in Hr. discriminate.
Qed.

(** ** Draws *)

Lemma draw_loop_items :
  forall n draw max_pity target pool w,
    match draw_loop n draw max_pity target pool w with
    | Ok (Returned k) w' =>
        draw <= k /\ inventory (self w') = inventory (self w) ++ [target]
        /\ Z.of_nat (rng_pos w') = Z.of_nat (rng_pos w) + (k - draw) + 2
    | Ok (Broke k) w' =>
        draw <= k
        /\ Z.of_nat (rng_pos w') = Z.of_nat (rng_pos w) + (k - draw) + 2
        /\ exists drawn, In drawn (items pool) /\ drawn <> target
                         /\ inventory (self w') = inventory (self w) ++ [drawn]
    | Ok Exhausted w' =>
        inventory (self w') = inventory (self w) /\ rng_pos w' = (rng_pos w + n)%nat
    | Raise _ w' => inventory (self w') = inventory (self w)
    | OutOfFuel => False
    end.
Proof.
  induction n as [|n IH]; intros draw max_pity target pool w.
  - cbn. split; [reflexivity|lia].
  - cbn [draw_loop]. unfold bind at 1. cbn [modify].
    unfold bind at 1. cbn [gets self pity_counter set_pity_counter].
    unfold bind at 1. unfold lift.
    destruct (attempt_prob (total_prob pool) (pity_counter (self w) + 1)) as [e|p];
      [reflexivity|].
    cbn [ret]. unfold bind at 1. unfold random_random, next_random, bind at 1.
    cbn [ret self heap rng_pos stdout].
    destruct (flt _ p).
    + unfold random_choice. destruct (items pool) as [|it its] eqn:Ei; [reflexivity|].
      run_m.
      set (drawn := nth _ (it :: its) it).
      assert (Hin : In drawn (it :: its)).
      { apply nth_In. apply Nat.mod_upper_bound. discriminate. }
      destruct (str_eqb drawn target) eqn:Ed.
      * apply str_eqb_eq in Ed.
        match goal with |- context [if ?c then _ else _] => destruct c end; run_m;
          (split; [lia|split; [now rewrite Ed|lia]]).
      * assert (Hn : drawn <> target).
        { intro E. rewrite E, str_eqb_refl in Ed. discriminate. }
        match goal with |- context [if ?c then _ else _] => destruct c end; run_m;
          (split; [lia|split; [lia|exists drawn; auto]]).
    + specialize (IH (draw + 1) max_pity target pool
                     (mkWorld (set_pity_counter (pity_counter (self w) + 1) (self w))
                              (heap w) (S (rng_pos w)) (stdout w))).
      destruct (draw_loop n (draw + 1) max_pity target pool _) as [e w'|e w'|];
        [|exact IH|exact IH].
      cbn [self rng_pos inventory set_pity_counter] in IH.
      destruct e as [k|k|].
      * destruct IH as (I1 & I2 & I3). split; [lia|split; [exact I2|lia]].
      * destruct IH as (I1 & I2 & I3). split; [lia|split; [lia|exact I3]].
      * destruct IH as (I1 & I2). split; [exact I1|lia].
Qed.

(** X12: a draw on a defined pool that runs to its end puts exactly one
    item at the end of the inventory: the target when the target dropped or
    the cap was exhausted, and otherwise an item of the pool other than the
    target.  It takes one random number for each attempt and one more for
    the item that dropped; a draw that raises adds nothing. *)
Theorem X12_draw_adds_one_item :
  forall line w target rest pname rest' pool,
    re_search_tok (ch "$") line = Some (target, rest) ->
    re_search_tok (ch "#") line = Some (pname, rest') ->
    dict_get pname (pools (self w)) = Some pool ->
    match _execute_target line w with
    | Ok (Returned k) w' =>
        inventory (self w') = inventory (self w) ++ [target]
        /\ Z.of_nat (rng_pos w') = Z.of_nat (rng_pos w) + k + 1
    | Ok (Broke k) w' =>
        Z.of_nat (rng_pos w') = Z.of_nat (rng_pos w) + k + 1
        /\ exists drawn, In drawn (items pool) /\ drawn <> target
                         /\ inventory (self w') = inventory (self w) ++ [drawn]
    | Ok Exhausted w' =>
        inventory (self w') = inventory (self w) ++ [target]
        /\ Z.of_nat (rng_pos w') = Z.of_nat (rng_pos w) + parse_max_pity line
    | Raise _ w' => inventory (self w') = inventory (self w)
    | OutOfFuel => False
    end.
Proof.
  intros line w target rest pname rest' pool Ht Hp Hd.
  pose proof (parse_max_pity_nonneg line) as Hn.
  unfold _execute_target. rewrite Ht. unfold bind at 1. cbn [gets].
  rewrite Hp, Hd. unfold bind at 1. unfold emit, bind at 1. cbn [gets list_append].
  unfold draw_sequence. unfold bind at 1.
  match goal with
  | |- context [draw_loop ?n ?d ?m ?t ?p ?w1] =>
      pose proof (draw_loop_items n d m t p w1) as L; destruct (draw_loop n d m t p w1) as [e w'|e w'|]
  end; cbn [self rng_pos inventory] in L; [|exact L|exact L].
  destruct e as [k|k|]; run_m.
  - destruct L as (L1 & L2 & L3). split; [exact L2|lia].
  - destruct L as (L1 & L2 & L3). split; [lia|exact L3].
  - destruct L as (L1 & L2). split; [now rewrite L1|]. rewrite L2. lia.
Qed.

Lemma dispatch_draw :
  forall exec fuel l w,
    in_function (self w) = false ->
    startswith (u "<") l = true ->
    _execute_line exec fuel l w = (_execute_target l ;; ret tt) w.
Proof.
  intros exec fuel l w Hin Hs. revert Hs. eval_u. intro Hs.
  apply startswith_cons_inv in Hs as (l' & -> & _).
  unfold _execute_line, bind, gets. rewrite Hin. reflexivity.
Qed.

Lemma list_get_emit2 :
  forall s h p o r x y,
    r = output_lines s -> (r < length h)%nat ->
    list_get r (mkWorld s (heap_append r y (heap_append r x h)) p o)
    = nth r h [] ++ [x; y].
Proof.
  intros s h p o r x y E L. unfold list_get. cbn [heap].
  rewrite heap_append_same by now rewrite heap_append_length.
  rewrite heap_append_same by assumption. now rewrite <- app_assoc.
Qed.

Lemma execute_target_zero_cap :
  forall line w target rest pname rest' pool,
    re_search_tok (ch "$") line = Some (target, rest) ->
    re_search_tok (ch "#") line = Some (pname, rest') ->
    dict_get pname (pools (self w)) = Some pool ->
    parse_max_pity line = 0 ->
    exists echo,
      _execute_target line w
      = Ok Exhausted
           (mkWorld (set_pity_counter 0
                       (set_inventory (inventory (self w) ++ [target]) (self w)))
                    (heap_append (output_lines (self w))
                       (u "[!] 保底 | $" ++ target ++ u " | 0抽 ¥0")
                       (heap_append (output_lines (self w)) echo (heap w)))
                    (rng_pos w) (stdout w)).
Proof.
  intros line w target rest pname rest' pool Ht Hp Hd Hz.
  unfold _execute_target. rewrite Ht. unfold bind at 1. cbn [gets].
  rewrite Hp, Hd. cbv zeta. rewrite Hz. unfold draw_sequence.
  change (Z.to_nat 0) with 0%nat. cbn [draw_loop].
  change (0 * 160) with 0. change (str_of_Z 0) with (u "0").
  eexists. run_m. rewrite Z.add_0_r.
  destruct w as [s h p o]. destruct s. reflexivity.
Qed.

(** X13: a cap of zero gives the target for nothing.  Outside a definition,
    a draw line on a defined pool whose cap reads as 0 makes no attempt and
    takes no random number: it returns its echo line and the pity line, puts
    the target into the inventory, leaves [total_spent] as it is and sets
    the pity counter to 0. *)
Theorem X13_zero_cap_grants_the_target :
  forall fuel line show_prompt w target rest pname rest' pool,
    in_function (self w) = false ->
    startswith (u "<") (strip line) = true ->
    re_search_tok (ch "$") (strip line) = Some (target, rest) ->
    re_search_tok (ch "#") (strip line) = Some (pname, rest') ->
    dict_get pname (pools (self w)) = Some pool ->
    parse_max_pity (strip line) = 0 ->
    exists r w' echo,
      execute (S fuel) line show_prompt w = Ok r w'
      /\ list_get r w' = [echo; u "[!] 保底 | $" ++ target ++ u " | 0抽 ¥0"]
      /\ inventory (self w') = inventory (self w) ++ [target]
      /\ total_spent (self w') = total_spent (self w)
      /\ pity_counter (self w') = 0
      /\ rng_pos w' = rng_pos w.
Proof.
  intros fuel line sp w target rest pname rest' pool Hin Hs Ht Hp Hd Hz.
  rewrite execute_nonempty by (revert Hs; eval_u; apply nonempty_of_prefix).
  rewrite dispatch_draw; try assumption; [|now rewrite self_prompted].
  unfold bind at 1.
  destruct (execute_target_zero_cap (strip line)
              (prompted sp (strip line) (fresh_buffer w)) target rest pname rest' pool
              Ht Hp) as (echo & E); [now rewrite self_prompted|exact Hz|].
  rewrite E. cbn [ret finish].
  rewrite ?self_prompted, ?heap_prompted, ?rng_prompted. unfold fresh_buffer. cbn_state.
  eexists _, _, echo. split; [reflexivity|]. cbn_state. split.
  - rewrite list_get_emit2; [|reflexivity|rewrite length_app; cbn; lia].
    rewrite app_nth2 by lia. now rewrite Nat.sub_diag.
  - split_all; reflexivity.
Qed.

(** X14: a draw line that names no item, or no pool that is defined, draws
    nothing.  Outside a definition it returns the one diagnostic line (the
    missing item is looked at first) and leaves every attribute and the
    random source as they were. *)
Theorem X14_draw_without_target_or_pool :
  forall fuel line show_prompt w,
    in_function (self w) = false ->
    startswith (u "<") (strip line) = true ->
    (re_search_tok (ch "$") (strip line) = None ->
     exists r w',
       execute (S fuel) line show_prompt w = Ok r w'
       /\ list_get r w' = [u "[!] 目标: <$雷电,#UP,*90>"]
       /\ same_attributes (self w) (self w') /\ rng_pos w' = rng_pos w)
    /\ (re_search_tok (ch "$") (strip line) <> None ->
        (re_search_tok (ch "#") (strip line) = None
         \/ exists pname rest',
             re_search_tok (ch "#") (strip line) = Some (pname, rest')
             /\ dict_get pname (pools (self w)) = None) ->
        exists r w',
          execute (S fuel) line show_prompt w = Ok r w'
          /\ list_get r w' = [u "[!] 池子未定义"]
          /\ same_attributes (self w) (self w') /\ rng_pos w' = rng_pos w).
Proof.
  intros fuel line sp w Hin Hs.
  assert (Hne : is_empty (strip line) = false)
    by (revert Hs; eval_u; apply nonempty_of_prefix).
  assert (Fin : forall msg,
             _execute_target (strip line) (prompted sp (strip line) (fresh_buffer w))
             = Raise (ValueError msg) (prompted sp (strip line) (fresh_buffer w)) ->
             exists r w',
               execute (S fuel) line sp w = Ok r w'
               /\ list_get r w' = [u "[!] " ++ msg]
               /\ same_attributes (self w) (self w') /\ rng_pos w' = rng_pos w).
  { intros msg E. rewrite execute_nonempty by assumption.
    rewrite dispatch_draw; try assumption; [|now rewrite self_prompted].
    unfold bind at 1. rewrite E, finish_raise by apply fresh_buffer_valid.
    cbn [str_exn]. eexists _, _.
    split; [reflexivity|].
    rewrite list_get_emit by apply fresh_buffer_valid.
    rewrite list_get_fresh. cbn [self rng_pos]. rewrite self_prompted, rng_prompted.
    split; [reflexivity|]. split; [|reflexivity].
    unfold same_attributes. cbn. tauto. }
  split.
  - intro Ht.
    destruct (Fin (u "目标: <$雷电,#UP,*90>")) as (r & w' & E & L & R).
    { unfold _execute_target. now rewrite Ht. }
    exists r, w'. split; [exact E|]. split; [|exact R]. rewrite L. vm_compute. reflexivity.
  - intros Ht Hp.
    destruct (Fin (u "池子未定义")) as (r & w' & E & L & R).
    { unfold _execute_target.
      destruct (re_search_tok (ch "$") (strip line)) as [[target rest]|]; [|congruence].
      unfold bind at 1. cbn [gets].
      destruct Hp as [Hp|(pname & rest' & Hp & Hd)]; rewrite Hp; [reflexivity|].
      rewrite self_prompted. cbn [fresh_buffer self pools set_output_lines].
      now rewrite Hd. }
    exists r, w'. split; [exact E|]. split; [|exact R]. rewrite L. vm_compute. reflexivity.
Qed.

(** ** Assignments *)

Lemma span_eq :
  forall p s a b, span p s = (a, b) -> s = a ++ b /\ Forall (fun c => p c = true) a.
Proof.
  intro p. induction s as [|c s IH]; intros a b E; cbn [span] in E.
  - injection E as <- <-. split; [reflexivity|constructor].
  - destruct (p c) eqn:Ec.
    + destruct (span p s) as [a' b'] eqn:Es. injection E as <- <-.
      destruct (IH _ _ eq_refl) as [-> F]. split; [reflexivity|now constructor].
    + injection E as <- <-. split; [reflexivity|constructor].
Qed.

Lemma dropwhile_suffix : forall p s, exists pre, s = pre ++ dropwhile p s.
Proof.
  intro p. induction s as [|c s [pre IH]]; cbn [dropwhile].
  - now exists [].
  - destruct (p c); [|now exists []]. exists (c :: pre). cbn [app]. now rewrite <- IH.
Qed.

Lemma contains_app :
  forall p a b, contains p b = true -> contains p (a ++ b) = true.
Proof.
  intros p a b E. induction a as [|c a IH]; [exact E|].
  cbn [app contains]. rewrite IH. apply orb_true_r.
Qed.

Lemma contains_here : forall c s, contains [c] (c :: s) = true.
Proof. intros. cbn [contains startswith]. now rewrite N.eqb_refl. Qed.

Lemma marker_is_no_word : is_word (ch "¢") = false.
Proof. reflexivity. Qed.

(** A line that has the shape of an assignment is dispatched as one. *)
Lemma match_assign_dispatch :
  forall l name g,
    re_match_assign l = Some (name, g) ->
    startswith (u "#") l = true /\ contains (u "=") l = true
    /\ startswith (u "#¢") l = false
    /\ name <> [] /\ Forall (fun c => is_word c = true) name.
Proof.
  intros l name g E. unfold re_match_assign in E.
  destruct l as [|c s1]; [discriminate|].
  destruct (c =? 35)%N eqn:Ec; [|discriminate]. apply N.eqb_eq in Ec. subst c.
  destruct (span is_word s1) as [[|n0 name'] s2] eqn:Es; [discriminate|].
  destruct (dropwhile is_space s2) as [|e s3] eqn:Ed; [discriminate|].
  destruct (e =? 61)%N eqn:Ee; [|discriminate]. apply N.eqb_eq in Ee. subst e.
  destruct (spaces_dot_plus s3) as [g'|]; [|discriminate]. injection E as <- <-.
  destruct (span_eq _ _ _ _ Es) as [-> Hw].
  destruct (dropwhile_suffix is_space s2) as [pre Hp]. rewrite Ed in Hp.
  split; [reflexivity|]. split; [|split; [|split; [discriminate|exact Hw]]].
  - eval_u. cbn [contains]. rewrite Hp.
    rewrite (contains_app _ (n0 :: name')); [apply orb_true_r|].
    apply contains_app. apply contains_here.
  - eval_u. cbn [app startswith].
    destruct (N.eqb_spec 162 n0) as [<-|N]; [|cbn [andb]; apply andb_false_r].
    inversion Hw as [|? ? Hc _]. pose proof marker_is_no_word as M.
    change (ch "¢") with 162%N in M. congruence.
Qed.

(** An assignment line outside a definition is [_assign_variable]. *)
Lemma execute_assignment :
  forall n line sp w name g,
    in_function (self w) = false ->
    re_match_assign (strip line) = Some (name, g) ->
    execute (S n) line sp w
    = finish (_assign_variable (strip line) (prompted sp (strip line) (fresh_buffer w))).
Proof.
  intros n line sp w name g Hin Hm.
  destruct (match_assign_dispatch _ _ _ Hm) as (H1 & H2 & H3 & _).
  rewrite execute_nonempty by (revert H1; eval_u; apply nonempty_of_prefix).
  rewrite dispatch_assign; try assumption; [reflexivity|now rewrite self_prompted].
Qed.

Lemma list_get_append :
  forall r s h p o x,
    (r < length h)%nat -> list_get r (mkWorld s (heap_append r x h) p o) = nth r h [] ++ [x].
Proof. intros. unfold list_get. cbn [heap]. now apply heap_append_same. Qed.

Lemma fresh_lines :
  forall sp l w,
    nth (output_lines (self (prompted sp l (fresh_buffer w))))
        (heap (prompted sp l (fresh_buffer w))) [] = [].
Proof. intros. apply list_get_fresh. Qed.

(** Finishes a statement that ended with one line in the new buffer. *)
Ltac one_line :=
  cbn_state;
  rewrite list_get_append by apply fresh_buffer_valid;
  rewrite fresh_lines; cbn [app].

Ltac from_start :=
  rewrite ?self_prompted, ?rng_prompted; unfold fresh_buffer; cbn_state.

Lemma float_error_text :
  forall t,
    u "[!] " ++ (u "could not convert string to float: " ++ t)
    = u "[!] could not convert string to float: " ++ t.
Proof.
  intro t.
  assert (E : u "[!] could not convert string to float: "
              = u "[!] " ++ u "could not convert string to float: ")
    by (vm_compute; reflexivity).
  now rewrite E, <- app_assoc.
Qed.

Lemma plain_assignment :
  forall fuel line show_prompt w name g,
    in_function (self w) = false ->
    re_match_assign (strip line) = Some (name, g) ->
    startswith (u "¥") (strip g) = false ->
    endswith (u "/") (strip g) = false ->
    exists r w',
      execute (S fuel) line show_prompt w = Ok r w'
      /\ list_get r w' = [u "[变] #" ++ name ++ u " = " ++ strip g]
      /\ dict_get name (variables (self w'))
         = Some (match py_float (strip g) with
                 | Some x => VFloat x
                 | None => VStr (strip g)
                 end)
      /\ (forall q, q <> name ->
                    dict_get q (variables (self w')) = dict_get q (variables (self w)))
      /\ currency (self w') = currency (self w)
      /\ assign_effect w w'
      /\ in_function (self w') = false.
Proof.
  intros fuel line sp w name g Hin Hm Hy He.
  rewrite (execute_assignment _ _ _ _ _ _ Hin Hm).
  unfold _assign_variable. rewrite Hm, Hy, He.
  destruct (py_float (strip g)) as [x|]; run_m; cbn [finish];
    (eexists _, _; split; [reflexivity|]; split; [now one_line|]);
    from_start.
  - split; [|split; [|split; [reflexivity|split; [effect_prim|exact Hin]]]].
    + destruct (dict_get_set _ (variables (self w)) name (VFloat x)) as (k' & G & _).
      exact G.
    + intros q Hq. now apply dict_get_set_other.
  - split; [|split; [|split; [reflexivity|split; [effect_prim|exact Hin]]]].
    + destruct (dict_get_set _ (variables (self w)) name (VStr (strip g))) as (k' & G & _).
      exact G.
    + intros q Hq. now apply dict_get_set_other.
Qed.

(** X15: an assignment of a value that neither begins with the currency
    marker nor ends with the percent marker never fails: outside a
    definition it stores the value under the name among the plain variables,
    as a float when [float] reads it and as the text itself otherwise,
    leaves the other names and every other attribute as they were, and
    returns the confirmation line. *)
Theorem X15_plain_assignment :
  forall fuel line show_prompt w name g,
    in_function (self w) = false ->
    re_match_assign (strip line) = Some (name, g) ->
    startswith (u "¥") (strip g) = false ->
    endswith (u "/") (strip g) = false ->
    exists r w',
      execute (S fuel) line show_prompt w = Ok r w'
      /\ list_get r w' = [u "[变] #" ++ name ++ u " = " ++ strip g]
      /\ dict_get name (variables (self w'))
         = Some (match py_float (strip g) with
                 | Some x => VFloat x
                 | None => VStr (strip g)
                 end)
      /\ (forall q, q <> name ->
                    dict_get q (variables (self w')) = dict_get q (variables (self w)))
      /\ currency (self w') = currency (self w)
      /\ assign_effect w w'.
Proof.
  intros fuel line sp w name g Hin Hm Hy He.
  destruct (plain_assignment fuel line sp w name g Hin Hm Hy He)
    as (r & w' & E & L & V & O & C & A & _).
  exists r, w'. auto 10.
Qed.

(** X16: an assignment whose value begins with the currency marker goes to
    the currency namespace only.  Outside a definition, when [float] reads
    the text after the marker, the number is stored under the name among the
    currency variables, the plain variables and the other currency names
    stay as they were, and the confirmation line is returned; when [float]
    does not read it, the line returns the conversion diagnostic and stores
    nothing. *)
Theorem X16_currency_assignment :
  forall fuel line show_prompt w name g,
    in_function (self w) = false ->
    re_match_assign (strip line) = Some (name, g) ->
    startswith (u "¥") (strip g) = true ->
    (forall x,
        py_float (skipn 1 (strip g)) = Some x ->
        exists r w',
          execute (S fuel) line show_prompt w = Ok r w'
          /\ list_get r w' = [u "[变] #" ++ name ++ u " = " ++ strip g]
          /\ dict_get name (currency (self w')) = Some x
          /\ (forall q, q <> name ->
                        dict_get q (currency (self w')) = dict_get q (currency (self w)))
          /\ variables (self w') = variables (self w)
          /\ assign_effect w w')
    /\ (py_float (skipn 1 (strip g)) = None ->
        exists r w',
          execute (S fuel) line show_prompt w = Ok r w'
          /\ list_get r w'
             = [u "[!] could not convert string to float: " ++ repr_str (skipn 1 (strip g))]
          /\ same_attributes (self w) (self w') /\ rng_pos w' = rng_pos w).
Proof.
  intros fuel line sp w name g Hin Hm Hy.
  rewrite (execute_assignment _ _ _ _ _ _ Hin Hm).
  unfold _assign_variable. rewrite Hm, Hy. split.
  - intros x Hx. run_m. rewrite Hx. cbn [finish].
    eexists _, _. split; [reflexivity|]. split; [now one_line|]. from_start.
    split; [|split; [|split; [reflexivity|effect_prim]]].
    + destruct (dict_get_set _ (currency (self w)) name x) as (k' & G & _). exact G.
    + intros q Hq. now apply dict_get_set_other.
  - intro Hx. run_m. rewrite Hx. rewrite finish_raise by apply fresh_buffer_valid. cbn [str_exn].
    eexists _, _. split; [reflexivity|].
    split; [one_line; now rewrite float_error_text|]. from_start.
    split; [|reflexivity]. unfold same_attributes. cbn. tauto.
Qed.

(** X17: a percentage is stored as a hundredth.  Outside a definition, an
    assignment whose value ends with the percent marker and does not begin
    with the currency marker takes the first run of digits and points that a
    [/] follows: when [float] reads it, a hundredth of the number is stored
    among the plain variables and the confirmation line is returned; when it
    does not, the line returns the conversion diagnostic and stores
    nothing. *)
Theorem X17_percent_assignment :
  forall fuel line show_prompt w name g lit,
    in_function (self w) = false ->
    re_match_assign (strip line) = Some (name, g) ->
    startswith (u "¥") (strip g) = false ->
    endswith (u "/") (strip g) = true ->
    re_search_number_slash [] (strip g) = Some lit ->
    (forall x,
        py_float lit = Some x ->
        exists r w',
          execute (S fuel) line show_prompt w = Ok r w'
          /\ list_get r w' = [u "[变] #" ++ name ++ u " = " ++ strip g]
          /\ dict_get name (variables (self w')) = Some (VFloat (fdiv x f100))
          /\ (forall q, q <> name ->
                        dict_get q (variables (self w')) = dict_get q (variables (self w)))
          /\ currency (self w') = currency (self w)
          /\ assign_effect w w')
    /\ (py_float lit = None ->
        exists r w',
          execute (S fuel) line show_prompt w = Ok r w'
          /\ list_get r w' = [u "[!] could not convert string to float: " ++ repr_str lit]
          /\ same_attributes (self w) (self w') /\ rng_pos w' = rng_pos w).
Proof.
  intros fuel line sp w name g lit Hin Hm Hy He Hl.
  rewrite (execute_assignment _ _ _ _ _ _ Hin Hm).
  unfold _assign_variable. rewrite Hm, Hy, He, Hl. split.
  - intros x Hx. run_m. rewrite Hx. cbn [finish].
    eexists _, _. split; [reflexivity|]. split; [now one_line|]. from_start.
    split; [|split; [|split; [reflexivity|effect_prim]]].
    + destruct (dict_get_set _ (variables (self w)) name (VFloat (fdiv x f100)))
        as (k' & G & _). exact G.
    + intros q Hq. now apply dict_get_set_other.
  - intro Hx. run_m. rewrite Hx. rewrite finish_raise by apply fresh_buffer_valid. cbn [str_exn].
    eexists _, _. split; [reflexivity|].
    split; [one_line; now rewrite float_error_text|]. from_start.
    split; [|reflexivity]. unfold same_attributes. cbn. tauto.
Qed.

Lemma replace_absent :
  forall c old new s, ~ In c s -> replace (c :: old) new s = s.
Proof.
  intros c old new s. unfold replace. induction s as [|d s IH]; intro N; [reflexivity|].
  cbn [replace_from startswith].
  destruct (N.eqb_spec c d) as [->|Hd]; [exfalso; apply N; now left|].
  cbn [andb]. f_equal. apply IH. intro I. apply N. now right.
Qed.

Lemma sub_whole_token :
  forall f name,
    name <> [] -> Forall (fun c => is_word c = true) name ->
    re_sub_tok (ch "#") f (ch "#" :: name) = f name.
Proof.
  intros f name Hne Hw.
  pose proof (sub_first (ch "#") f [] name [] ltac:(constructor) Hne Hw I) as S.
  cbn [app] in S. rewrite app_nil_r in S. rewrite S.
  unfold re_sub_tok. cbn [length re_sub_tok_from]. apply app_nil_r.
Qed.

(** X18: a text that was assigned is printed back as it is.  Outside a
    definition, after the assignment of a value that is no number, does not
    begin with the currency marker, does not end with the percent marker and
    holds no opening brace, the output statement of the variable's token
    alone returns the value after the output tag. *)
Theorem X18_assigned_text_is_printed_back :
  forall fuel line show_prompt w name g fuel2 line2 show_prompt2,
    in_function (self w) = false ->
    re_match_assign (strip line) = Some (name, g) ->
    startswith (u "¥") (strip g) = false ->
    endswith (u "/") (strip g) = false ->
    py_float (strip g) = None ->
    ~ In (ch "{") (strip g) ->
    strip line2 = u "¢,#" ++ name ->
    exists r1 w1 r2 w2,
      execute (S fuel) line show_prompt w = Ok r1 w1
      /\ execute (S fuel2) line2 show_prompt2 w1 = Ok r2 w2
      /\ list_get r2 w2 = [u "[出] " ++ strip g].
Proof.
  intros fuel line sp w name g fuel2 line2 sp2 Hin Hm Hy He Hf Hb H2.
  destruct (match_assign_dispatch _ _ _ Hm) as (_ & _ & _ & Hne & Hw).
  destruct (plain_assignment fuel line sp w name g Hin Hm Hy He)
    as (r1 & w1 & E & _ & V & _ & _ & _ & Hin1).
  rewrite Hf in V. exists r1, w1.
  assert (O : exists r2 w2,
             execute (S fuel2) line2 sp2 w1 = Ok r2 w2
             /\ list_get r2 w2 = [u "[出] " ++ strip g]);
    [|destruct O as (r2 & w2 & E2 & L2); exists r2, w2; auto].
  rewrite execute_nonempty by (rewrite H2; reflexivity).
  rewrite dispatch_output;
    [|now rewrite self_prompted|rewrite H2; reflexivity].
  unfold _handle_output. run_m. cbn [finish].
  eexists _, _. split; [reflexivity|].
  one_line. rewrite self_prompted. unfold fresh_buffer. cbn_state.
  rewrite H2. change (skipn 2 (u "¢,#" ++ name)) with (ch "#" :: name).
  rewrite sub_whole_token by assumption.
  unfold replace_var. cbn_state. rewrite V. cbn [str_value].
  change (u "{inventory}") with (ch "{" :: u "inventory}").
  change (u "{total_spent}") with (ch "{" :: u "total_spent}").
  change (u "{pity}") with (ch "{" :: u "pity}").
  do 3 rewrite (replace_absent (ch "{") _ _ (strip g) Hb). reflexivity.
Qed.

(** ** Conditions and the reset command *)

Lemma dispatch_condition :
  forall exec fuel l w,
    in_function (self w) = false ->
    startswith (u "?") l = true ->
    _execute_line exec fuel l w = _handle_condition l w.
Proof.
  intros exec fuel l w Hin Hs. revert Hs. eval_u. intro Hs.
  apply startswith_cons_inv in Hs as (l' & -> & _).
  unfold _execute_line, bind, gets. rewrite Hin. reflexivity.
Qed.

(** X19: no condition is ever evaluated.  The class has no handler for
    the lines that begin with [?]: outside a definition every such line
    returns the one line that reports the missing attribute, and changes
    nothing. *)
Theorem X19_condition_statement_fails :
  forall fuel line show_prompt w,
    in_function (self w) = false ->
    startswith (u "?") (strip line) = true ->
    exists r w',
      execute (S fuel) line show_prompt w = Ok r w'
      /\ list_get r w'
         = [u "[!] 'HPSInterpreter' object has no attribute '_handle_condition'"]
      /\ same_attributes (self w) (self w') /\ rng_pos w' = rng_pos w.
Proof.
  intros fuel line sp w Hin Hs.
  rewrite execute_nonempty by (revert Hs; eval_u; apply nonempty_of_prefix).
  rewrite dispatch_condition; try assumption; [|now rewrite self_prompted].
  unfold _handle_condition. cbn [raise]. rewrite finish_raise by apply fresh_buffer_valid. cbn [str_exn].
  eexists _, _. split; [reflexivity|]. split.
  - one_line.
    assert (E : u "[!] 'HPSInterpreter' object has no attribute '_handle_condition'"
                = u "[!] " ++ u "'HPSInterpreter' object has no attribute '_handle_condition'")
      by (vm_compute; reflexivity).
    now rewrite E.
  - from_start. split; [|reflexivity]. unfold same_attributes. cbn. tauto.
Qed.

Lemma dispatch_reset :
  forall exec fuel w,
    in_function (self w) = false ->
    _execute_line exec fuel (u "/reset") w = (reset ;; emit (u "[✓] 已重置")) w.
Proof.
  intros exec fuel w Hin. unfold _execute_line. unfold bind at 1. cbn [gets].
  rewrite Hin. reflexivity.
Qed.

(** X20: the reset command brings back the state of a new interpreter.
    Outside a definition it returns its one confirmation line and leaves
    every attribute as [__init__] sets it, the returned list being the one
    that [__init__] made; the random source is not reset. *)
Theorem X20_reset_restores_the_initial_state :
  forall fuel line show_prompt w,
    in_function (self w) = false ->
    strip line = u "/reset" ->
    exists r w',
      execute (S fuel) line show_prompt w = Ok r w'
      /\ list_get r w' = [u "[✓] 已重置"]
      /\ self w' = mkHPS [] [] [] [] 0 0 [] r false [] [] []
      /\ rng_pos w' = rng_pos w.
Proof.
  intros fuel line sp w Hin Hl.
  rewrite execute_nonempty by (rewrite Hl; reflexivity).
  rewrite Hl, dispatch_reset by (now rewrite self_prompted).
  unfold reset, __init__. run_m. cbn [finish].
  eexists _, _. split; [reflexivity|]. cbn_state.
  rewrite rng_prompted. unfold fresh_buffer. cbn_state.
  split; [|split; reflexivity].
  rewrite list_get_append by (rewrite length_app; cbn; lia).
  rewrite app_nth2 by lia. now rewrite Nat.sub_diag.
Qed.

(** ** Calls *)

Lemma span_cons :
  forall p s c a b, span p s = (c :: a, b) -> exists s', s = c :: s' /\ p c = true.
Proof.
  intros p [|d s] c a b E; cbn [span] in E; [discriminate|].
  destruct (p d) eqn:Ed; [|discriminate].
  destruct (span p s) as [a' b']. injection E as <- _ _. eauto.
Qed.

Lemma name_parens_shape :
  forall s name args rest,
    name_parens s = Some (name, args, rest) ->
    s = name ++ 40%N :: args ++ 41%N :: rest
    /\ exists c s', s = c :: s' /\ is_word c = true.
Proof.
  intros s name args rest E. unfold name_parens in E.
  destruct (span is_word s) as [[|c a] [|d r]] eqn:Es; try discriminate.
  destruct (d =? 40)%N eqn:Ed; [|discriminate]. apply N.eqb_eq in Ed. subst d.
  destruct (span not_rparen r) as [args' [|e r']] eqn:Er; [discriminate|].
  destruct (e =? 41)%N eqn:Ee; [|discriminate]. apply N.eqb_eq in Ee. subst e.
  injection E as <- <- <-.
  destruct (span_eq _ _ _ _ Es) as [-> _]. destruct (span_eq _ _ _ _ Er) as [-> _].
  split; [reflexivity|]. cbn [app]. eexists _, _. split; [reflexivity|].
  destruct (span_cons _ _ _ _ _ Es) as (s' & E' & W). exact W.
Qed.

(** A line of the shape of a call is dispatched as one outside a
    definition. *)
Lemma dispatch_call :
  forall exec fuel l w name args,
    in_function (self w) = false ->
    name_parens l = Some (name, args, []) ->
    _execute_line exec fuel l w = _call_function exec fuel l w.
Proof.
  intros exec fuel l w name args Hin Hn.
  destruct (name_parens_shape _ _ _ _ Hn) as (Hl & c & l' & Hc & Hw).
  assert (Hp : contains (u "(") l = true).
  { rewrite Hl. eval_u. apply contains_app. apply contains_here. }
  assert (N : c <> 162%N).
  { intros ->. pose proof marker_is_no_word as M.
    change (ch "¢") with 162%N in M. congruence. }
  unfold _execute_line. unfold bind at 1. cbn [gets]. rewrite Hin, Hp.
  unfold re_is_call. rewrite Hn. clear Hl Hn Hp. subst l. eval_u.
  cbn [startswith str_eqb is_empty].
  apply N.eqb_neq in N. rewrite N. rewrite N.eqb_sym in N. rewrite N.
  reflexivity.
Qed.

Lemma call_body_blank :
  forall exec fuel ps args body_lines w,
    Forall (fun l => is_empty (strip l) = true) body_lines ->
    call_body exec fuel ps args body_lines w = Ok tt w.
Proof.
  intros exec fuel ps args body_lines w Hb.
  induction Hb as [|l rest Hl Hb IH]; cbn [call_body]; [reflexivity|].
  now rewrite Hl.
Qed.

(** X21: the call of a name that is no function.  Outside a definition, a
    line of the shape [name(arguments)] whose name is not in the function
    table returns the one line that says so, and changes nothing. *)
Theorem X21_call_of_undefined_function :
  forall fuel line show_prompt w fname g2,
    in_function (self w) = false ->
    name_parens (strip line) = Some (fname, g2, []) ->
    dict_get fname (functions (self w)) = None ->
    exists r w',
      execute (S fuel) line show_prompt w = Ok r w'
      /\ list_get r w' = [u "[!] 函数未定义: " ++ fname]
      /\ same_attributes (self w) (self w') /\ rng_pos w' = rng_pos w.
Proof.
  intros fuel line sp w fname g2 Hin Hn Hd.
  destruct (name_parens_shape _ _ _ _ Hn) as (_ & c & l' & Hc & _).
  rewrite execute_nonempty by (now rewrite Hc).
  rewrite (dispatch_call _ _ _ _ fname g2) by (try assumption; now rewrite self_prompted).
  unfold _call_function, re_match_call. rewrite Hn. unfold bind at 1. cbn [gets].
  rewrite self_prompted. cbn [fresh_buffer self functions set_output_lines]. rewrite Hd.
  run_m. cbn [finish]. eexists _, _. split; [reflexivity|]. split; [now one_line|].
  from_start. split; [|reflexivity]. unfold same_attributes. cbn. tauto.
Qed.

(** X22: a call echoes itself when it runs no body line.  Outside a
    definition, the call of a function all of whose body lines are blank (a
    function without a body among them) returns the echo of the call with
    the stripped argument text, and changes nothing. *)
Theorem X22_call_with_empty_body :
  forall fuel line show_prompt w fname g2 func,
    in_function (self w) = false ->
    name_parens (strip line) = Some (fname, g2, []) ->
    dict_get fname (functions (self w)) = Some func ->
    Forall (fun l => is_empty (strip l) = true) (body func) ->
    exists r w',
      execute (S fuel) line show_prompt w = Ok r w'
      /\ list_get r w' = [u "[调] ¢." ++ fname ++ u "(" ++ strip g2 ++ u ")"]
      /\ same_attributes (self w) (self w') /\ rng_pos w' = rng_pos w.
Proof.
  intros fuel line sp w fname g2 func Hin Hn Hd Hb.
  destruct (name_parens_shape _ _ _ _ Hn) as (_ & c & l' & Hc & _).
  rewrite execute_nonempty by (now rewrite Hc).
  rewrite (dispatch_call _ _ _ _ fname g2) by (try assumption; now rewrite self_prompted).
  unfold _call_function, re_match_call. rewrite Hn. unfold bind at 1. cbn [gets].
  rewrite self_prompted. cbn [fresh_buffer self functions set_output_lines]. rewrite Hd.
  unfold bind at 1. unfold emit, bind at 1. cbn [gets list_append].
  rewrite call_body_blank by assumption. cbn [finish].
  eexists _, _. split; [reflexivity|]. split; [now one_line|].
  from_start. split; [|reflexivity]. unfold same_attributes. cbn. tauto.
Qed.

Lemma call_body_skip :
  forall exec fuel ps args blanks rest w,
    Forall (fun l => is_empty (strip l) = true) blanks ->
    call_body exec fuel ps args (blanks ++ rest) w = call_body exec fuel ps args rest w.
Proof.
  intros exec fuel ps args blanks rest w Hb.
  induction Hb as [|l bs Hl Hb IH]; cbn [app call_body]; [reflexivity|].
  now rewrite Hl.
Qed.

(** X23: a function that prints cannot be called.  Outside a definition,
    when the first body line that is not blank is, with the arguments put
    in, an output statement, the call never returns: the line it gave is
    copied into the list that is being read, and so is every copy. *)
Theorem X23_call_with_output_never_returns :
  forall line show_prompt w fname g2 func blanks l rest,
    in_function (self w) = false ->
    name_parens (strip line) = Some (fname, g2, []) ->
    dict_get fname (functions (self w)) = Some func ->
    body func = blanks ++ l :: rest ->
    Forall (fun b => is_empty (strip b) = true) blanks ->
    is_empty (strip l) = false ->
    startswith (u "¢,") (strip (subst_params 0 (params func) (call_args g2) (strip l)))
    = true ->
    never_returns (fun fuel => execute fuel line show_prompt w).
Proof.
  intros line sp w fname g2 func blanks l rest Hin Hn Hd Hb Hbl Hl Ho [|n];
    [reflexivity|].
  destruct (name_parens_shape _ _ _ _ Hn) as (_ & c & l' & Hc & _).
  rewrite execute_nonempty by (now rewrite Hc).
  rewrite (dispatch_call _ _ _ _ fname g2) by (try assumption; now rewrite self_prompted).
  unfold _call_function, re_match_call. rewrite Hn. unfold bind at 1. cbn [gets].
  rewrite self_prompted. cbn [fresh_buffer self functions set_output_lines]. rewrite Hd.
  unfold bind at 1. unfold emit, bind at 1. cbn [gets list_append].
  rewrite Hb, call_body_skip by assumption. cbn [call_body]. rewrite Hl.
  fold (call_args g2).
  set (l0 := subst_params 0 (params func) (call_args g2) (strip l)) in *.
  unfold bind at 1.
  destruct n as [|m]; [reflexivity|].
  rewrite execute_nonempty by (revert Ho; eval_u; apply nonempty_of_prefix).
  rewrite dispatch_output; [|rewrite self_prompted; cbn_state; now rewrite self_prompted|exact Ho].
  unfold _handle_output. run_m. cbn [finish].
  rewrite copy_outputs_diverges; [reflexivity|reflexivity|].
  eexists 0%nat, _. split; [lia|]. cbn_state.
  rewrite list_get_append by apply fresh_buffer_valid.
  rewrite fresh_lines. split; reflexivity.
Qed.

(** Lines executed one after the other make a sequence of statements. *)
Lemma execute_each_seq :
  forall fuel lines w w',
    plain_lines lines = true ->
    Forall (fun l => str_eqb (strip l) (u "/reset") = false) lines ->
    execute_each fuel lines w = Some w' ->
    exec_seq w w'.
Proof.
  intros fuel. induction lines as [|l ls IH]; intros w w' Pl Hl E; cbn [execute_each] in E.
  - injection E as <-. apply exec_seq_nil.
  - inversion Hl as [|? ? H1 H2]; subst.
    cbn [plain_lines forallb] in Pl. apply andb_prop in Pl as [P1 P2].
    destruct (execute fuel l false w) as [r w1|e w1|] eqn:Ex; try discriminate.
    eapply exec_seq_cons; [exact P1|exact H1|exact Ex|]. now apply IH.
Qed.

(** ** Comments, unknown lines and arithmetic *)

Lemma dispatch_comment :
  forall exec fuel l w,
    in_function (self w) = false ->
    startswith (u "¢") l = true ->
    startswith (u "¢,") l = false ->
    startswith (u "¢.") l = false ->
    _execute_line exec fuel l w
    = (if is_empty (strip (skipn 1 l)) then ret tt
       else emit (u "[注] " ++ strip (skipn 1 l))) w.
Proof.
  intros exec fuel l w Hin H1 H2 H3. unfold _execute_line, bind, gets.
  rewrite Hin, H1, H2, H3. reflexivity.
Qed.

(** X24: a comment is echoed, an empty one is silent.  Outside a
    definition, a line that begins with the comment marker and is neither an
    output statement nor a definition line returns the text after the
    marker, stripped, behind the comment tag, and returns no line when that
    text is empty; it changes nothing. *)
Theorem X24_comment :
  forall fuel line show_prompt w,
    in_function (self w) = false ->
    startswith (u "¢") (strip line) = true ->
    startswith (u "¢,") (strip line) = false ->
    startswith (u "¢.") (strip line) = false ->
    exists r w',
      execute (S fuel) line show_prompt w = Ok r w'
      /\ list_get r w'
         = (if is_empty (strip (skipn 1 (strip line))) then []
            else [u "[注] " ++ strip (skipn 1 (strip line))])
      /\ same_attributes (self w) (self w') /\ rng_pos w' = rng_pos w.
Proof.
  intros fuel line sp w Hin H1 H2 H3.
  rewrite execute_nonempty by (revert H1; eval_u; apply nonempty_of_prefix).
  rewrite dispatch_comment; try assumption; [|now rewrite self_prompted].
  destruct (is_empty (strip (skipn 1 (strip line)))); run_m; cbn [finish];
    (eexists _, _; split; [reflexivity|]; split;
     [first [now one_line|cbn_state; apply list_get_fresh]|]);
    from_start; (split; [|reflexivity]); unfold same_attributes; cbn; tauto.
Qed.

Lemma dispatch_slash :
  forall exec fuel l w,
    in_function (self w) = false ->
    startswith (u "/") l = true ->
    str_eqb l (u "/state") = false ->
    str_eqb l (u "/reset") = false ->
    _execute_line exec fuel l w = emit (u "[?] 未知: " ++ firstn 40 l) w.
Proof.
  intros exec fuel l w Hin Hs H1 H2.
  assert (Hl : exists l', l = 47%N :: l').
  { revert Hs. eval_u. intro Hs. apply startswith_cons_inv in Hs as (l' & -> & _). eauto. }
  destruct Hl as (l' & ->).
  unfold _execute_line. unfold bind at 1. cbn [gets]. rewrite Hin, H1, H2. reflexivity.
Qed.

(** X25: a line that begins with a slash and is neither of the two slash
    commands is unknown.  Outside a definition it returns the one line that
    says so, with the first 40 characters of the line, and changes
    nothing. *)
Theorem X25_unknown_slash_command :
  forall fuel line show_prompt w,
    in_function (self w) = false ->
    startswith (u "/") (strip line) = true ->
    strip line <> u "/state" ->
    strip line <> u "/reset" ->
    exists r w',
      execute (S fuel) line show_prompt w = Ok r w'
      /\ list_get r w' = [u "[?] 未知: " ++ firstn 40 (strip line)]
      /\ same_attributes (self w) (self w') /\ rng_pos w' = rng_pos w.
Proof.
  intros fuel line sp w Hin Hs H1 H2.
  rewrite execute_nonempty by (revert Hs; eval_u; apply nonempty_of_prefix).
  rewrite dispatch_slash;
    [|now rewrite self_prompted|assumption|now apply str_eqb_neq|now apply str_eqb_neq].
  run_m. cbn [finish]. eexists _, _. split; [reflexivity|]. split; [now one_line|].
  from_start. split; [|reflexivity]. unfold same_attributes. cbn. tauto.
Qed.

Lemma dot_plus_rparen_none : forall s, ~ In 41%N s -> dot_plus_rparen s = None.
Proof.
  induction s as [|c s IH]; intro N; [reflexivity|].
  cbn [dot_plus_rparen]. rewrite IH by (intro I; apply N; now right).
  destruct (not_newline c); [|reflexivity].
  destruct s as [|d s']; [reflexivity|].
  destruct (N.eqb_spec d 41) as [->|]; [|reflexivity].
  exfalso. apply N. right. now left.
Qed.

Lemma not_in_skipn :
  forall A (x : A) n l, ~ In x l -> ~ In x (skipn n l).
Proof.
  intros A x n l N I. apply N. rewrite <- (firstn_skipn n l). apply in_or_app. now right.
Qed.

Lemma re_search_math_none : forall s, ~ In 41%N s -> re_search_math s = None.
Proof.
  induction s as [|c s IH]; intro N; [reflexivity|].
  cbn [re_search_math]. rewrite IH by (intro I; apply N; now right).
  destruct (startswith _ (c :: s)); [|reflexivity].
  now rewrite dot_plus_rparen_none by now apply not_in_skipn.
Qed.

Lemma dispatch_math :
  forall exec fuel l w,
    in_function (self w) = false ->
    startswith (u "&A(") l = true ->
    _execute_line exec fuel l w = _handle_math l w.
Proof.
  intros exec fuel l w Hin Hs.
  assert (Hl : exists l', l = 38%N :: l').
  { revert Hs. eval_u. intro Hs. apply startswith_cons_inv in Hs as (l' & -> & _). eauto. }
  destruct Hl as (l' & ->).
  unfold _execute_line. unfold bind at 1. cbn [gets]. rewrite Hin, Hs. reflexivity.
Qed.

Lemma emit_or_raise_valid :
  forall x w,
    (output_lines (self w) < length (heap w))%nat ->
    emit_or_raise x w
    = Ok tt (mkWorld (self w) (heap_append (output_lines (self w)) x (heap w))
                     (rng_pos w) (stdout w)).
Proof.
  intros x w L. unfold emit_or_raise. apply Nat.ltb_lt in L. now rewrite L.
Qed.

Lemma math_expr_from_start :
  forall sp l w g, math_expr (self (prompted sp l (fresh_buffer w))) g = math_expr (self w) g.
Proof. intros. rewrite self_prompted. reflexivity. Qed.

(** An arithmetic statement whose pattern is found, by what [eval] does. *)
Lemma handle_math_found :
  forall l g w,
    re_search_math l = Some g ->
    _handle_math l w
    = match py_eval_2f (math_expr (self w) g) w with
      | Ok t w1 =>
          match emit_or_raise (u "[算] " ++ g ++ u " = " ++ t) w1 with
          | Raise _ w2 => emit_or_raise (u "[算] 错误: " ++ math_expr (self w) g) w2
          | r => r
          end
      | Raise _ w1 => emit_or_raise (u "[算] 错误: " ++ math_expr (self w) g) w1
      | OutOfFuel => OutOfFuel
      end.
Proof.
  intros l g w E. unfold _handle_math. rewrite E.
  unfold bind at 1. cbn [gets]. unfold try_except, bind.
  destruct (py_eval_2f (math_expr (self w) g) w) as [t w1|e w1|]; reflexivity.
Qed.

(** X26: the arithmetic statement, outside a definition.  When the pattern
    is not found in the line, in particular when the line has no closing
    parenthesis, it returns no line and changes nothing, [eval] not being
    called.  When it is found and [eval] has no effect but its result on the
    expression with the variables put in, the statement returns exactly one
    line, the captured text with the formatted result when [eval] returns and
    the expression behind the error tag when it raises, and changes
    nothing; when [eval] does not return, neither does the statement. *)
Theorem X26_arithmetic_statement :
  forall fuel line show_prompt w,
    in_function (self w) = false ->
    startswith (u "&A(") (strip line) = true ->
    (~ In (ch ")") (strip line) -> re_search_math (strip line) = None)
    /\ match re_search_math (strip line) with
       | None =>
           exists r w',
             execute (S fuel) line show_prompt w = Ok r w'
             /\ list_get r w' = []
             /\ same_attributes (self w) (self w') /\ rng_pos w' = rng_pos w
       | Some g =>
           (forall t,
               (forall w0, py_eval_2f (math_expr (self w) g) w0 = Ok t w0) ->
               exists r w',
                 execute (S fuel) line show_prompt w = Ok r w'
                 /\ list_get r w' = [u "[算] " ++ g ++ u " = " ++ t]
                 /\ same_attributes (self w) (self w') /\ rng_pos w' = rng_pos w)
           /\ (forall e,
                  (forall w0, py_eval_2f (math_expr (self w) g) w0 = Raise e w0) ->
                  exists r w',
                    execute (S fuel) line show_prompt w = Ok r w'
                    /\ list_get r w' = [u "[算] 错误: " ++ math_expr (self w) g]
                    /\ same_attributes (self w) (self w') /\ rng_pos w' = rng_pos w)
           /\ ((forall w0, py_eval_2f (math_expr (self w) g) w0 = OutOfFuel) ->
               execute (S fuel) line show_prompt w = OutOfFuel)
       end.
Proof.
  intros fuel line sp w Hin Hs.
  split; [apply re_search_math_none|].
  rewrite execute_nonempty by (revert Hs; eval_u; apply nonempty_of_prefix).
  rewrite dispatch_math; try assumption; [|now rewrite self_prompted].
  destruct (re_search_math (strip line)) as [g|] eqn:Eg.
  - rewrite (handle_math_found _ _ _ Eg), math_expr_from_start.
    split; [|split].
    + intros t Hp. rewrite Hp.
      rewrite emit_or_raise_valid by apply fresh_buffer_valid. cbn [finish].
      eexists _, _. split; [reflexivity|].
      split; [now one_line|].
      split; [from_start; unfold same_attributes; cbn; tauto|from_start; reflexivity].
    + intros e Hp. rewrite Hp.
      rewrite emit_or_raise_valid by apply fresh_buffer_valid. cbn [finish].
      eexists _, _. split; [reflexivity|].
      split; [now one_line|].
      split; [from_start; unfold same_attributes; cbn; tauto|from_start; reflexivity].
    + intros Hp. rewrite Hp. reflexivity.
  - unfold _handle_math. rewrite Eg. cbn [ret finish]. eexists _, _. split; [reflexivity|].
    split; [apply list_get_fresh|].
    split; [from_start; unfold same_attributes; cbn; tauto|from_start; reflexivity].
Qed.

(** ** The interactive shell *)



Lemma dispatch_state :
  forall exec fuel w,
    in_function (self w) = false ->
    _execute_line exec fuel (u "/state") w = (s <- gets (fun s => s) ;; emit (get_state s)) w.
Proof.
  intros exec fuel w Hin. unfold _execute_line. unfold bind at 1. cbn [gets].
  rewrite Hin. reflexivity.
Qed.

(** X29: the shell's own commands agree with the slash commands.
    [do_state] prints the very text that the state command returns outside
    a definition, and changes nothing; [do_reset] leaves the attributes of a
    new interpreter, also while a definition is open, and prints the
    confirmation. *)
Theorem X29_shell_state_and_reset :
  forall fuel w,
    (in_function (self w) = false ->
     exists r w1,
       execute (S fuel) (u "/state") false w = Ok r w1
       /\ list_get r w1 = [get_state (self w)]
       /\ same_attributes (self w) (self w1)
       /\ do_state w
          = Ok tt (mkWorld (self w) (heap w) (rng_pos w) (stdout w ++ [get_state (self w)])))
    /\ exists w2,
        do_reset w = Ok tt w2
        /\ self w2 = mkHPS [] [] [] [] 0 0 [] (output_lines (self w2)) false [] [] []
        /\ list_get (output_lines (self w2)) w2 = []
        /\ rng_pos w2 = rng_pos w
        /\ stdout w2 = stdout w ++ [u "[✓] 已重置"].
Proof.
  intros fuel w. split.
  - intro Hin. rewrite execute_nonempty by reflexivity.
    change (strip (u "/state")) with (u "/state").
    rewrite dispatch_state by (now rewrite self_prompted).
    run_m. cbn [finish]. eexists _, _. split; [reflexivity|].
    split; [one_line; rewrite self_prompted; reflexivity|].
    split; [from_start; unfold same_attributes; cbn; tauto|reflexivity].
  - unfold do_reset, reset, __init__. run_m. eexists. split; [reflexivity|].
    cbn_state. split; [reflexivity|]. split; [|split; reflexivity].
    unfold list_get. cbn [heap]. rewrite app_nth2 by lia. now rewrite Nat.sub_diag.
Qed.

(** ** Which statements end *)














End Properties.

(** * Runs on concrete inputs *)

#[local] Existing Instance demo_host.

Example pool_B_world_pools :
  pools (self pool_B_world) = [(u "UP", mkPool (u "UP") f1_0 [u "B"])].
Proof. reflexivity. Qed.

Example fun_hi_world_functions :
  functions (self fun_hi_world) = [(u "f", mkFunction (u "f") [] [u "¢ hi"])].
Proof. reflexivity. Qed.

(** The three ways out of the draw loop: a hit at the first draw, the cap
    of 5 exhausted when no attempt drops, and a drop of another item. *)
Example draw_exits :
  option_map (fun w => (pity_counter (self w), total_spent (self w), inventory (self w)))
    (execute_each 1 [u "(100/:$A)#UP"; u "<$A,#UP,*90>"] new_interpreter)
  = Some (0, 160, [u "A"])
  /\ option_map (fun w => (pity_counter (self w), total_spent (self w), inventory (self w)))
       (execute_each (H := dry_host) 1 [u "<$A,#UP,*5>"] pool_AB_world)
     = Some (0, 800, [u "A"])
  /\ option_map (fun w => (pity_counter (self w), total_spent (self w), inventory (self w)))
       (execute_each 1 [u "<$A,#UP,*90>"; u "<$A,#UP,*90>"] pool_B_world)
     = Some (2, 0, [u "B"; u "B"]).
Proof. vm_compute. repeat split; reflexivity. Qed.

Lemma C1_witness :
  match _execute_target (u "<$A,#UP,*90>") pool_B_world with
  | Ok (Returned k) w' =>
      1 <= k <= parse_max_pity (u "<$A,#UP,*90>") /\ pity_counter (self w') = 0
  | Ok Exhausted w' => pity_counter (self w') = 0
  | Ok (Broke k) w' =>
      1 <= k <= parse_max_pity (u "<$A,#UP,*90>")
      /\ pity_counter (self w') = pity_counter (self pool_B_world) + k
  | Raise _ w' =>
      exists k, 1 <= k <= parse_max_pity (u "<$A,#UP,*90>")
                /\ pity_counter (self w') = pity_counter (self pool_B_world) + k
  | OutOfFuel => False
  end.
Proof.
  apply (C1_pity_counter_after_draw (u "<$A,#UP,*90>") pool_B_world
           (u "A") (u ",#UP,*90>") (u "UP") (u ",*90>") (mkPool (u "UP") f1_0 [u "B"]));
    reflexivity.
Defined.

(** C1 as stated fails: a drop of another item ends the draw with the
    counter at 1. *)
Lemma C1_counterexample :
  option_map (fun w => (pity_counter (self w), inventory (self w)))
             (execute_each 1 [u "<$A,#UP,*90>"] pool_B_world)
  = Some (1, [u "B"]).
Proof. vm_compute. reflexivity. Qed.

(** C2: [run_script] lets the [ValueError] of [_start_function_def] escape:
    a line that begins with the definition marker and has no well-formed
    header ends the script with an exception and the lines after it are not
    run, whereas [execute] turns the same failure into a diagnostic line. *)
Theorem C2_run_script_raises :
  run_script 1 (u "¢.End") true new_interpreter
  = Raise (ValueError (u "函数定义: ¢.函数名(参数)")) new_interpreter
  /\ run_script 1 (u "¢.name(") true new_interpreter
     = Raise (ValueError (u "函数定义: ¢.函数名(参数)")) new_interpreter
  /\ returned_lines (execute 1 (u "¢.(x)") false new_interpreter)
     = Some [u "[!] 函数定义: ¢.函数名(参数)"]
  /\ option_map stdout
       (final_world (run_script 1 (u "#a = 1
¢.End
#b = 2") true new_interpreter))
     = Some [u "[变] #a = 1"].
Proof. vm_compute. repeat split; reflexivity. Qed.

(** C3: the call of a function whose body line prints nothing returns no
    line at all: the echo of the call was appended to the list that the
    inner [execute] replaced. *)
Theorem C3_call_loses_its_echo :
  functions (self fun_quiet_world) = [(u "f", mkFunction (u "f") [] [u "¢"])]
  /\ returned_lines (execute 2 (u "f()") false fun_quiet_world) = Some []
  /\ option_map (fun w => (output_lines (self w), nth 1 (heap w) [], nth 2 (heap w) []))
       (final_world (execute 2 (u "f()") false fun_quiet_world))
     = Some (2%nat, [u "[调] ¢.f()"], []).
Proof. vm_compute. repeat split; reflexivity. Qed.




Lemma C5_witness :
  attempt_prob (float_of_decimal 6 3) 70 = inr (float_of_decimal 6 3)
  /\ attempt_prob (float_of_decimal 6 3) 71 =
     match int_to_float 1 with
     | inl e => inl e
     | inr x => inr (py_min f1_0 (fadd (float_of_decimal 6 3) (fmul f0_02 x)))
     end.
Proof.
  split.
  - apply (proj1 (C5_effective_probability (float_of_decimal 6 3) 70)). lia.
  - apply (proj1 (proj2 (C5_effective_probability (float_of_decimal 6 3) 71)) 1);
      [lia|reflexivity].
Defined.



Lemma C7_witness :
  exists r w',
    execute 1 (u "(0.6/:$A,$B,$A)#UP") false new_interpreter = Ok r w'
    /\ pools (self w')
       = [(u "UP", mkPool (u "UP") (fdiv (float_of_decimal 6 1) f100) [u "A"; u "B"; u "A"])]
    /\ list_get r w' = [u "[池] #UP | 0.6% | $A,$B,$A"].
Proof.
  destruct (proj1 (C7_pool_definition 0 (u "(0.6/:$A,$B,$A)#UP") false new_interpreter
                     eq_refl eq_refl) (u "0.6") (float_of_decimal 6 1) (u "UP") [])
    as (r & w' & E & P & _ & L);
    [reflexivity|reflexivity|discriminate|reflexivity|].
  exists r, w'. split; [exact E|]. rewrite P, L. split; vm_compute; reflexivity.
Defined.

(** C7 as stated fails: the first literal that a [/] follows is [2], and
    the pool is stored with 3 percent, the literal that follows a [(]. *)
Lemma C7_counterexample :
  claimed_percent_literal (u "(a 2/ (3/ $x)#p") = Some (u "2")
  /\ option_map (fun w => dict_get (u "p") (pools (self w)))
       (execute_each 1 [u "(a 2/ (3/ $x)#p"] new_interpreter)
     = Some (Some (mkPool (u "p") (fdiv (float_of_Z 3) f100) [u "x"]))
  /\ SFeqb (fdiv (float_of_Z 3) f100) (fdiv (float_of_Z 2) f100) = false
  /\ returned_lines (execute 1 (u "( 0.6/:$A)#UP") false new_interpreter)
     = Some [u "[!] 池子: (0.6/:$雷电)#UP"].
Proof. vm_compute. repeat split; reflexivity. Qed.

Lemma C8_witness :
  exists r w',
    execute 1 (u "¢,#a and #b") false shadow_world = Ok r w'
    /\ list_get r w' = [u "[出] 5.0 and [未定义:#b]"]
    /\ same_attributes (self shadow_world) (self w').
Proof.
  destruct (proj2 (proj2 (proj2 (proj2 C8_output_rendering))) 0%nat (u "¢,#a and #b") false
              shadow_world eq_refl eq_refl) as (r & w' & E & L & S).
  exists r, w'. split; [exact E|]. split; [|exact S].
  rewrite L. vm_compute. reflexivity.
Defined.

Example shadow_world_namespaces :
  dict_get (u "a") (variables (self shadow_world)) = Some (VFloat (float_of_Z 5))
  /\ dict_get (u "a") (currency (self shadow_world)) = Some (float_of_Z 7).
Proof. split; reflexivity. Qed.

Lemma C9_witness :
  exists r w',
    execute 1 (u "#x = abc/") false pool_B_world = Ok r w'
    /\ list_get r w' = [u "[变] #x = abc/"]
    /\ same_attributes (self pool_B_world) (self w')
    /\ rng_pos w' = rng_pos pool_B_world.
Proof.
  apply (C9_percent_without_number_stores_nothing 0 (u "#x = abc/") false pool_B_world
           (u "x") (u "abc/")); try reflexivity.
  repeat constructor.
Defined.

(** C9 as stated fails: a right-hand side of a point and a slash holds no
    digit, and the line gives a diagnostic instead of the confirmation; so
    does one that begins with the currency marker; and while a function body
    is collected the line is stored and nothing is returned. *)
Lemma C9_counterexample :
  re_match_assign (u "#x = ./") = Some (u "x", u "./")
  /\ returned_lines (execute 1 (u "#x = ./") false new_interpreter)
     = Some [u "[!] could not convert string to float: '.'"]
  /\ returned_lines (execute 1 (u "#x = ¥/") false new_interpreter)
     = Some [u "[!] could not convert string to float: '/'"]
  /\ in_function (self collecting_world) = true
  /\ returned_lines (execute 1 (u "#x = abc/") false collecting_world) = Some [].
Proof. vm_compute. repeat split; reflexivity. Qed.

Lemma C10_witness :
  exists r w',
    execute 1 (u "¢.broken(") false pool_B_world = Ok r w'
    /\ list_get r w' = []
    /\ same_attributes (self pool_B_world) (self w')
    /\ rng_pos w' = rng_pos pool_B_world.
Proof.
  apply (C10_malformed_header_is_ignored 0 (u "¢.broken(") false pool_B_world); reflexivity.
Defined.

(** ** Runs of the further properties *)

Example fun_out_world_functions :
  functions (self fun_out_world) = [(u "f", mkFunction (u "f") [u "a"] [u "¢,#a"])]
  /\ functions (self fun_empty_world) = [(u "f", mkFunction (u "f") [] [])].
Proof. split; reflexivity. Qed.

Lemma X2_witness :
  exists r w',
    execute 1 (u "<$A,#UP,*90>") true collecting_world = Ok r w'
    /\ list_get r w' = []
    /\ current_function_lines (self w') = [u "<$A,#UP,*90>"]
    /\ stdout w' = stdout collecting_world.
Proof.
  destruct (X2_definition_mode_collects 0 (u "<$A,#UP,*90>") true collecting_world)
    as (r & w' & E & L & S & _ & O); [reflexivity|reflexivity|reflexivity|].
  exists r, w'. rewrite S. auto.
Defined.

Lemma X3_witness :
  exists w',
    execute_each 1 [u "¢.f(a, b)"; u "  ¢,#a "; u "<$A,#UP>"; u "¢.End"] new_interpreter
    = Some w'
    /\ functions (self w')
       = [(u "f", mkFunction (u "f") [u "a"; u "b"] [u "¢,#a"; u "<$A,#UP>"])].
Proof.
  destruct (X3_definition_round_trip 0 (u "¢.f(a, b)") [u "  ¢,#a "; u "<$A,#UP>"]
              new_interpreter (u "f") (u "a, b"))
    as (w' & E & F & _); [reflexivity|reflexivity|reflexivity| |].
  - repeat constructor.
  - exists w'. split; [exact E|]. rewrite F. vm_compute. reflexivity.
Defined.

Lemma X4_witness :
  exists w1,
    run_script 1 (u "¢.f(a)

¢.g()
¢.End
¢ after") true new_interpreter
    = run_lines 1 true false [u "¢ after"] w1
    /\ functions (self w1) = [(u "f", mkFunction (u "f") [u "a"] [u ""; u "¢.g()"])]
    /\ stdout w1 = [].
Proof.
  destruct (X4_script_definition 1 (u "¢.f(a)

¢.g()
¢.End
¢ after") true new_interpreter (u "¢.f(a)") [u ""; u "¢.g()"] (u "¢.End") [u "¢ after"]
              (u "f") (u "a"))
    as (w1 & E & F & _ & O & _);
    [reflexivity|reflexivity|reflexivity|repeat constructor|reflexivity|].
  exists w1. split; [exact E|]. rewrite F, O. split; vm_compute; reflexivity.
Defined.

Lemma X5_witness :
  exists w',
    run_script 1 (u "¢.f()
¢ one
¢ two") true new_interpreter = Ok tt w'
    /\ in_function (self w') = true
    /\ current_function_lines (self w') = [u "¢ one"; u "¢ two"]
    /\ functions (self w') = []
    /\ stdout w' = [].
Proof.
  destruct (X5_unterminated_definition 1 (u "¢.f()
¢ one
¢ two") true new_interpreter (u "¢.f()") [u "¢ one"; u "¢ two"] (u "f") (u ""))
    as (w' & E & I1 & _ & I3 & I4 & _ & _ & I7);
    [reflexivity|reflexivity|reflexivity|repeat constructor|].
  exists w'. rewrite I1, I3, I4, I7. repeat split; try exact E; reflexivity.
Defined.


Lemma X7_witness :
  match run_script 1 (u "#a = 5

¢ hi") false new_interpreter with
  | Ok _ w' =>
      execute_each 1 (filter (fun l => negb (is_empty (strip l)))
                             (split 10%N (strip (u "#a = 5

¢ hi")))) new_interpreter = Some w'
  | Raise _ _ => False
  | OutOfFuel =>
      execute_each 1 (filter (fun l => negb (is_empty (strip l)))
                             (split 10%N (strip (u "#a = 5

¢ hi")))) new_interpreter = None
  end.
Proof.
  apply (X7_script_without_definitions 1 (u "#a = 5

¢ hi") new_interpreter); [reflexivity|reflexivity|].
  vm_compute. repeat constructor.
Defined.

Lemma X9_witness :
  match execute 1 (u "¢.End") false pool_B_world with
  | Ok _ w' => scratch_clear (self w')
  | Raise _ _ => False
  | OutOfFuel => True
  end.
Proof.
  apply (proj1 (proj2 X9_no_definition_left_behind) 1%nat (u "¢.End") false pool_B_world);
    [reflexivity|reflexivity|].
  intros _. repeat split.
Defined.

Lemma X10_witness :
  match execute 1 (u "#a = 5") false pool_B_world with
  | Ok _ w' =>
      (startswith (u "<") (strip (u "#a = 5")) = false ->
       inventory (self w') = inventory (self pool_B_world)
       /\ pity_counter (self w') = pity_counter (self pool_B_world)
       /\ rng_pos w' = rng_pos pool_B_world)
      /\ (startswith (u "(") (strip (u "#a = 5")) = false ->
          pools (self w') = pools (self pool_B_world))
      /\ (startswith (u "#") (strip (u "#a = 5")) = false ->
          variables (self w') = variables (self pool_B_world)
          /\ currency (self w') = currency (self pool_B_world))
  | Raise _ _ => False
  | OutOfFuel => True
  end.
Proof.
  apply (X10_statement_footprint 1 (u "#a = 5") false pool_B_world);
    [reflexivity|reflexivity|discriminate].
Defined.

Lemma X11_witness :
  exists w',
    exec_seq new_interpreter w'
    /\ inventory (self w') = [u "A"]
    /\ evolves new_interpreter w'.
Proof.
  assert (S : exists w',
             execute_each 1 [u "(100/:$A)#UP"; u "<$A,#UP,*90>"] new_interpreter = Some w'
             /\ inventory (self w') = [u "A"]) by (vm_compute; eauto).
  destruct S as (w' & S & I).
  apply execute_each_seq in S; [|reflexivity|repeat constructor].
  exists w'. split; [exact S|]. split; [exact I|].
  exact (X11_nothing_is_lost new_interpreter w' S eq_refl).
Defined.

Lemma X12_witness :
  match _execute_target (u "<$A,#UP,*90>") pool_B_world with
  | Ok (Returned k) w' =>
      inventory (self w') = inventory (self pool_B_world) ++ [u "A"]
      /\ Z.of_nat (rng_pos w') = Z.of_nat (rng_pos pool_B_world) + k + 1
  | Ok (Broke k) w' =>
      Z.of_nat (rng_pos w') = Z.of_nat (rng_pos pool_B_world) + k + 1
      /\ exists drawn, In drawn (items (mkPool (u "UP") f1_0 [u "B"])) /\ drawn <> u "A"
                       /\ inventory (self w') = inventory (self pool_B_world) ++ [drawn]
  | Ok Exhausted w' =>
      inventory (self w') = inventory (self pool_B_world) ++ [u "A"]
      /\ Z.of_nat (rng_pos w')
         = Z.of_nat (rng_pos pool_B_world) + parse_max_pity (u "<$A,#UP,*90>")
  | Raise _ w' => inventory (self w') = inventory (self pool_B_world)
  | OutOfFuel => False
  end.
Proof.
  apply (X12_draw_adds_one_item (u "<$A,#UP,*90>") pool_B_world
           (u "A") (u ",#UP,*90>") (u "UP") (u ",*90>") (mkPool (u "UP") f1_0 [u "B"]));
    reflexivity.
Defined.

Lemma X13_witness :
  exists r w' echo,
    execute 1 (u "<$A,#UP,*0>") false pool_B_world = Ok r w'
    /\ list_get r w' = [echo; u "[!] 保底 | $A | 0抽 ¥0"]
    /\ inventory (self w') = [u "A"]
    /\ total_spent (self w') = 0
    /\ rng_pos w' = 0%nat.
Proof.
  destruct (X13_zero_cap_grants_the_target 0 (u "<$A,#UP,*0>") false pool_B_world
              (u "A") (u ",#UP,*0>") (u "UP") (u ",*0>") (mkPool (u "UP") f1_0 [u "B"]))
    as (r & w' & echo & E & L & I & T & _ & R);
    [reflexivity|reflexivity|reflexivity|reflexivity|reflexivity|reflexivity|].
  exists r, w', echo. rewrite I, T, R. repeat split; try assumption; reflexivity.
Defined.

Lemma X14_witness :
  (exists r w',
      execute 1 (u "<hello>") false pool_B_world = Ok r w'
      /\ list_get r w' = [u "[!] 目标: <$雷电,#UP,*90>"]
      /\ same_attributes (self pool_B_world) (self w')
      /\ rng_pos w' = rng_pos pool_B_world)
  /\ (exists r w',
         execute 1 (u "<$A,#DOWN>") false pool_B_world = Ok r w'
         /\ list_get r w' = [u "[!] 池子未定义"]
         /\ same_attributes (self pool_B_world) (self w')
         /\ rng_pos w' = rng_pos pool_B_world).
Proof.
  split.
  - apply (proj1 (X14_draw_without_target_or_pool 0 (u "<hello>") false pool_B_world
                    eq_refl eq_refl)).
    reflexivity.
  - apply (proj2 (X14_draw_without_target_or_pool 0 (u "<$A,#DOWN>") false pool_B_world
                    eq_refl eq_refl)).
    + discriminate.
    + right. exists (u "DOWN"), (u ">"). split; reflexivity.
Defined.

Lemma X15_witness :
  exists r w',
    execute 1 (u "#who = the world") false pool_B_world = Ok r w'
    /\ list_get r w' = [u "[变] #who = the world"]
    /\ dict_get (u "who") (variables (self w')) = Some (VStr (u "the world")).
Proof.
  destruct (X15_plain_assignment 0 (u "#who = the world") false pool_B_world
              (u "who") (u "the world"))
    as (r & w' & E & L & V & _); [reflexivity|reflexivity|reflexivity|reflexivity|].
  exists r, w'. rewrite L, V. repeat split; try assumption; reflexivity.
Defined.

Lemma X16_witness :
  (exists r w',
      execute 1 (u "#gold = ¥64800") false pool_B_world = Ok r w'
      /\ list_get r w' = [u "[变] #gold = ¥64800"]
      /\ dict_get (u "gold") (currency (self w')) = Some (float_of_Z 64800)
      /\ variables (self w') = [])
  /\ (exists r w',
         execute 1 (u "#gold = ¥lots") false pool_B_world = Ok r w'
         /\ list_get r w' = [u "[!] could not convert string to float: 'lots'"]
         /\ same_attributes (self pool_B_world) (self w')).
Proof.
  split.
  - destruct (proj1 (X16_currency_assignment 0 (u "#gold = ¥64800") false pool_B_world
                       (u "gold") (u "¥64800") eq_refl eq_refl eq_refl)
                (float_of_Z 64800))
      as (r & w' & E & L & C & _ & V & _); [reflexivity|].
    exists r, w'. rewrite L, C, V. repeat split; try assumption; reflexivity.
  - destruct (proj2 (X16_currency_assignment 0 (u "#gold = ¥lots") false pool_B_world
                       (u "gold") (u "¥lots") eq_refl eq_refl eq_refl))
      as (r & w' & E & L & S & _); [reflexivity|].
    exists r, w'. rewrite L. repeat split; try assumption; apply S.
Defined.

Lemma X17_witness :
  (exists r w',
      execute 1 (u "#rate = 0.6/") false pool_B_world = Ok r w'
      /\ list_get r w' = [u "[变] #rate = 0.6/"]
      /\ dict_get (u "rate") (variables (self w'))
         = Some (VFloat (fdiv (float_of_decimal 6 1) f100)))
  /\ (exists r w',
         execute 1 (u "#rate = 1.2.3/") false pool_B_world = Ok r w'
         /\ list_get r w' = [u "[!] could not convert string to float: '1.2.3'"]
         /\ same_attributes (self pool_B_world) (self w')).
Proof.
  split.
  - destruct (proj1 (X17_percent_assignment 0 (u "#rate = 0.6/") false pool_B_world
                       (u "rate") (u "0.6/") (u "0.6") eq_refl eq_refl eq_refl eq_refl
                       eq_refl) (float_of_decimal 6 1))
      as (r & w' & E & L & V & _); [reflexivity|].
    exists r, w'. rewrite L, V. repeat split; try assumption; reflexivity.
  - destruct (proj2 (X17_percent_assignment 0 (u "#rate = 1.2.3/") false pool_B_world
                       (u "rate") (u "1.2.3/") (u "1.2.3") eq_refl eq_refl eq_refl eq_refl
                       eq_refl))
      as (r & w' & E & L & S & _); [reflexivity|].
    exists r, w'. rewrite L. repeat split; try assumption; apply S.
Defined.

Lemma X18_witness :
  exists r1 w1 r2 w2,
    execute 1 (u "#who = the world") false pool_B_world = Ok r1 w1
    /\ execute 1 (u "¢,#who") true w1 = Ok r2 w2
    /\ list_get r2 w2 = [u "[出] the world"].
Proof.
  destruct (X18_assigned_text_is_printed_back 0 (u "#who = the world") false pool_B_world
              (u "who") (u "the world") 0 (u "¢,#who") true)
    as (r1 & w1 & r2 & w2 & E1 & E2 & L);
    [reflexivity|reflexivity|reflexivity|reflexivity|reflexivity| |reflexivity|].
  - vm_compute. intuition discriminate.
  - exists r1, w1, r2, w2. rewrite L. repeat split; assumption.
Defined.

Lemma X19_witness :
  exists r w',
    execute 1 (u "?#a > 1") false pool_B_world = Ok r w'
    /\ list_get r w'
       = [u "[!] 'HPSInterpreter' object has no attribute '_handle_condition'"]
    /\ same_attributes (self pool_B_world) (self w')
    /\ rng_pos w' = rng_pos pool_B_world.
Proof.
  apply (X19_condition_statement_fails 0 (u "?#a > 1") false pool_B_world); reflexivity.
Defined.

Lemma X20_witness :
  exists r w',
    execute 1 (u " /reset ") false pool_B_world = Ok r w'
    /\ list_get r w' = [u "[✓] 已重置"]
    /\ self w' = mkHPS [] [] [] [] 0 0 [] r false [] [] []
    /\ rng_pos w' = rng_pos pool_B_world.
Proof.
  apply (X20_reset_restores_the_initial_state 0 (u " /reset ") false pool_B_world);
    reflexivity.
Defined.

Lemma X21_witness :
  exists r w',
    execute 1 (u "g(1)") false fun_hi_world = Ok r w'
    /\ list_get r w' = [u "[!] 函数未定义: g"]
    /\ same_attributes (self fun_hi_world) (self w')
    /\ rng_pos w' = rng_pos fun_hi_world.
Proof.
  destruct (X21_call_of_undefined_function 0 (u "g(1)") false fun_hi_world (u "g") (u "1"))
    as (r & w' & E & L & S); [reflexivity|reflexivity|reflexivity|].
  exists r, w'. rewrite L. repeat split; try assumption; apply S.
Defined.

Lemma X22_witness :
  exists r w',
    execute 1 (u "f( 1, 2 )") false fun_empty_world = Ok r w'
    /\ list_get r w' = [u "[调] ¢.f(1, 2)"]
    /\ same_attributes (self fun_empty_world) (self w')
    /\ rng_pos w' = rng_pos fun_empty_world.
Proof.
  destruct (X22_call_with_empty_body 0 (u "f( 1, 2 )") false fun_empty_world
              (u "f") (u " 1, 2 ") (mkFunction (u "f") [] []))
    as (r & w' & E & L & S); [reflexivity|reflexivity|reflexivity|constructor|].
  exists r, w'. rewrite L. repeat split; try assumption; apply S.
Defined.

Lemma X23_witness :
  never_returns (fun fuel => execute fuel (u "f(hi)") false fun_out_world).
Proof.
  apply (X23_call_with_output_never_returns (u "f(hi)") false fun_out_world
           (u "f") (u "hi") (mkFunction (u "f") [u "a"] [u "¢,#a"]) [] (u "¢,#a") []);
    try reflexivity.
  constructor.
Defined.

Lemma X24_witness :
  (exists r w',
      execute 1 (u "¢  note  ") false pool_B_world = Ok r w'
      /\ list_get r w' = [u "[注] note"]
      /\ same_attributes (self pool_B_world) (self w'))
  /\ (exists r w',
         execute 1 (u "¢") false pool_B_world = Ok r w' /\ list_get r w' = []).
Proof.
  split.
  - destruct (X24_comment 0 (u "¢  note  ") false pool_B_world)
      as (r & w' & E & L & S & _); [reflexivity|reflexivity|reflexivity|reflexivity|].
    exists r, w'. rewrite L. repeat split; try assumption; apply S.
  - destruct (X24_comment 0 (u "¢") false pool_B_world)
      as (r & w' & E & L & _); [reflexivity|reflexivity|reflexivity|reflexivity|].
    exists r, w'. rewrite L. split; [exact E|reflexivity].
Defined.

Lemma X25_witness :
  exists r w',
    execute 1 (u "/run examples/a-rather-long-file-name-for-a-script.hps") false
            pool_B_world = Ok r w'
    /\ list_get r w' = [u "[?] 未知: /run examples/a-rather-long-file-name-fo"].
Proof.
  destruct (X25_unknown_slash_command 0
              (u "/run examples/a-rather-long-file-name-for-a-script.hps") false pool_B_world)
    as (r & w' & E & L & _); [reflexivity|reflexivity|discriminate|discriminate|].
  exists r, w'. rewrite L. split; [exact E|reflexivity].
Defined.

Lemma X26_witness :
  (exists r w',
      execute 1 (u "&A(1 + 2") false pool_B_world = Ok r w'
      /\ list_get r w' = []
      /\ same_attributes (self pool_B_world) (self w'))
  /\ (exists r w',
         execute 1 (u "&A(1 + 2)") false pool_B_world = Ok r w'
         /\ list_get r w' = [u "[算] 错误: 1 + 2"]
         /\ same_attributes (self pool_B_world) (self w')).
Proof.
  split.
  - pose proof (proj2 (X26_arithmetic_statement 0 (u "&A(1 + 2") false pool_B_world
                         eq_refl eq_refl)) as O.
    change (re_search_math (strip (u "&A(1 + 2"))) with (@None pystr) in O. cbv iota in O.
    destruct O as (r & w' & E & L & S & _). exists r, w'. auto.
  - pose proof (proj2 (X26_arithmetic_statement 0 (u "&A(1 + 2)") false pool_B_world
                         eq_refl eq_refl)) as O.
    change (re_search_math (strip (u "&A(1 + 2)"))) with (Some (u "1 + 2")) in O.
    cbv iota in O. destruct O as (_ & O & _).
    destruct (O (ValueError (u "eval")) ltac:(reflexivity)) as (r & w' & E & L & S & _).
    exists r, w'. split; [exact E|]. split; [|exact S]. rewrite L. reflexivity.
Defined.


Lemma X29_witness :
  exists r w1,
    execute 1 (u "/state") false pool_B_world = Ok r w1
    /\ list_get r w1 = [get_state (self pool_B_world)]
    /\ same_attributes (self pool_B_world) (self w1)
    /\ do_state pool_B_world
       = Ok tt (mkWorld (self pool_B_world) (heap pool_B_world) (rng_pos pool_B_world)
                        (stdout pool_B_world ++ [get_state (self pool_B_world)])).
Proof.
  apply (proj1 (X29_shell_state_and_reset 0 pool_B_world)). reflexivity.
Defined.

Lemma X1_witness :
  (exists r w',
      execute 1 (u "   ") true pool_B_world = Ok r w'
      /\ list_get r w' = [] /\ r <> output_lines (self w'))
  /\ (exists r w',
         execute 1 (u "?") true pool_B_world = Ok r w' /\ r = output_lines (self w')).
Proof.
  split.
  - pose proof (X1_execute_never_raises 1 (u "   ") true pool_B_world eq_refl eq_refl) as O.
    destruct (execute 1 (u "   ") true pool_B_world) as [r w'|e w'|] eqn:E;
      [|contradiction|discriminate].
    change (is_empty (strip (u "   "))) with true in O. cbv iota in O.
    exists r, w'. split; [reflexivity|]. split; apply O.
  - pose proof (X1_execute_never_raises 1 (u "?") true pool_B_world eq_refl eq_refl) as O.
    destruct (execute 1 (u "?") true pool_B_world) as [r w'|e w'|] eqn:E;
      [|contradiction|discriminate].
    change (is_empty (strip (u "?"))) with false in O. cbv iota in O.
    exists r, w'. split; [reflexivity|apply O].
Defined.

Lemma X8_witness :
  exists r w',
    execute 1 (u "  ¢ hi") true pool_B_world = Ok r w'
    /\ stdout w' = [u "hps> ¢ hi"].
Proof.
  pose proof (proj1 X8_what_is_printed 1%nat (u "  ¢ hi") true pool_B_world
                eq_refl eq_refl) as O.
  destruct (execute 1 (u "  ¢ hi") true pool_B_world) as [r w'|e w'|] eqn:E;
    [|contradiction|discriminate].
  exists r, w'. split; [reflexivity|]. rewrite O. reflexivity.
Defined.

